(** * solsec: heuristic detectors, consolidation and scoring

    A shallow embedding of the Go packages [internal/parser] (data model,
    severity ranking, the conversion of Slither's output into findings),
    [internal/analyzer/checks] (the three line scanners),
    [internal/analyzer] (merge, deduplicate, sort, summarise),
    [internal/scorer], the target validation of [internal/runner], the
    exit code of the [analyze] command and what the SARIF and HTML
    reporters compute from a report, followed by the properties proved
    about them.

    Conventions.
    - A Go [string] is a byte sequence: Rocq's [string] (a list of 8-bit
      [ascii]).  A Go [int] is a [Z]; where the source multiplies or adds
      caller-supplied ints the 64-bit two's-complement wrap-around is
      written out ([GoInt.wrap]).  Line numbers and slice lengths are
      bounded by the size of the input, so they are plain [Z].
    - A file is the list of its lines, as [bufio.Scanner] yields them.
    - [strings.ToLower] is modelled on strings of ASCII bytes, where it is
      exact; a property that depends on it for an arbitrary string is
      stated for ASCII strings ([isASCII]).  [strings.TrimSpace] and
      [strings.Fields] recognise the UTF-8 encodings of all of Go's
      [unicode.IsSpace] runes.
    - [sort.Slice] is library code: [Analyze] takes the sorting routine as
      an argument, and [SortSliceSpec] states what its documentation
      promises.  [GoSort] follows the routine of Go 1.19 and later on
      short slices, to see what becomes of ties.  The file system and the
      clock are arguments as well. *)

From Stdlib Require Import ZArith Lia Ascii.
From Stdlib Require String.
From stdpp Require Import base gmap strings list sorting pretty.

Local Open Scope Z_scope.

(** ** Go's [strings] package, as far as the scanners use it *)

Module GoStrings.

Definition bytes (l : list nat) : string :=
  fold_right (fun n s => String (ascii_of_nat n) s) "" l.

Definition len (s : string) : Z := Z.of_nat (String.length s).

(** [strings.HasPrefix(s, prefix)] *)
Fixpoint HasPrefix (s prefix : string) : bool :=
  match prefix with
  | "" => true
  | String c p' =>
      match s with
      | "" => false
      | String d s' => if Ascii.eqb c d then HasPrefix s' p' else false
      end
  end.

(** [strings.Contains(s, substr)] *)
Fixpoint Contains (s substr : string) : bool :=
  HasPrefix s substr ||
  match s with
  | "" => false
  | String _ s' => Contains s' substr
  end.

(** [strings.Index(s, substr)]: byte offset of the first occurrence, -1 if
    there is none. *)
Fixpoint Index (s substr : string) : Z :=
  if HasPrefix s substr then 0
  else match s with
       | "" => -1
       | String _ s' => let i := Index s' substr in if i <? 0 then -1 else i + 1
       end.

Definition containsByte (chars : string) (c : ascii) : bool :=
  existsb (Ascii.eqb c) (String.list_ascii_of_string chars).

(** [strings.IndexAny(s, chars)] for an ASCII [chars]. *)
Fixpoint IndexAny (s chars : string) : Z :=
  match s with
  | "" => -1
  | String c s' =>
      if containsByte chars c then 0
      else let i := IndexAny s' chars in if i <? 0 then -1 else i + 1
  end.

Fixpoint drop (n : nat) (s : string) : string :=
  match n, s with
  | O, _ => s
  | S n', String _ s' => drop n' s'
  | S _, "" => ""
  end.

Fixpoint take (n : nat) (s : string) : string :=
  match n, s with
  | O, _ => ""
  | S n', String c s' => String c (take n' s')
  | S _, "" => ""
  end.

(** The UTF-8 encodings of the runes for which [unicode.IsSpace] holds:
    tab, LF, VT, FF, CR, space, U+0085, U+00A0, U+1680, U+2000..U+200A,
    U+2028, U+2029, U+202F, U+205F, U+3000. *)
Definition spaceRunes : list string :=
  map bytes
    ([ [9]; [10]; [11]; [12]; [13]; [32]; [194; 133]; [194; 160];
       [225; 154; 128] ]
     ++ map (fun k => [226; 128; k]) (seq 128 11)
     ++ [ [226; 128; 168]; [226; 128; 169]; [226; 128; 175];
          [226; 129; 159]; [227; 128; 128] ])%nat.

(** The rest of [s] after one leading white-space rune, if it starts with
    one. *)
Definition leadingSpace (s : string) : option string :=
  match find (HasPrefix s) spaceRunes with
  | Some r => Some (drop (String.length r) s)
  | None => None
  end.

Fixpoint trimLeftSpace (fuel : nat) (s : string) : string :=
  match fuel with
  | O => s
  | S n => match leadingSpace s with
           | Some r => trimLeftSpace n r
           | None => s
           end
  end.

Definition trailingSpace (r : string) : option string :=
  match find (fun sp => HasPrefix r (String.rev sp)) spaceRunes with
  | Some sp => Some (drop (String.length sp) r)
  | None => None
  end.

(** Works on the reversed string. *)
Fixpoint trimRightSpaceRev (fuel : nat) (r : string) : string :=
  match fuel with
  | O => r
  | S n => match trailingSpace r with
           | Some r' => trimRightSpaceRev n r'
           | None => r
           end
  end.

(** [strings.TrimSpace(s)] *)
Definition TrimSpace (s : string) : string :=
  let l := trimLeftSpace (String.length s) s in
  String.rev (trimRightSpaceRev (String.length l) (String.rev l)).

(** [strings.ToLower(s)] for a string of ASCII bytes: Go then maps the
    bytes ['A'] to ['Z'] to lower case and leaves every other byte.  On a
    string with a byte from 128 on Go decodes UTF-8 and maps each rune,
    which this function does not follow; such strings are outside its
    domain (see [isASCII]). *)
Definition lowerByte (c : ascii) : ascii :=
  let n := nat_of_ascii c in
  if ((65 <=? n) && (n <=? 90))%nat then ascii_of_nat (n + 32) else c.

Fixpoint ToLower (s : string) : string :=
  match s with
  | "" => ""
  | String c s' => String (lowerByte c) (ToLower s')
  end.

(** [strings.Fields(s)]: the maximal runs of non-white-space. [cur] is the
    field being read, reversed. *)
Fixpoint fieldsGo (fuel : nat) (cur : string) (s : string) : list string :=
  let flush := match cur with "" => [] | _ => [String.rev cur] end in
  match fuel with
  | O => flush
  | S n =>
      match leadingSpace s with
      | Some r => flush ++ fieldsGo n "" r
      | None =>
          match s with
          | "" => flush
          | String c s' => fieldsGo n (String c cur) s'
          end
      end
  end.

Definition Fields (s : string) : list string :=
  fieldsGo (S (String.length s)) "" s.

(** [strings.TrimLeft(s, cutset)] for an ASCII [cutset]. *)
Fixpoint TrimLeft (s cutset : string) : string :=
  match s with
  | "" => ""
  | String c s' => if containsByte cutset c then TrimLeft s' cutset else s
  end.

(** [strings.Trim(s, cutset)] for an ASCII [cutset]. *)
Definition Trim (s cutset : string) : string :=
  String.rev (TrimLeft (String.rev (TrimLeft s cutset)) cutset).

(** [strings.Split(s, sep)] for a one-byte [sep]; [cur] is the part being
    read, reversed.  The result is never empty. *)
Fixpoint splitGo (sep : ascii) (cur : string) (s : string) : list string :=
  match s with
  | "" => [String.rev cur]
  | String c s' =>
      if Ascii.eqb c sep then String.rev cur :: splitGo sep "" s'
      else splitGo sep (String c cur) s'
  end.

Definition Split (s : string) (sep : ascii) : list string := splitGo sep "" s.

End GoStrings.

(** ** Go's [int] on a 64-bit platform *)

Module GoInt.

Definition MaxInt : Z := 2 ^ 63 - 1.
Definition MinInt : Z := - 2 ^ 63.

(** Two's-complement wrap-around of an arithmetic result. *)
Definition wrap (z : Z) : Z := (z + 2 ^ 63) mod 2 ^ 64 - 2 ^ 63.

Definition add (a b : Z) : Z := wrap (a + b).
Definition mul (a b : Z) : Z := wrap (a * b).

End GoInt.

(** ** [fmt]: the verbs the program uses *)

Module GoFmt.

(** [fmt.Sprintf("%d", n)] *)
Definition d (n : Z) : string := pretty n.

Definition isDigit (c : ascii) : bool :=
  let n := nat_of_ascii c in ((48 <=? n) && (n <=? 57))%nat.

(** The value of a run of decimal digits read left to right, and whether
    any digit was read. *)
Fixpoint digitsValue (acc : Z) (seen : bool) (s : string) : Z * bool :=
  match s with
  | "" => (acc, seen)
  | String c s' =>
      if isDigit c
      then digitsValue (acc * 10 + (Z.of_nat (nat_of_ascii c) - 48)) true s'
      else (acc, seen)
  end.

(** [fmt.Sscanf(s, "%d", &v)] on a string without white space: an optional
    sign, then at least one decimal digit; what follows the digits is left
    unread.  [None] is the error case (nothing is stored): no digit, or a
    value outside the int range. *)
Definition Sscanf_d (s : string) : option Z :=
  let '(neg, rest) :=
    match s with
    | String "-" s' => (true, s')
    | String "+" s' => (false, s')
    | _ => (false, s)
    end in
  let '(v, seen) := digitsValue 0 false rest in
  let v := if neg then - v else v in
  if seen && (GoInt.MinInt <=? v) && (v <=? GoInt.MaxInt) then Some v else None.

End GoFmt.

(** ** [internal/parser]: the data model *)

(** [type Severity string] *)
Definition Severity := string.

Definition SeverityCritical : Severity := "Critical".
Definition SeverityHigh : Severity := "High".
Definition SeverityMedium : Severity := "Medium".
Definition SeverityLow : Severity := "Low".
Definition SeverityInformational : Severity := "Informational".
Definition SeverityOptimization : Severity := "Optimization".

(** [SeverityRank]: lower is more severe; any other string ranks 6. *)
Definition SeverityRank (s : Severity) : Z :=
  if String.eqb s SeverityCritical then 0
  else if String.eqb s SeverityHigh then 1
  else if String.eqb s SeverityMedium then 2
  else if String.eqb s SeverityLow then 3
  else if String.eqb s SeverityInformational then 4
  else if String.eqb s SeverityOptimization then 5
  else 6.

(** [type Finding struct]; the field [Severity] is [Sev] here, since the
    type has that name. *)
Record Finding := mkFinding {
  ID : string;
  Source : string;
  Check : string;
  Title : string;
  Description : string;
  Sev : Severity;
  Confidence : string;
  File : string;
  Lines : list Z;
  Remediation : string;
  SWCRef : string;
  References : list string
}.

(** [type Summary struct] *)
Record Summary := mkSummary {
  Total : Z;
  Critical : Z;
  High : Z;
  Medium : Z;
  Low : Z;
  Informational : Z;
  Optimization : Z
}.

(** [type AnalysisReport struct]; the field [Summary] is [ReportSummary]. *)
Record AnalysisReport := mkReport {
  Target : string;
  GeneratedAt : string;
  ReportSummary : Summary;
  Findings : list Finding
}.

(** [len(findings)] *)
Definition lenF (fs : list Finding) : Z := Z.of_nat (length fs).

(** ** [internal/analyzer/checks]: the line scanners *)

Import GoStrings.

(** [line[start:]]; both callers have checked that the line contains
    ["function "], so [start] is within the line. *)
Definition extractFunctionName (line : string) : string :=
  let start := Index line "function " + len "function " in
  let rest := drop (Z.to_nat start) line in
  let end_ := IndexAny rest "( " in
  if end_ <? 0 then rest else take (Z.to_nat end_) rest.

Definition isComment (trimmed : string) : bool := HasPrefix trimmed "//".

Module Reentrancy.

Definition externalCallPatterns : list string :=
  [".call{"; ".call("; ".delegatecall("; ".transfer("; ".send("].

Definition stateChangePatterns : list string :=
  ["balances["; "balanceOf["; "= 0;"; "-= "; "+= "].

(** The local variables of [checkReentrancyInFile] ([lines] is only
    appended to and never read). *)
Record state := mkState {
  findings : list Finding;
  inFunction : bool;
  functionName : string;
  sawExternalCall : bool;
  callLine : Z;
  hasGuard : bool;
  lineNum : Z
}.

Definition init : state := mkState [] false "" false 0 false 0.

Definition isFunctionDecl (trimmed : string) : bool :=
  Contains trimmed "function " && Contains trimmed "(".

Definition isGuard (trimmed : string) : bool :=
  Contains trimmed "nonReentrant" || Contains trimmed "ReentrancyGuard"
  || Contains trimmed "mutex".

(** [for _, pattern := range externalCallPatterns { ... }] *)
Definition detectCall (trimmed : string) (lineNum : Z) (acc : bool * Z) : bool * Z :=
  fold_left
    (fun acc pattern =>
       if Contains trimmed pattern && negb (isComment trimmed)
       then (true, lineNum) else acc)
    externalCallPatterns acc.

Definition newFinding (path functionName : string) (lineNum callLine : Z)
    (found : list Finding) : Finding :=
  {| ID := "CUSTOM-REENTRANT-" +:+ GoFmt.d (lenF found + 1);
     Source := "custom";
     Check := "custom-reentrancy-ordering";
     Title := "State Change After External Call (Reentrancy Risk)";
     Description :=
       "In function '" +:+ functionName +:+ "' (" +:+ path +:+ " line "
       +:+ GoFmt.d lineNum +:+ "): state variable modified after external call on line "
       +:+ GoFmt.d callLine +:+ ". "
       +:+ "If the callee re-enters this function before the state update, it can exploit the stale state.";
     Sev := SeverityHigh;
     Confidence := "Medium";
     File := path;
     Lines := [callLine; lineNum];
     Remediation :=
       "Move all state changes BEFORE the external call (checks-effects-interactions). "
       +:+ "Alternatively, add OpenZeppelin's nonReentrant modifier.";
     SWCRef := "SWC-107";
     References :=
       ["https://swcregistry.io/docs/SWC-107";
        "https://docs.openzeppelin.com/contracts/4.x/api/security#ReentrancyGuard"] |}.

(** [for _, pattern := range stateChangePatterns { if ... { append; break } }] *)
Fixpoint detectStateChange (patterns : list string) (trimmed : string)
    (f : Finding) (found : list Finding) : list Finding :=
  match patterns with
  | [] => found
  | pattern :: rest =>
      if Contains trimmed pattern && negb (isComment trimmed)
      then found ++ [f]
      else detectStateChange rest trimmed f found
  end.

(** One iteration of the [for scanner.Scan()] loop. *)
Definition step (path : string) (st : state) (line : string) : state :=
  let lineNum := lineNum st + 1 in
  let trimmed := TrimSpace line in
  let decl := isFunctionDecl trimmed in
  let inFunction := if decl then true else inFunction st in
  let sawExternalCall := if decl then false else sawExternalCall st in
  let hasGuard := if decl then false else hasGuard st in
  let functionName :=
    if decl then extractFunctionName trimmed else functionName st in
  if negb inFunction then
    mkState (findings st) inFunction functionName sawExternalCall
            (callLine st) hasGuard lineNum
  else
    let hasGuard := if isGuard trimmed then true else hasGuard in
    let '(sawExternalCall, callLine) :=
      detectCall trimmed lineNum (sawExternalCall, callLine st) in
    let findings :=
      if sawExternalCall && negb hasGuard
      then detectStateChange stateChangePatterns trimmed
             (newFinding path functionName lineNum callLine (findings st))
             (findings st)
      else findings st in
    if String.eqb trimmed "}"
    then mkState findings false functionName false callLine hasGuard lineNum
    else mkState findings inFunction functionName sawExternalCall callLine
                 hasGuard lineNum.

Definition scan (path : string) (st : state) (lines : list string) : state :=
  fold_left (step path) lines st.

End Reentrancy.

(** [checkReentrancyInFile], on the lines of an opened file. *)
Definition checkReentrancyInFile (path : string) (lines : list string) : list Finding :=
  Reentrancy.findings (Reentrancy.scan path Reentrancy.init lines).

Module AccessControl.

(** [sensitivePatterns]: keyword, severity, note. *)
Definition sensitivePatterns : list (string * Severity * string) :=
  [ ("mint", SeverityCritical, "Unrestricted minting allows anyone to inflate token supply to infinity.");
    ("burn", SeverityHigh, "Unrestricted burning allows anyone to destroy any holder's tokens.");
    ("pause", SeverityHigh, "Unrestricted pause allows any caller to halt all transfers (griefing attack).");
    ("unpause", SeverityHigh, "Unrestricted unpause can bypass emergency stops.");
    ("upgradeTo", SeverityCritical, "Unrestricted upgrades allow full contract takeover.");
    ("upgradeToAndCall", SeverityCritical, "Unrestricted upgrades allow full contract takeover.");
    ("setOwner", SeverityCritical, "Unrestricted owner changes allow full protocol takeover.");
    ("transferOwnership", SeverityHigh, "Should be guarded — accidental calls transfer admin rights.");
    ("withdraw", SeverityHigh, "Unrestricted withdrawals allow draining of contract funds.");
    ("selfdestruct", SeverityCritical, "Unrestricted selfdestruct permanently destroys the contract.") ].

Definition accessModifiers : list string :=
  [ "onlyOwner"; "onlyRole"; "onlyAdmin"; "onlyMinter"; "onlyPauser";
    "requiresAuth"; "restricted"; "auth"; "isOwner" ].

(** [containsFunctionNamed]: the search and the look at the next byte are
    both made in [lower], the lower-cased line; [keyword] is used as it is
    written in the catalog. *)
Definition containsFunctionNamed (line keyword : string) : bool :=
  let lower := ToLower line in
  let idx := Index lower ("function " +:+ keyword) in
  if idx <? 0 then false
  else
    let after := drop (Z.to_nat (idx + len "function " + len keyword)) lower in
    HasPrefix after "("
    || match after with
       | "" => false
       | String c _ =>
           ((nat_of_ascii "A" <=? nat_of_ascii c)
            && (nat_of_ascii c <=? nat_of_ascii "Z"))%nat
       end.

Definition hasAccessModifier (line : string) : bool :=
  let lower := ToLower line in
  existsb (fun mod_ => Contains lower (ToLower mod_)) accessModifiers.

Definition newFinding (path trimmed : string) (lineNum : Z)
    (severity : Severity) (note : string) (found : list Finding) : Finding :=
  {| ID := "CUSTOM-ACCESS-" +:+ GoFmt.d (lenF found + 1);
     Source := "custom";
     Check := "custom-missing-access-control";
     Title := "Missing Access Control on " +:+ extractFunctionName trimmed +:+ "()";
     Description :=
       path +:+ ":" +:+ GoFmt.d lineNum +:+ " — Function '"
       +:+ extractFunctionName trimmed
       +:+ "' appears to be missing an access control modifier. " +:+ note;
     Sev := severity;
     Confidence := "Medium";
     File := path;
     Lines := [lineNum];
     Remediation :=
       "Add an access control modifier to '" +:+ extractFunctionName trimmed
       +:+ "()'. Use onlyOwner (OpenZeppelin Ownable) "
       +:+ "or onlyRole(ROLE) (OpenZeppelin AccessControl) depending on your access model.";
     SWCRef := "SWC-105";
     References :=
       ["https://swcregistry.io/docs/SWC-105";
        "https://docs.openzeppelin.com/contracts/4.x/access-control"] |}.

(** The body of [for _, sp := range sensitivePatterns]. *)
Definition checkPattern (path trimmed : string) (lineNum : Z)
    (found : list Finding) (sp : string * Severity * string) : list Finding :=
  let '(keyword, severity, note) := sp in
  if negb (containsFunctionNamed trimmed keyword) then found
  else if hasAccessModifier trimmed then found
  else if Contains trimmed " internal " || Contains trimmed " private " then found
  else found ++ [newFinding path trimmed lineNum severity note found].

(** One iteration of the scanner loop: the findings so far and the line
    number. *)
Definition step (path : string) (st : list Finding * Z) (line : string)
    : list Finding * Z :=
  let '(found, lineNum) := st in
  let lineNum := lineNum + 1 in
  let trimmed := TrimSpace line in
  if HasPrefix trimmed "//" || HasPrefix trimmed "*" then (found, lineNum)
  else if negb (Contains trimmed "function ") then (found, lineNum)
  else (fold_left (checkPattern path trimmed lineNum) sensitivePatterns found,
        lineNum).

End AccessControl.

(** [checkAccessControlInFile], on the lines of an opened file. *)
Definition checkAccessControlInFile (path : string) (lines : list string) : list Finding :=
  fst (fold_left (AccessControl.step path) lines ([], 0)).

Module IntegerOverflow.

Definition containsArithmetic (line : string) : bool :=
  existsb (Contains line)
    [" + "; " - "; " * "; " / "; " % "; "++"; "--"; "+="; "-="; "*="; "/="].

(** The body of [for _, part := range strings.Fields(pragma)]: [Some] is
    the early [return] of the named results, [None] goes on to the next
    part with the values the two [Sscanf] calls left in [major], [minor]. *)
Definition versionOfPart (major minor : Z) (part : string) : Z * Z * bool :=
  let cleaned := TrimLeft part "^>=<~" in
  let cleaned := Trim cleaned ";" in
  match Split cleaned "." with
  | p0 :: p1 :: _ =>
      let major := match GoFmt.Sscanf_d p0 with Some v => v | None => major end in
      let minor := match GoFmt.Sscanf_d p1 with Some v => v | None => minor end in
      (major, minor, (major =? 0) && (minor >? 0))
  | _ => (major, minor, false)
  end.

Fixpoint versionOfParts (major minor : Z) (parts : list string) : Z * Z :=
  match parts with
  | [] => (0, 8)
  | part :: rest =>
      let '(major, minor, done) := versionOfPart major minor part in
      if done then (major, minor) else versionOfParts major minor rest
  end.

(** [extractSolidityVersion] *)
Definition extractSolidityVersion (pragma : string) : Z * Z :=
  versionOfParts 0 0 (Fields pragma).

(** The local variables of [checkIntegerOverflowInFile]; Go initialises
    [solidityMajor] and [solidityMinor] to 0. *)
Record state := mkState {
  findings : list Finding;
  lineNum : Z;
  solidityMajor : Z;
  solidityMinor : Z;
  inUnchecked : bool;
  uncheckedLine : Z
}.

Definition init : state := mkState [] 0 0 0 false 0.

Definition overflowFinding (path : string) (lineNum major minor : Z)
    (found : list Finding) : Finding :=
  {| ID := "CUSTOM-OVERFLOW-" +:+ GoFmt.d (lenF found + 1);
     Source := "custom";
     Check := "custom-integer-overflow";
     Title := "Potential Integer Overflow (Solidity < 0.8)";
     Description :=
       path +:+ ":" +:+ GoFmt.d lineNum +:+ " — Arithmetic operation in Solidity "
       +:+ GoFmt.d major +:+ "." +:+ GoFmt.d minor +:+ ".x without SafeMath. "
       +:+ "Integer overflow/underflow silently wraps in versions before 0.8.0.";
     Sev := SeverityHigh;
     Confidence := "Medium";
     File := path;
     Lines := [lineNum];
     Remediation :=
       "Upgrade to Solidity ^0.8.0 where overflow/underflow revert by default. "
       +:+ "If upgrading is not possible, use OpenZeppelin SafeMath for all arithmetic.";
     SWCRef := "SWC-101";
     References :=
       ["https://swcregistry.io/docs/SWC-101";
        "https://docs.openzeppelin.com/contracts/4.x/api/utils#SafeMath"] |}.

Definition uncheckedFinding (path : string) (lineNum uncheckedLine : Z)
    (found : list Finding) : Finding :=
  {| ID := "CUSTOM-UNCHECKED-" +:+ GoFmt.d (lenF found + 1);
     Source := "custom";
     Check := "custom-unchecked-arithmetic";
     Title := "Arithmetic Inside unchecked{} Block";
     Description :=
       path +:+ ":" +:+ GoFmt.d lineNum
       +:+ " — Arithmetic operation inside an unchecked{} block (started line "
       +:+ GoFmt.d uncheckedLine +:+ "). "
       +:+ "Overflow protection is deliberately disabled here. Verify this is intentional.";
     Sev := SeverityLow;
     Confidence := "High";
     File := path;
     Lines := [uncheckedLine; lineNum];
     Remediation :=
       "Only use unchecked{} when overflow is mathematically impossible "
       +:+ "(e.g. loop counter bounded by array length). Add a comment explaining why it is safe.";
     SWCRef := "SWC-101";
     References :=
       ["https://docs.soliditylang.org/en/latest/control-structures.html#checked-or-unchecked-arithmetic"] |}.

(** One iteration of the scanner loop. *)
Definition step (path : string) (st : state) (line : string) : state :=
  let lineNum := lineNum st + 1 in
  let trimmed := TrimSpace line in
  let '(major, minor) :=
    if HasPrefix trimmed "pragma solidity"
    then extractSolidityVersion trimmed
    else (solidityMajor st, solidityMinor st) in
  let opens := String.eqb trimmed "unchecked {" || String.eqb trimmed "unchecked{" in
  let inUnchecked := if opens then true else inUnchecked st in
  let uncheckedLine := if opens then lineNum else uncheckedLine st in
  let inUnchecked :=
    if inUnchecked && String.eqb trimmed "}" then false else inUnchecked in
  let found := findings st in
  let found :=
    if (major =? 0) && (minor <? 8)
    then
      if containsArithmetic trimmed && negb (Contains trimmed "SafeMath")
         && negb (isComment trimmed)
      then found ++ [overflowFinding path lineNum major minor found]
      else found
    else found in
  let found :=
    if (major =? 0) && (minor >=? 8) && inUnchecked
    then
      if containsArithmetic trimmed && negb (isComment trimmed)
      then found ++ [uncheckedFinding path lineNum uncheckedLine found]
      else found
    else found in
  mkState found lineNum major minor inUnchecked uncheckedLine.

Definition scan (path : string) (st : state) (lines : list string) : state :=
  fold_left (step path) lines st.

End IntegerOverflow.

(** [checkIntegerOverflowInFile], on the lines of an opened file. *)
Definition checkIntegerOverflowInFile (path : string) (lines : list string) : list Finding :=
  IntegerOverflow.findings (IntegerOverflow.scan path IntegerOverflow.init lines).

(** ** The file system, as the program observes it *)

(** A Go [(value, error)] result. *)
Inductive Result (A : Type) :=
| Ok (a : A)
| Err (e : string).
Arguments Ok {A} a.
Arguments Err {A} e.

(** What [os.Stat], [os.Open] followed by the scanner loop, and
    [filepath.Walk] report for a path. *)
Inductive Node :=
| NotExist                                   (* os.Stat: the path does not exist *)
| StatError                                  (* os.Stat fails for another reason *)
| RegularFile (content : option (Result (list string)))
    (* a non-directory; [None]: [os.Open] fails; [Some (Ok lines)]: the
       scanner yields [lines] and reaches the end of the file;
       [Some (Err e)]: the scanner stops before the end (a line that
       exceeds its buffer, a read error) and [scanner.Err()] reads [e] *)
| Directory (walked : option (list string)).
    (* the non-directory paths [filepath.Walk] visits, in its order;
       [None]: the walk reports an error *)

Definition FileSystem := string -> Node.

Fixpoint extGo (acc r : string) : string :=
  match r with
  | "" => ""
  | String c r' =>
      if Ascii.eqb c "/" then ""
      else if Ascii.eqb c "." then String "." acc
      else extGo (String c acc) r'
  end.

(** [filepath.Ext]: the suffix from the last dot of the last path element. *)
Definition Ext (path : string) : string := extGo "" (String.rev path).

(** [solidityFiles] *)
Definition solidityFiles (fs : FileSystem) (target : string) : Result (list string) :=
  match fs target with
  | NotExist => Err "stat: no such file or directory"
  | StatError => Err "stat failed"
  | RegularFile _ => Ok [target]
  | Directory None => Err "walk failed"
  | Directory (Some paths) => Ok (List.filter (fun p => String.eqb (Ext p) ".sol") paths)
  end.

(** The text of an error that the operating system hands to [os.Open]
    is not part of the model; [osError] stands for it. *)
Definition osError : string := "(error of the operating system)".

(** [os.Open] and the scanner loop of a [check...InFile] function, as far
    as [Check...] looks at the outcome: the lines scanned, or the error.
    An error of [os.Open] is wrapped (["opening %s: %w"]); an error of the
    scanner is returned as it is, and the caller drops the findings made
    before it.  A directory can be opened, but not read. *)
Definition openAndScan (fs : FileSystem) (path : string) : Result (list string) :=
  match fs path with
  | RegularFile (Some scanned) => scanned
  | RegularFile None | NotExist | StatError =>
      Err ("opening " +:+ path +:+ ": " +:+ osError)
  | Directory _ => Err ("read " +:+ path +:+ ": is a directory")
  end.

(** The loop shared by [CheckReentrancy], [CheckAccessControl] and
    [CheckIntegerOverflow]: the first file that fails aborts the check. *)
Fixpoint checkFiles (inFile : string -> list string -> list Finding)
    (fs : FileSystem) (files : list string) (found : list Finding)
    : Result (list Finding) :=
  match files with
  | [] => Ok found
  | file :: rest =>
      match openAndScan fs file with
      | Err e => Err e
      | Ok lines => checkFiles inFile fs rest (found ++ inFile file lines)
      end
  end.

Definition runCheck (inFile : string -> list string -> list Finding)
    (fs : FileSystem) (target : string) : Result (list Finding) :=
  match solidityFiles fs target with
  | Err e => Err e
  | Ok files => checkFiles inFile fs files []
  end.

Definition CheckReentrancy := runCheck checkReentrancyInFile.
Definition CheckAccessControl := runCheck checkAccessControlInFile.
Definition CheckIntegerOverflow := runCheck checkIntegerOverflowInFile.

(** ** [internal/analyzer]: the consolidator *)

(** [buildSummary]: one arm of the [switch] per recognised severity, no
    default arm. *)
Definition countFinding (s : Summary) (f : Finding) : Summary :=
  let sev := Sev f in
  if String.eqb sev SeverityCritical then
    mkSummary (Total s) (Critical s + 1) (High s) (Medium s) (Low s) (Informational s) (Optimization s)
  else if String.eqb sev SeverityHigh then
    mkSummary (Total s) (Critical s) (High s + 1) (Medium s) (Low s) (Informational s) (Optimization s)
  else if String.eqb sev SeverityMedium then
    mkSummary (Total s) (Critical s) (High s) (Medium s + 1) (Low s) (Informational s) (Optimization s)
  else if String.eqb sev SeverityLow then
    mkSummary (Total s) (Critical s) (High s) (Medium s) (Low s + 1) (Informational s) (Optimization s)
  else if String.eqb sev SeverityInformational then
    mkSummary (Total s) (Critical s) (High s) (Medium s) (Low s) (Informational s + 1) (Optimization s)
  else if String.eqb sev SeverityOptimization then
    mkSummary (Total s) (Critical s) (High s) (Medium s) (Low s) (Informational s) (Optimization s + 1)
  else s.

Definition buildSummary (findings : list Finding) : Summary :=
  fold_left countFinding findings (mkSummary (lenF findings) 0 0 0 0 0 0).

(** The key of [deduplicate]: [f.SWCRef + "|" + f.File], then ["|%d"] of the
    first line when there is one. *)
Definition dedupKey (f : Finding) : string :=
  let key := SWCRef f +:+ "|" +:+ File f in
  match Lines f with
  | [] => key
  | line0 :: _ => key +:+ "|" +:+ GoFmt.d line0
  end.

(** The loop of [deduplicate]; [seen] is Go's [map[string]bool], whose lookup
    of an absent key is [false]. *)
Fixpoint deduplicateLoop (seen : gmap string bool) (result : list Finding)
    (findings : list Finding) : list Finding :=
  match findings with
  | [] => result
  | f :: rest =>
      let key := dedupKey f in
      if default false (seen !! key)
      then deduplicateLoop seen result rest
      else deduplicateLoop (<[key := true]> seen) (result ++ [f]) rest
  end.

Definition deduplicate (findings : list Finding) : list Finding :=
  deduplicateLoop ∅ [] findings.

(** The [less] closure handed to [sort.Slice]. *)
Definition lessFinding (a b : Finding) : bool :=
  let ri := SeverityRank (Sev a) in
  let rj := SeverityRank (Sev b) in
  if negb (ri =? rj) then ri <? rj else String.ltb (File a) (File b).

(** A sorting routine stands for Go's [sort.Slice] applied with
    [lessFinding]. *)
Definition Sorter := list Finding -> list Finding.

(** The three custom checks, in the order [Analyze] runs them. *)
Definition customChecks
    : list (string * (FileSystem -> string -> Result (list Finding))) :=
  [ ("reentrancy", CheckReentrancy);
    ("access-control", CheckAccessControl);
    ("integer-overflow", CheckIntegerOverflow) ].

(** [for _, c := range customChecks]: a failing check adds a warning and
    nothing else. *)
Definition runChecks (fs : FileSystem) (target : string)
    (acc : list Finding * list string)
    : list Finding * list string :=
  fold_left
    (fun '(allFindings, warnings) '(name, fn) =>
       match fn fs target with
       | Err e => (allFindings, warnings ++ [name])
       | Ok findings => (allFindings ++ findings, warnings)
       end)
    customChecks acc.

(** [Analyze]: the report, the names of the checks whose failure was
    printed as a warning, and the returned error, which is always [nil].
    [now] is the formatted [time.Now()]. *)
Definition Analyze (sort_Slice : Sorter) (fs : FileSystem) (now : string)
    (target : string) (slitherFindings : list Finding)
    : Result AnalysisReport * list string :=
  let '(allFindings, warnings) := runChecks fs target (slitherFindings, []) in
  let allFindings := deduplicate allFindings in
  let allFindings := sort_Slice allFindings in
  (Ok {| Target := target;
         GeneratedAt := now;
         Findings := allFindings;
         ReportSummary := buildSummary allFindings |},
   warnings).

(** ** [internal/scorer] *)

(** [Score]: every [+=] and [*] is Go [int] arithmetic. *)
Definition Score (report : AnalysisReport) : Z :=
  let summary := ReportSummary report in
  let score := 0 in
  let score := GoInt.add score (GoInt.mul (Critical summary) 40) in
  let score := GoInt.add score (GoInt.mul (High summary) 20) in
  let score := GoInt.add score (GoInt.mul (Medium summary) 10) in
  let score := GoInt.add score (GoInt.mul (Low summary) 3) in
  if score >? 100 then 100 else score.

Definition Grade (score : Z) : string :=
  if score <? 10 then "A"
  else if score <? 25 then "B"
  else if score <? 50 then "C"
  else if score <? 75 then "D"
  else "F".

(** ** [internal/runner] and the [analyze] command *)

(** [ValidateTarget]: [None] is the [nil] error. *)
Definition ValidateTarget (fs : FileSystem) (target : string) : option string :=
  match fs target with
  | NotExist => Some ("target not found: " +:+ target)
  | StatError => Some "accessing target"
  | Directory _ => None
  | RegularFile _ =>
      if negb (String.eqb (Ext target) ".sol")
      then Some ("target must be a .sol file or a directory, got: " +:+ target)
      else None
  end.

(** [runAnalyze] up to the point where the report and its score are handed
    to the reporter.  [slither] is the outcome of the external steps
    (environment detection, the Slither run, parsing its output); it is not
    consulted under [--no-slither]. *)
Definition runAnalyze (sort_Slice : Sorter) (fs : FileSystem) (now : string)
    (target : string) (noSlither : bool) (slither : Result (list Finding))
    : Result (AnalysisReport * Z) :=
  match ValidateTarget fs target with
  | Some err => Err err
  | None =>
      let slitherFindings :=
        if noSlither then Ok [] else slither in
      match slitherFindings with
      | Err e => Err e
      | Ok slitherFindings =>
          match fst (Analyze sort_Slice fs now target slitherFindings) with
          | Err e => Err ("analysis failed: " +:+ e)
          | Ok report => Ok (report, Score report)
          end
      end
  end.

(** ** Vocabulary of the properties *)

(** The six values of the severity enumeration. *)
Definition isEnumerated (s : Severity) : bool :=
  existsb (String.eqb s)
    [ SeverityCritical; SeverityHigh; SeverityMedium; SeverityLow;
      SeverityInformational; SeverityOptimization ].

Definition sumCounts (s : Summary) : Z :=
  Critical s + High s + Medium s + Low s + Informational s + Optimization s.

(** A finding with all text fields empty but the ones given. *)
Definition plainFinding (id : string) (sev : Severity) (file : string)
    (lines : list Z) (swc : string) : Finding :=
  mkFinding id "slither" "" "" "" sev "" file lines "" swc [].

(** The weighted sum of the scorer, in unbounded integers. *)
Definition weightedSum (s : Summary) : Z :=
  Critical s * 40 + High s * 20 + Medium s * 10 + Low s * 3.

(** Counts that are non-negative and whose weighted sum is a Go [int]. *)
Definition scorable (s : Summary) : Prop :=
  0 <= Critical s /\ 0 <= High s /\ 0 <= Medium s /\ 0 <= Low s
  /\ weightedSum s <= GoInt.MaxInt.

Definition countsLe (s s' : Summary) : Prop :=
  Critical s <= Critical s' /\ High s <= High s'
  /\ Medium s <= Medium s' /\ Low s <= Low s'.

Definition reportOf (s : Summary) : AnalysisReport := mkReport "" "" s [].

(** A summary counting 230584300921369396 critical findings: forty times
    that is just above the largest 64-bit int. *)
Definition hugeSummary : Summary := mkSummary 0 230584300921369396 0 0 0 0 0.

(** Deduplication as the specification words it: going through the findings
    in order, a finding is kept exactly when no earlier finding had its
    key.  [seen] lists the keys met so far. *)
Fixpoint keepFirst {K : Type} `{EqDecision K} (key : Finding -> K)
    (seen : list K) (fs : list Finding) : list Finding :=
  match fs with
  | [] => []
  | f :: rest =>
      if decide (key f ∈ seen) then keepFirst key seen rest
      else f :: keepFirst key (key f :: seen) rest
  end.

(** The key as the specification names it: (cross-reference id, file,
    first line of [lines] if present). *)
Definition tripleKey (f : Finding) : string * string * option Z :=
  (SWCRef f, File f, head (Lines f)).

Definition deduplicate_by_triple (fs : list Finding) : list Finding :=
  keepFirst tripleKey [] fs.

(** No byte of [s] is the separator ['|'] of [dedupKey]. *)
Fixpoint barFree (s : string) : bool :=
  match s with
  | "" => true
  | String c s' => negb (Ascii.eqb c "|") && barFree s'
  end.

Definition barFreeFinding (f : Finding) : Prop :=
  barFree (SWCRef f) = true /\ barFree (File f) = true.

(** Two findings whose triples differ and whose key strings coincide. *)
Definition collidingA : Finding := plainFinding "SLITHER-001" "High" "a.sol|7" [] "SWC-107".
Definition collidingB : Finding := plainFinding "CUSTOM-1" "High" "a.sol" [7] "SWC-107".

(** [sort.SliceIsSorted] with [lessFinding]: no element is less than the
    one before it. *)
Fixpoint SliceIsSorted (l : list Finding) : bool :=
  match l with
  | a :: (b :: _) as rest => negb (lessFinding b a) && SliceIsSorted rest
  | _ => true
  end.

(** What the documentation of [sort.Slice] promises of a sorting routine:
    the slice is rearranged (nothing added or lost) and ends up sorted by
    [less].  It does not promise stability ("equal elements may be reversed
    from their original order"). *)
Record SortSliceSpec (sort_Slice : Sorter) : Prop := {
  sort_Slice_perm : forall l, sort_Slice l ≡ₚ l;
  sort_Slice_sorted : forall l, SliceIsSorted (sort_Slice l) = true
}.

(** The order of the sort contract: severity rank ascending, ties by file
    path ascending (byte-wise). *)
Definition rankFileLe (a b : Finding) : Prop :=
  SeverityRank (Sev a) < SeverityRank (Sev b)
  \/ (SeverityRank (Sev a) = SeverityRank (Sev b)
      /\ String.leb (File a) (File b) = true).

(** [b] is not less than [a]: [a] may stand before [b]. *)
Definition notLess (a b : Finding) : Prop := lessFinding b a = false.

#[global] Instance notLess_dec : RelDecision notLess :=
  fun a b => decide (lessFinding b a = false).

(** Two routines that meet [SortSliceSpec]: a merge sort that keeps equal
    elements in their order, and the same merge sort run on the reversed
    slice, which reverses them. *)
Definition stableSort : Sorter := merge_sort notLess.
Definition reversingSort : Sorter := fun l => merge_sort notLess (reverse l).

(** Two findings of equal severity and file, with different key strings. *)
Definition tiedA : Finding := plainFinding "SLITHER-001" "High" "a.sol" [3] "SWC-107".
Definition tiedB : Finding := plainFinding "SLITHER-002" "High" "a.sol" [9] "SWC-101".

(** A file system without the target, and one where ["locked.sol"] exists
    but cannot be opened. *)
Definition missingFS : FileSystem := fun _ => NotExist.
Definition lockedFS : FileSystem :=
  fun p => if String.eqb p "locked.sol" then RegularFile None else NotExist.

Definition allChecks : list string :=
  ["reentrancy"; "access-control"; "integer-overflow"].

(** The report [Analyze] builds from the findings that survive. *)
Definition reportFor (sort_Slice : Sorter) (now target : string)
    (allFindings : list Finding) : AnalysisReport :=
  {| Target := target;
     GeneratedAt := now;
     Findings := sort_Slice (deduplicate allFindings);
     ReportSummary := buildSummary (sort_Slice (deduplicate allFindings)) |}.

(** Vocabulary for the integer-overflow scanner, on untrimmed lines. *)
Definition arithmeticLine (line : string) : bool :=
  IntegerOverflow.containsArithmetic (TrimSpace line).

Definition pragmaLine (line : string) : bool :=
  HasPrefix (TrimSpace line) "pragma solidity".

Definition uncheckedOpen (line : string) : bool :=
  String.eqb (TrimSpace line) "unchecked {" || String.eqb (TrimSpace line) "unchecked{".

Definition bareClose (line : string) : bool := String.eqb (TrimSpace line) "}".

(** A line that leaves every variable of the scanner but [lineNum] alone. *)
Definition inertLine (line : string) : bool :=
  negb (arithmeticLine line) && negb (pragmaLine line)
  && negb (uncheckedOpen line) && negb (bareClose line).

(** The contract of the unit test [TestCheckIntegerOverflow_NewSolidity_Unchecked]. *)
Definition uncheckedTest : list string :=
  [ "";
    "pragma solidity ^0.8.0;";
    "";
    "contract New {";
    "    function sub(uint256 a, uint256 b) public {";
    "        unchecked {";
    "            uint256 c = a - b;";
    "        }";
    "    }";
    "}" ].

(** Vocabulary for the reentrancy scanner, on untrimmed lines. *)
Definition declLine (line : string) : bool :=
  Reentrancy.isFunctionDecl (TrimSpace line).

Definition guardLine (line : string) : bool :=
  Reentrancy.isGuard (TrimSpace line).

Definition callSignal (line : string) : bool :=
  existsb (fun pattern => Contains (TrimSpace line) pattern
                          && negb (isComment (TrimSpace line)))
    Reentrancy.externalCallPatterns.

Definition mutationSignal (line : string) : bool :=
  existsb (fun pattern => Contains (TrimSpace line) pattern
                          && negb (isComment (TrimSpace line)))
    Reentrancy.stateChangePatterns.

(** The second entry of [Lines]: for a reentrancy finding, the line of the
    state change. *)
Definition mutationLineOf (f : Finding) : Z := nth 1 (Lines f) 0.

(** The findings of a file that are located at state-change line [j]. *)
Definition reentrancyAt (path : string) (lines : list string) (j : Z) : list Finding :=
  List.filter (fun f => mutationLineOf f =? j) (checkReentrancyInFile path lines).

(** One iteration of the reentrancy scanner in the vocabulary above;
    [ReentrancyFacts.step_stepSpec] shows it equal to [Reentrancy.step]. *)
Definition stepSpec (path : string) (st : Reentrancy.state) (line : string)
    : Reentrancy.state :=
  let n := Reentrancy.lineNum st + 1 in
  let decl := declLine line in
  let inF := if decl then true else Reentrancy.inFunction st in
  let saw0 := if decl then false else Reentrancy.sawExternalCall st in
  let g0 := if decl then false else Reentrancy.hasGuard st in
  let name :=
    if decl then extractFunctionName (TrimSpace line) else Reentrancy.functionName st in
  if negb inF then Reentrancy.mkState (Reentrancy.findings st) inF name saw0 (Reentrancy.callLine st) g0 n
  else
    let g := if guardLine line then true else g0 in
    let saw := if callSignal line then true else saw0 in
    let cl := if callSignal line then n else Reentrancy.callLine st in
    let found :=
      if saw && negb g && mutationSignal line
      then Reentrancy.findings st ++ [Reentrancy.newFinding path name n cl (Reentrancy.findings st)]
      else Reentrancy.findings st in
    if bareClose line
    then Reentrancy.mkState found false name false cl g n
    else Reentrancy.mkState found inF name saw cl g n.

(** A state in which no finding can be appended before the next function
    declaration: outside a function, or inside a guarded one. *)
Definition quiet (st : Reentrancy.state) : Prop :=
  Reentrancy.inFunction st = false \/ Reentrancy.hasGuard st = true.

(** Whether the iteration for [line], started in state [st], appends a
    finding; the function name and call line it then reports. *)
Definition emits (st : Reentrancy.state) (line : string) : bool :=
  let decl := declLine line in
  (decl || Reentrancy.inFunction st)
  && (callSignal line || (negb decl && Reentrancy.sawExternalCall st))
  && negb (guardLine line || (negb decl && Reentrancy.hasGuard st))
  && mutationSignal line.

Definition nameAfter (st : Reentrancy.state) (line : string) : string :=
  if declLine line then extractFunctionName (TrimSpace line)
  else Reentrancy.functionName st.

Definition callLineAfter (st : Reentrancy.state) (line : string) : Z :=
  if callSignal line then Reentrancy.lineNum st + 1 else Reentrancy.callLine st.

(** The number of the last line of [ls] with a call signal, the first line
    of [ls] being line [n + 1]; [acc] if there is none. *)
Fixpoint lastCallFrom (n acc : Z) (ls : list string) : Z :=
  match ls with
  | [] => acc
  | l :: rest => lastCallFrom (n + 1) (if callSignal l then n + 1 else acc) rest
  end.

(** The line at position [i] (counted from 0) of [ls] satisfies [P]. *)
Definition hasAt (P : string -> bool) (ls : list string) (i : nat) : Prop :=
  exists l, ls !! i = Some l /\ P l = true.

(** Positions [s..j] lie in one function as the scanner delimits it: [s]
    declares it, no later line up to [j] declares another, and no line
    before [j] is a bare closing brace. *)
Definition sameFunction (ls : list string) (s j : nat) : Prop :=
  (s <= j)%nat /\ hasAt declLine ls s
  /\ (forall k, (s < k <= j)%nat -> ~ hasAt declLine ls k)
  /\ (forall k, (s <= k < j)%nat -> ~ hasAt bareClose ls k).

(** The first sentence of the reentrancy rule as the specification states
    it: a call line [i] and a later state-change line [j] of the same
    function, no guard up to [j], give exactly one High finding with
    [Lines = [i; j]] (as line numbers, counted from 1). *)
Definition claimedPairing (path : string) (ls : list string) : Prop :=
  forall s i j,
    sameFunction ls s j -> (s <= i < j)%nat ->
    hasAt callSignal ls i ->
    (forall k, (s <= k <= j)%nat -> ~ hasAt guardLine ls k) ->
    hasAt mutationSignal ls j ->
    exists f,
      reentrancyAt path ls (Z.of_nat j + 1) = [f]
      /\ Sev f = SeverityHigh
      /\ Lines f = [Z.of_nat i + 1; Z.of_nat j + 1].

(** Its second sentence: a guard line [g] before a state-change line [j] of
    the same function leaves the function without findings. *)
Definition claimedSuppression (path : string) (ls : list string) : Prop :=
  forall s g j,
    sameFunction ls s j -> (s <= g < j)%nat ->
    hasAt guardLine ls g ->
    hasAt mutationSignal ls j ->
    forall k, (s <= k <= j)%nat -> reentrancyAt path ls (Z.of_nat k + 1) = [].

(** A function with two call lines, a state change, then a guard token in a
    comment and another state change. *)
Definition twoCallsThenGuard : list string :=
  [ "function withdraw() public {";
    "    first.call(a);";
    "    second.send(b);";
    "    balances[msg.sender] = 0;";
    "    // nonReentrant";
    "    total -= 1;";
    "}" ].

(** The contract of the unit test [TestCheckReentrancy] (the call passes
    [data] where the test passes an empty string literal). *)
Definition reentrancyTest : list string :=
  [ "";
    "package main";
    "";
    "contract Vulnerable {";
    "    mapping(address => uint256) public balances;";
    "";
    "    function withdraw() public {";
    "        uint256 amount = balances[msg.sender];";
    "        require(amount > 0);";
    "";
    "        (bool success, ) = msg.sender.call{value: amount}(data);";
    "        require(success);";
    "";
    "        balances[msg.sender] = 0;";
    "    }";
    "}" ].

(** A guard token that appears only in a comment. *)
Definition guardInComment : list string :=
  [ "function withdraw() public {";
    "    // add nonReentrant later";
    "    msg.sender.call{value: amount}(data);";
    "    balances[msg.sender] = 0;";
    "}" ].

(** Declarations of sensitive functions, none of them guarded. *)
Definition mintLine : string := "    function mint(address to, uint256 amount) public {".
Definition mintTokensLine : string := "    function mintTokens(address to, uint256 amount) public {".
Definition setOwnerLine : string := "    function setOwner(address newOwner) public {".

(** A contract without a pragma line. *)
Definition noPragma : list string :=
  [ "contract Counter {";
    "    function add(uint256 a, uint256 b) public {";
    "        uint256 c = a + b;";
    "    }";
    "}" ].

(** A byte of the range ['A'..'Z']. *)
Definition isUpper (c : ascii) : bool :=
  ((nat_of_ascii "A" <=? nat_of_ascii c) && (nat_of_ascii c <=? nat_of_ascii "Z"))%nat.

Fixpoint allBytes (P : ascii -> bool) (s : string) : bool :=
  match s with
  | "" => true
  | String c s' => P c && allBytes P s'
  end.

(** A string of ASCII bytes: every byte is below 128.  On these strings
    [ToLower] is Go's [strings.ToLower]. *)
Definition isASCII (s : string) : bool :=
  allBytes (fun c => (nat_of_ascii c <? 128)%nat) s.

(** The findings of the pre-0.8 rule for lines numbered from [n + 1], in a
    file without pragma line: one per arithmetic line that neither mentions
    SafeMath nor is a comment. *)
Definition flaggedBelowThreshold (line : string) : bool :=
  arithmeticLine line && negb (Contains (TrimSpace line) "SafeMath")
  && negb (isComment (TrimSpace line)).

Fixpoint flaggedLinesFrom (n : Z) (ls : list string) : list Z :=
  match ls with
  | [] => []
  | l :: rest =>
      (if flaggedBelowThreshold l then [n + 1] else [])
      ++ flaggedLinesFrom (n + 1) rest
  end.

(** ** More of the program: the Slither parser, verdicts, the CI exit
    code, and the reporters *)

Module GoStringsMore.

(** [strings.ReplaceAll(s, old, new)] for a one-byte [old]. *)
Fixpoint ReplaceAllByte (s : string) (old : ascii) (new : string) : string :=
  match s with
  | "" => ""
  | String c s' =>
      if Ascii.eqb c old then new +:+ ReplaceAllByte s' old new
      else String c (ReplaceAllByte s' old new)
  end.

(** [strings.ToUpper] of a one-byte string: an ASCII letter is upper-cased;
    a byte from 128 on is no valid UTF-8 by itself and comes out as the
    three bytes of U+FFFD. *)
Definition ToUpperByte (c : ascii) : string :=
  let n := nat_of_ascii c in
  if (128 <=? n)%nat then bytes [239; 191; 189]%nat
  else if ((97 <=? n) && (n <=? 122))%nat
       then String (ascii_of_nat (n - 32)) ""
       else String c "".

(** [strings.Join(parts, sep)] *)
Definition Join (parts : list string) (sep : string) : string :=
  String.concat sep parts.

(** [fmt.Sprintf("%03d", n)]: at least three characters, the sign first,
    then zeros, then the digits. *)
Definition padZeros (width : nat) (digits : string) : string :=
  String.concat "" (replicate (width - String.length digits) "0") +:+ digits.

Definition d03 (n : Z) : string :=
  if n <? 0 then "-" +:+ padZeros 2 (pretty (- n)) else padZeros 3 (pretty n).

End GoStringsMore.

(** The structures [json.Unmarshal] fills from Slither's output; the
    fields of [SlitherDetector] and [DetectorElement] that [ParseBytes]
    does not read are left out. *)
Module Slither.

Record SourceMapping := mkSourceMapping {
  Filename : string;
  MappedLines : list Z
}.

Record DetectorElement := mkElement {
  ElementType : string;
  ElementName : string;
  Mapping : SourceMapping
}.

Record Detector := mkDetector {
  DCheck : string;
  Impact : string;
  DConfidence : string;
  DDescription : string;
  Elements : list DetectorElement
}.

Record Output := mkOutput {
  Success : bool;
  Error : option string;
  Detectors : list Detector
}.

End Slither.

Module Parser.
Import GoStringsMore.

(** [remediations], as the list of its entries and as the map. *)
Definition remediationEntries : list (string * string) :=
    [ ("reentrancy-eth", "Apply the checks-effects-interactions pattern. Move all state changes before external calls. Consider using ReentrancyGuard from OpenZeppelin.");
      ("reentrancy-no-eth", "Apply the checks-effects-interactions pattern. Move all state changes before external calls.");
      ("reentrancy-benign", "Although impact is low, apply checks-effects-interactions pattern as defence in depth.");
      ("reentrancy-unlimited-gas", "Apply the checks-effects-interactions pattern and use ReentrancyGuard.");
      ("unprotected-upgrade", "Add access control to upgrade functions. Use OpenZeppelin's OwnableUpgradeable.");
      ("controlled-delegatecall", "Avoid passing user-controlled data to delegatecall. Whitelist allowed targets.");
      ("arbitrary-send-eth", "Restrict which addresses can receive ETH. Use a withdrawal pattern with explicit recipient validation.");
      ("suicidal", "Remove selfdestruct or gate it behind a multi-sig with a timelock.");
      ("backdoor", "Remove any functions that allow unauthorized state manipulation.");
      ("tx-origin", "Replace tx.origin with msg.sender for authentication. tx.origin is vulnerable to phishing attacks.");
      ("weak-prng", "Do not use block.timestamp or blockhash for randomness. Use Chainlink VRF or commit-reveal schemes.");
      ("timestamp", "Avoid using block.timestamp for critical logic. Miners can manipulate it by ~15 seconds.");
      ("unchecked-transfer", "Always check the return value of ERC-20 transfer() and transferFrom(). Use SafeERC20 from OpenZeppelin.");
      ("uninitialized-local", "Initialize all local variables before use. Uninitialized storage pointers in older Solidity versions can corrupt state.");
      ("shadowing-state", "Rename the local variable to avoid shadowing the state variable. This causes silent bugs.");
      ("abiencoderv2-array", "Upgrade to Solidity 0.8.x where ABIEncoderV2 is stable, or avoid nested dynamic arrays.");
      ("msg-value-loop", "Do not use msg.value inside a loop — it does not change per iteration and causes logic errors.");
      ("divide-before-multiply", "Perform multiplications before divisions to avoid precision loss due to integer truncation.");
      ("tautology", "Remove the tautological condition — it always evaluates to true/false and may hide a logic error.");
      ("boolean-equality", "Compare bool directly (if flag) instead of (if flag == true). The latter is redundant and reduces readability.") ].

Definition remediations : gmap string string := list_to_map remediationEntries.

(** [swcRefs], as the list of its entries and as the map. *)
Definition swcRefEntries : list (string * string) :=
  [ ("reentrancy-eth", "SWC-107");
    ("reentrancy-no-eth", "SWC-107");
    ("reentrancy-benign", "SWC-107");
    ("tx-origin", "SWC-115");
    ("weak-prng", "SWC-120");
    ("timestamp", "SWC-116");
    ("unprotected-upgrade", "SWC-112");
    ("arbitrary-send-eth", "SWC-105");
    ("suicidal", "SWC-106");
    ("unchecked-transfer", "SWC-104");
    ("divide-before-multiply", "SWC-101") ].

Definition swcRefs : gmap string string := list_to_map swcRefEntries.

(** [mapImpact] *)
Definition mapImpact (impact : string) : Severity :=
  let lower := ToLower impact in
  if String.eqb lower "critical" then SeverityCritical
  else if String.eqb lower "high" then SeverityHigh
  else if String.eqb lower "medium" then SeverityMedium
  else if String.eqb lower "low" then SeverityLow
  else if String.eqb lower "informational" then SeverityInformational
  else if String.eqb lower "optimization" then SeverityOptimization
  else SeverityInformational.

(** [strings.ToUpper(p[:1]) + p[1:]]; [strings.Fields] yields no empty
    part, so the slices are in range. *)
Definition upperFirst (p : string) : string :=
  match p with
  | "" => ""
  | String c rest => ToUpperByte c +:+ rest
  end.

(** [formatTitle] *)
Definition formatTitle (check : string) : string :=
  let check := ReplaceAllByte check "-" " " in
  let parts := Fields check in
  Join (map upperFirst parts) " ".

(** [remediationFor] *)
Definition remediationFor (check : string) : string :=
  match remediations !! check with
  | Some r => r
  | None => "Review the Slither documentation for this detector and apply the recommended fix."
  end.

(** [referencesFor] *)
Definition referencesFor (check : string) : list string :=
  let refs := ["https://github.com/crytic/slither/wiki/Detector-Documentation#" +:+ check] in
  match swcRefs !! check with
  | Some swc => refs ++ ["https://swcregistry.io/docs/" +:+ swc]
  | None => refs
  end.

(** The body of [for i, d := range output.Results.Detectors]; [i] counts
    from 0. *)
Definition findingOf (i : Z) (d : Slither.Detector) : Finding :=
  let '(file, lines) :=
    match Slither.Elements d with
    | el :: _ => (Slither.Filename (Slither.Mapping el),
                  Slither.MappedLines (Slither.Mapping el))
    | [] => ("", [])
    end in
  {| ID := "SLITHER-" +:+ d03 (i + 1);
     Source := "slither";
     Check := Slither.DCheck d;
     Title := formatTitle (Slither.DCheck d);
     Description := TrimSpace (Slither.DDescription d);
     Sev := mapImpact (Slither.Impact d);
     Confidence := Slither.DConfidence d;
     File := file;
     Lines := lines;
     Remediation := remediationFor (Slither.DCheck d);
     SWCRef := default "" (swcRefs !! Slither.DCheck d);
     References := referencesFor (Slither.DCheck d) |}.

Fixpoint findingsFrom (i : Z) (ds : list Slither.Detector) : list Finding :=
  match ds with
  | [] => []
  | d :: rest => findingOf i d :: findingsFrom (i + 1) rest
  end.

(** [ParseBytes], given what [json.Unmarshal] made of the bytes ([None]:
    it failed). *)
Definition ParseBytes (decoded : option Slither.Output) : Result (list Finding) :=
  match decoded with
  | None => Err "parsing slither JSON"
  | Some output =>
      if negb (Slither.Success output)
      then Err ("slither analysis failed: "
                +:+ match Slither.Error output with
                    | Some e => e
                    | None => "unknown error"
                    end)
      else Ok (findingsFrom 0 (Slither.Detectors output))
  end.

End Parser.

(** [scorer.Verdict] *)
Definition Verdict (score : Z) : string :=
  let g := Grade score in
  if String.eqb g "A" then "✅ Low risk. Review findings before deployment."
  else if String.eqb g "B" then "⚠️  Minor issues found. Address before mainnet deployment."
  else if String.eqb g "C" then "🟠 Moderate risk. Fix all Medium+ findings before deployment."
  else if String.eqb g "D" then "🔴 High risk. Do not deploy until Critical/High findings are resolved."
  else "🚨 Critical risk. This contract must not be deployed.".

Module Cmd.
Import GoStringsMore.

(** [capitalize] *)
Definition capitalize (s : string) : string :=
  match s with
  | "" => ""
  | String c rest => ToUpperByte c +:+ ToLower rest
  end.

(** [countAtOrAbove] *)
Definition countAtOrAbove (findings : list Finding) (threshold : Severity) : Z :=
  fold_left
    (fun count f =>
       if SeverityRank (Sev f) <=? SeverityRank threshold then count + 1 else count)
    findings 0.

(** Step 8 of [runAnalyze]: whether the command ends in [os.Exit(1)]. *)
Definition exitsWithFailure (failOn : string) (report : AnalysisReport) : bool :=
  if negb (String.eqb failOn "none")
  then
    let failSeverity := capitalize failOn in
    existsb (fun f => SeverityRank (Sev f) <=? SeverityRank failSeverity)
            (Findings report)
  else false.

End Cmd.

Module Sarif.

(** [sarifRule] and [sarifResult], the nested one-field structures
    flattened. *)
Record Rule := mkRule {
  RuleID : string;
  RuleName : string;
  ShortDescription : string;
  HelpURI : string
}.

Record SarifResult := mkResult {
  ResultRuleID : string;
  Level : string;
  MessageText : string;
  URI : string;
  StartLine : Z
}.

(** [severityToSARIFLevel] *)
Definition severityToSARIFLevel (s : Severity) : string :=
  if String.eqb s SeverityCritical || String.eqb s SeverityHigh then "error"
  else if String.eqb s SeverityMedium then "warning"
  else "note".

(** The first loop of [Write]: [ruleMap], filled by the first finding of
    each check. *)
Definition addRule (ruleMap : gmap string Rule) (f : Finding) : gmap string Rule :=
  match ruleMap !! Check f with
  | Some _ => ruleMap
  | None =>
      <[Check f :=
          {| RuleID := Check f;
             RuleName := Title f;
             ShortDescription := Title f;
             HelpURI := match References f with
                        | r :: _ => r
                        | [] => ""
                        end |}]> ruleMap
  end.

Definition ruleMapOf (report : AnalysisReport) : gmap string Rule :=
  fold_left addRule (Findings report) ∅.

(** The second loop of [Write]. *)
Definition resultOf (f : Finding) : SarifResult :=
  {| ResultRuleID := Check f;
     Level := severityToSARIFLevel (Sev f);
     MessageText := Description f +:+ bytes [10; 10]%nat +:+ "Remediation: "
                    +:+ Remediation f;
     URI := File f;
     StartLine := match Lines f with
                  | l :: _ => l
                  | [] => 1
                  end |}.

Definition resultsOf (report : AnalysisReport) : list SarifResult :=
  map resultOf (Findings report).

End Sarif.

Module Html.

(** The template functions [severityClass], [gradeClass] and [join]. *)
Definition severityClass (s : Severity) : string :=
  if String.eqb s SeverityCritical then "critical"
  else if String.eqb s SeverityHigh then "high"
  else if String.eqb s SeverityMedium then "medium"
  else if String.eqb s SeverityLow then "low"
  else "info".

Definition gradeClass (g : string) : string :=
  if String.eqb g "A" then "grade-a"
  else if String.eqb g "B" then "grade-b"
  else if String.eqb g "C" then "grade-c"
  else if String.eqb g "D" || String.eqb g "F" then "grade-f"
  else "".

Definition join (lines : list Z) : string :=
  fst (fold_left
         (fun '(result, i) l =>
            ((if (0 <? i) then result +:+ ", " else result) +:+ GoFmt.d l, i + 1))
         lines ("", 0)).

End Html.

(** The place of a grade in the scale A, B, C, D, F. *)
Definition gradeRank (g : string) : Z :=
  if String.eqb g "A" then 0
  else if String.eqb g "B" then 1
  else if String.eqb g "C" then 2
  else if String.eqb g "D" then 3
  else 4.

(** The largest number of findings whose score cannot leave the range of
    a Go [int], whatever their severities: forty times it is at most
    [GoInt.MaxInt]. *)
Definition maxScoredFindings : Z := 230584300921369395.

(** The number of findings of [fs] whose severity is exactly [sev]. *)
Definition countSev (sev : Severity) (fs : list Finding) : Z :=
  Z.of_nat (length (List.filter (fun f => String.eqb (Sev f) sev) fs)).

(** What the sort of [Analyze] compares: severity rank and file. *)
Definition sortKey (f : Finding) : Z * string := (SeverityRank (Sev f), File f).

Definition sortKeyLe (a b : Z * string) : Prop :=
  fst a < fst b \/ (fst a = fst b /\ String.leb (snd a) (snd b) = true).

(** What a check function returned: its findings, and whether it failed. *)
Definition okFindings (r : Result (list Finding)) : list Finding :=
  match r with Ok l => l | Err _ => [] end.

Definition failed {A : Type} (r : Result A) : bool :=
  match r with Err _ => true | Ok _ => false end.

(** A path that [os.Open] and the scanner read to the end, and its lines. *)
Definition readable (fs : FileSystem) (path : string) : bool :=
  match fs path with RegularFile (Some (Ok _)) => true | _ => false end.

Definition linesOf (fs : FileSystem) (path : string) : list string :=
  match fs path with RegularFile (Some (Ok ls)) => ls | _ => [] end.

(** The error that [check...InFile] returns for a path, if any. *)
Definition scanError (fs : FileSystem) (path : string) : string :=
  match openAndScan fs path with Err e => e | Ok _ => "" end.

(** A directory with a Solidity file that cannot be read beside a text
    file, and one with two Solidity files. *)
Definition mixedFS : FileSystem :=
  fun p =>
    if String.eqb p "src" then Directory (Some ["src/a.sol"; "src/notes.txt"; "src/b.sol"])
    else if String.eqb p "src/a.sol" then RegularFile (Some (Ok noPragma))
    else if String.eqb p "src/b.sol" then RegularFile (Some (Ok reentrancyTest))
    else if String.eqb p "src/notes.txt" then RegularFile None
    else NotExist.

(** The findings a summary counts at severity rank [rank] or above (a
    lower rank is more severe). *)
Definition countedUpTo (rank : Z) (s : Summary) : Z :=
  (if 0 <=? rank then Critical s else 0)
  + (if 1 <=? rank then High s else 0)
  + (if 2 <=? rank then Medium s else 0)
  + (if 3 <=? rank then Low s else 0)
  + (if 4 <=? rank then Informational s else 0)
  + (if 5 <=? rank then Optimization s else 0).

(** The rule [SARIFReporter.Write] makes from a finding. *)
Definition sarifRuleOf (f : Finding) : Sarif.Rule :=
  {| Sarif.RuleID := Check f;
     Sarif.RuleName := Title f;
     Sarif.ShortDescription := Title f;
     Sarif.HelpURI := match References f with r :: _ => r | [] => "" end |}.

(** The first entry of [Lines], which [deduplicate] puts into the key. *)
Definition firstLine (f : Finding) : Z := List.hd 0 (Lines f).

(** The identifiers a scanner gives to the findings of one file: a prefix
    and the position in the file's findings, counted from 1. *)
Definition numberedIDs (prefix : string) (count : nat) : list string :=
  map (fun k => prefix +:+ GoFmt.d (Z.of_nat k + 1)) (seq 0 count).

(** What every finding of the reentrancy scanner looks like, in a file of
    [n] lines. *)
Definition reentrancyShaped (path : string) (n : Z) (f : Finding) : Prop :=
  Source f = "custom" /\ Check f = "custom-reentrancy-ordering"
  /\ Sev f = SeverityHigh /\ Confidence f = "Medium"
  /\ File f = path /\ SWCRef f = "SWC-107"
  /\ exists call change, Lines f = [call; change] /\ 1 <= call <= change /\ change <= n.

(** One call followed by two state changes. *)
Definition twoStateChanges : list string :=
  [ "function withdraw() public {";
    "    msg.sender.call{value: amount}(data);";
    "    balances[msg.sender] = 0;";
    "    total -= amount;";
    "}" ].

(** The lines the access-control scanner looks at: no comment, and the
    text ["function "] somewhere. *)
Definition accessCandidate (trimmed : string) : bool :=
  negb (HasPrefix trimmed "//" || HasPrefix trimmed "*")
  && Contains trimmed "function ".

(** Whether the scanner flags a trimmed line for a keyword. *)
Definition accessFlagged (trimmed keyword : string) : bool :=
  AccessControl.containsFunctionNamed trimmed keyword
  && negb (AccessControl.hasAccessModifier trimmed)
  && negb (Contains trimmed " internal " || Contains trimmed " private ").

(** The lines, severity and title of the findings a catalog gives for the
    lines [ls], the first of which is line [n + 1]: for each candidate line
    one finding per catalog entry that flags it, in the catalog's order. *)
Fixpoint accessFlags (catalog : list (string * Severity * string)) (n : Z)
    (ls : list string) : list (list Z * Severity * string) :=
  match ls with
  | [] => []
  | l :: rest =>
      (if accessCandidate (TrimSpace l)
       then map (fun sp : string * Severity * string =>
                   ([n + 1], snd (fst sp),
                    "Missing Access Control on "
                    +:+ extractFunctionName (TrimSpace l) +:+ "()"))
              (List.filter (fun sp : string * Severity * string =>
                              accessFlagged (TrimSpace l) (fst (fst sp)))
                 catalog)
       else [])
      ++ accessFlags catalog (n + 1) rest
  end.

(** The catalog entries whose keyword has no capital letter. *)
Definition lowerCaseCatalog : list (string * Severity * string) :=
  List.filter (fun sp : string * Severity * string =>
                 allBytes (fun c => negb (isUpper c)) (fst (fst sp)))
    AccessControl.sensitivePatterns.

(** Lines, severity and title of a finding. *)
Definition accessView (f : Finding) : list Z * Severity * string :=
  (Lines f, Sev f, Title f).

(** A byte that ends the function name for [extractFunctionName]. *)
Definition endsName (c : ascii) : bool := containsByte "( " c.

(** The last entry of [Lines]: for the scanners' findings, the line at
    which the finding was made. *)
Definition reportedLine (f : Finding) : Z := List.last (Lines f) 0.

(** What every finding of the integer-overflow scanner looks like, in a
    file of [n] lines. *)
Definition overflowShaped (path : string) (n : Z) (f : Finding) : Prop :=
  Source f = "custom" /\ File f = path /\ SWCRef f = "SWC-101"
  /\ ((Check f = "custom-integer-overflow" /\ Sev f = SeverityHigh
       /\ exists k, Lines f = [k] /\ 1 <= k <= n)
      \/ (Check f = "custom-unchecked-arithmetic" /\ Sev f = SeverityLow
          /\ exists u k, Lines f = [u; k] /\ 1 <= u < k /\ k <= n)).

(** The identifier prefix of a finding of the integer-overflow scanner. *)
Definition overflowPrefix (f : Finding) : string :=
  if String.eqb (Check f) "custom-integer-overflow"
  then "CUSTOM-OVERFLOW-" else "CUSTOM-UNCHECKED-".

(** What one iteration of the integer-overflow scanner appends to the
    findings, and the state it leaves, in the vocabulary of the
    properties; [OverflowSteps.step_overflowStep] shows it equal to
    [IntegerOverflow.step]. *)
Definition overflowStep (path : string) (st : IntegerOverflow.state) (line : string)
    : IntegerOverflow.state :=
  let n := IntegerOverflow.lineNum st + 1 in
  let version :=
    if pragmaLine line then IntegerOverflow.extractSolidityVersion (TrimSpace line)
    else (IntegerOverflow.solidityMajor st, IntegerOverflow.solidityMinor st) in
  let b := (uncheckedOpen line || IntegerOverflow.inUnchecked st) && negb (bareClose line) in
  let u := if uncheckedOpen line then n else IntegerOverflow.uncheckedLine st in
  let found := IntegerOverflow.findings st in
  let new :=
    if (fst version =? 0) && (snd version <? 8)
    then if flaggedBelowThreshold line
         then [IntegerOverflow.overflowFinding path n (fst version) (snd version) found]
         else []
    else if (fst version =? 0) && b && arithmeticLine line
            && negb (isComment (TrimSpace line))
         then [IntegerOverflow.uncheckedFinding path n u found]
         else [] in
  IntegerOverflow.mkState (found ++ new) n (fst version) (snd version) b u.

(** An unchecked block that holds a nested block. *)
Definition nestedUnchecked : list string :=
  [ "pragma solidity ^0.8.20;";
    "contract C {";
    "    function f(uint256 a, uint256 b) public {";
    "        unchecked {";
    "            if (a > b) {";
    "                c = a - b;";
    "            }";
    "            d = a - b;";
    "        }";
    "    }";
    "}" ].

(** Findings that agree in cross-reference and file and have a line. *)
Definition uniformFindings (swc path : string) (fs : list Finding) : Prop :=
  Forall (fun f => SWCRef f = swc /\ File f = path /\ Lines f <> []) fs.

(** A byte that ends the extension for [filepath.Ext]. *)
Definition dotOrSlash (c : ascii) : bool := Ascii.eqb c "." || Ascii.eqb c "/".

(** ** Go's [sort.Slice] *)

(** The routine behind [sort.Slice] since Go 1.19 (package [sort], file
    [zsortfunc.go], a pattern-defeating quicksort), as far as it runs on
    a slice of fewer than 50 elements whose partitions stay balanced: the
    insertion sort of a range of at most 12 elements, the pivot chosen as
    a median of three, the test for a range that is sorted already, and
    the partition.  The branches left out (heap sort, [breakPatterns],
    the ninther, [reverseRange], [partitionEqual] and the shifting of
    [partialInsertionSort]) yield [None], as does a lack of fuel. *)
Module GoSort.
Section Slice.
Context {A : Type} (less : A -> A -> bool).
Local Open Scope nat_scope.

(** [data.Less(i, j)] and [data.Swap(i, j)] of [lessSwap]; the routine
    passes indices within the slice only. *)
Definition Less (data : list A) (i j : nat) : bool :=
  match data !! i, data !! j with
  | Some x, Some y => less x y
  | _, _ => false
  end.

Definition Swap (data : list A) (i j : nat) : list A :=
  match data !! i, data !! j with
  | Some x, Some y => <[i := y]> (<[j := x]> data)
  | _, _ => data
  end.

(** [for j := i; j > a && data.Less(j, j-1); j-- { data.Swap(j, j-1) }] *)
Fixpoint sink (a j : nat) (data : list A) : list A :=
  match j with
  | 0 => data
  | S j' =>
      if (a <? j) && Less data j j' then sink a j' (Swap data j j') else data
  end.

(** [insertionSort_func]: [for i := a + 1; i < b; i++] *)
Definition insertionSort (data : list A) (a b : nat) : list A :=
  fold_left (fun data i => sink a i data) (seq (a + 1) (b - (a + 1))) data.

Inductive sortedHint := unknownHint | increasingHint | decreasingHint.

(** [order2_func] and [median_func], the counter [*swaps] passed along. *)
Definition order2 (data : list A) (a b swaps : nat) : nat * nat * nat :=
  if Less data b a then (b, a, S swaps) else (a, b, swaps).

Definition median (data : list A) (a b c swaps : nat) : nat * nat :=
  let '(a, b, swaps) := order2 data a b swaps in
  let '(b, c, swaps) := order2 data b c swaps in
  let '(a, b, swaps) := order2 data a b swaps in
  (b, swaps).

(** [choosePivot_func] on a range of fewer than 50 elements. *)
Definition choosePivot (data : list A) (a b : nat) : option (nat * sortedHint) :=
  let l := b - a in
  let i := a + l / 4 * 1 in
  let j := a + l / 4 * 2 in
  let k := a + l / 4 * 3 in
  if 50 <=? l then None
  else
    let '(j, swaps) := if 8 <=? l then median data i j k 0 else (j, 0) in
    Some (j, match swaps with
             | 0 => increasingHint
             | 12 => decreasingHint
             | _ => unknownHint
             end).

(** [for i < b && !data.Less(i, i-1) { i++ }] *)
Fixpoint ascendingRun (fuel : nat) (data : list A) (i b : nat) : nat :=
  match fuel with
  | 0 => i
  | S fuel =>
      if (i <? b) && negb (Less data i (i - 1))
      then ascendingRun fuel data (S i) b
      else i
  end.

(** [partialInsertionSort_func], up to its first [return]: [true] when
    the range is sorted, [false] when it is not and has fewer than 50
    elements. *)
Definition partialInsertionSort (data : list A) (a b : nat) : option bool :=
  let i := ascendingRun (b - a) data (a + 1) b in
  if i =? b then Some true
  else if b - a <? 50 then Some false
  else None.

(** [for i <= j && data.Less(i, a) { i++ }] and
    [for i <= j && !data.Less(j, a) { j-- }] *)
Fixpoint scanUp (fuel : nat) (data : list A) (a i j : nat) : nat :=
  match fuel with
  | 0 => i
  | S fuel =>
      if (i <=? j) && Less data i a then scanUp fuel data a (S i) j else i
  end.

Fixpoint scanDown (fuel : nat) (data : list A) (a i j : nat) : nat :=
  match fuel with
  | 0 => j
  | S fuel =>
      if (i <=? j) && negb (Less data j a) then scanDown fuel data a i (j - 1) else j
  end.

(** The [for] loop of [partition_func]: the slice and [j] at the [break]. *)
Fixpoint partitionLoop (fuel : nat) (data : list A) (a i j : nat)
    : option (list A * nat) :=
  match fuel with
  | 0 => None
  | S fuel =>
      let i := scanUp (S j - i) data a i j in
      let j := scanDown (S j - i) data a i j in
      if j <? i then Some (data, j)
      else partitionLoop fuel (Swap data i j) a (S i) (j - 1)
  end.

(** [partition_func]: the slice, [newpivot] and [alreadyPartitioned]. *)
Definition partition (data : list A) (a b pivot : nat)
    : option (list A * nat * bool) :=
  let data := Swap data a pivot in
  let i := a + 1 in
  let j := b - 1 in
  let i := scanUp (S j - i) data a i j in
  let j := scanDown (S j - i) data a i j in
  if j <? i then Some (Swap data j a, j, true)
  else
    match partitionLoop (b - a) (Swap data i j) a (S i) (j - 1) with
    | Some (data, j) => Some (Swap data j a, j, false)
    | None => None
    end.

(** [pdqsort_func]; a turn of its [for] loop is a call with the values of
    [a], [b], [wasBalanced] and [wasPartitioned] at that turn. *)
Fixpoint pdqsort (fuel : nat) (data : list A) (a b limit : nat)
    (wasBalanced wasPartitioned : bool) : option (list A) :=
  match fuel with
  | 0 => None
  | S fuel =>
      let length := b - a in
      if length <=? 12 then Some (insertionSort data a b)
      else if limit =? 0 then None
      else if negb wasBalanced then None
      else
        match choosePivot data a b with
        | None | Some (_, decreasingHint) => None
        | Some (pivot, hint) =>
            let sorted :=
              if wasBalanced && wasPartitioned
                 && match hint with increasingHint => true | _ => false end
              then partialInsertionSort data a b
              else Some false in
            match sorted with
            | None => None
            | Some true => Some data
            | Some false =>
                if (0 <? a) && negb (Less data (a - 1) pivot) then None
                else
                  match partition data a b pivot with
                  | None => None
                  | Some (data, mid, alreadyPartitioned) =>
                      let leftLen := mid - a in
                      let rightLen := b - mid in
                      let balanceThreshold := length / 8 in
                      if leftLen <? rightLen
                      then
                        match pdqsort fuel data a mid limit true true with
                        | None => None
                        | Some data =>
                            pdqsort fuel data (mid + 1) b limit
                              (balanceThreshold <=? leftLen) alreadyPartitioned
                        end
                      else
                        match pdqsort fuel data (mid + 1) b limit true true with
                        | None => None
                        | Some data =>
                            pdqsort fuel data a mid limit
                              (balanceThreshold <=? rightLen) alreadyPartitioned
                        end
                  end
            end
        end
  end.

(** [bits.Len(uint(n))] *)
Definition bitsLen (n : nat) : nat := if n =? 0 then 0 else S (Nat.log2 n).

(** [sort.Slice(x, less)] *)
Definition Slice (x : list A) : option (list A) :=
  let length := length x in
  let limit := bitsLen length in
  pdqsort (S length) x 0 length limit true true.

End Slice.
End GoSort.

(** [sort.Slice(allFindings, less)] of [Analyze] where [GoSort] covers
    the run. *)
Definition goSortSlice : Sorter :=
  fun findings => default findings (GoSort.Slice lessFinding findings).

(** Thirteen findings in one file as Slither may report them: twelve of
    severity High, at lines 1 to 12, then one of severity Critical. *)
Definition highAt (k : Z) : Finding :=
  plainFinding ("SLITHER-" +:+ GoStringsMore.d03 k) "High" "a.sol" [k] "SWC-107".

Definition criticalLast : Finding :=
  plainFinding "SLITHER-013" "Critical" "a.sol" [13] "SWC-107".

Definition thirteenFindings : list Finding :=
  map highAt [1; 2; 3; 4; 5; 6; 7; 8; 9; 10; 11; 12] ++ [criticalLast].

(** A file system in which every path is an empty file. *)
Definition emptyFiles : FileSystem := fun _ => RegularFile (Some (Ok [])).

(** An unchecked block with a nested block before its arithmetic line, and
    one whose opening line ends in a comment. *)
Definition uncheckedAfterNestedBlock : list string :=
  [ "";
    "pragma solidity ^0.8.0;";
    "";
    "contract New {";
    "    function sub(uint256 a, uint256 b) public {";
    "        unchecked {";
    "            if (a < b) {";
    "                return;";
    "            }";
    "            uint256 c = a - b;";
    "        }";
    "    }";
    "}" ].

Definition uncheckedWithComment : list string :=
  [ "";
    "pragma solidity ^0.8.0;";
    "";
    "contract New {";
    "    function sub(uint256 a, uint256 b) public {";
    "        unchecked { // cannot underflow";
    "            uint256 c = a - b;";
    "        }";
    "    }";
    "}" ].

(** A guarded function with a comment that mentions another function. *)
Definition guardThenComment : list string :=
  [ "function withdraw() public nonReentrant {";
    "    // see function helper() below";
    "    msg.sender.call{value: amount}(data);";
    "    balances[msg.sender] = 0;";
    "}" ].

(** * Properties *)

(** ** Summary *)

Lemma isEnumerated_rank s : isEnumerated s = (SeverityRank s <? 6).
Proof.
  unfold isEnumerated, SeverityRank; simpl.
  repeat (destruct (String.eqb s _); [reflexivity|]).
  reflexivity.
Qed.

Lemma countFinding_Total s f : Total (countFinding s f) = Total s.
Proof.
  unfold countFinding.
  repeat (destruct (String.eqb _ _); [reflexivity|]).
  reflexivity.
Qed.

Lemma countFinding_sum s f :
  sumCounts (countFinding s f)
  = sumCounts s + (if isEnumerated (Sev f) then 1 else 0).
Proof.
  unfold countFinding, isEnumerated, sumCounts; simpl.
  repeat (destruct (String.eqb (Sev f) _); [simpl; lia|]).
  simpl; lia.
Qed.

Lemma fold_countFinding fs : forall s,
  Total (fold_left countFinding fs s) = Total s
  /\ sumCounts (fold_left countFinding fs s)
     = sumCounts s
       + Z.of_nat (length (List.filter (fun f => isEnumerated (Sev f)) fs)).
Proof.
  induction fs as [|f fs IH]; intros s; simpl.
  - split; [reflexivity | lia].
  - destruct (IH (countFinding s f)) as [HT HS].
    rewrite HT, HS, countFinding_Total, countFinding_sum.
    split; [reflexivity|].
    unfold filter; simpl.
    destruct (isEnumerated (Sev f)); simpl;
      fold (List.filter (fun f => isEnumerated (Sev f)) fs); simpl; lia.
Qed.

Lemma filter_split_length {A} (p : A -> bool) (l : list A) :
  (length l = length (List.filter p l) + length (List.filter (fun x => negb (p x)) l))%nat.
Proof.
  induction l as [|x l IH]; [reflexivity|].
  cbn. destruct (p x); cbn; rewrite IH; lia.
Qed.

(** C2, as the code has it: [Total] is [len(findings)], and a finding whose
    severity is none of the six values is counted in no bucket.  So the
    total is the sum of the six counts plus the number of such findings,
    and equals the sum exactly when every severity is one of the six. *)
Theorem buildSummary_total (fs : list Finding) :
  Total (buildSummary fs)
  = sumCounts (buildSummary fs)
    + Z.of_nat (length (List.filter (fun f => negb (isEnumerated (Sev f))) fs))
  /\ (Total (buildSummary fs) = sumCounts (buildSummary fs)
      <-> Forall (fun f => isEnumerated (Sev f) = true) fs).
Proof.
  unfold buildSummary.
  destruct (fold_countFinding fs (mkSummary (lenF fs) 0 0 0 0 0 0)) as [HT HS].
  rewrite HT, HS. unfold sumCounts, lenF; simpl.
  pose proof (filter_split_length (fun f => isEnumerated (Sev f)) fs) as Hlen.
  cbv beta in Hlen.
  split; [lia|].
  split.
  - intros Heq.
    assert (Hz : length (List.filter (fun f => negb (isEnumerated (Sev f))) fs) = 0%nat) by lia.
    apply Forall_forall. intros f Hf.
    destruct (isEnumerated (Sev f)) eqn:E; [reflexivity|].
    apply length_zero_iff_nil in Hz.
    assert (Hin : In f (List.filter (fun f => negb (isEnumerated (Sev f))) fs)).
    { apply filter_In. split; [apply list_elem_of_In; exact Hf | rewrite E; reflexivity]. }
    rewrite Hz in Hin. destruct Hin.
  - intros Hall.
    assert (Hz : List.filter (fun f => negb (isEnumerated (Sev f))) fs = []).
    { clear -Hall. induction Hall as [|f fs Hf _ IH]; [reflexivity|].
      simpl. rewrite Hf. simpl. exact IH. }
    rewrite Hz in Hlen. simpl in Hlen. lia.
Qed.

(** C2, as stated, fails: one finding of unrecognised severity gives total 1
    and six counts that sum to 0. *)
Lemma buildSummary_total_unrecognised :
  Total (buildSummary [plainFinding "X-1" "Unknown" "a.sol" [1] ""]) = 1
  /\ sumCounts (buildSummary [plainFinding "X-1" "Unknown" "a.sol" [1] ""]) = 0.
Proof. split; reflexivity. Qed.

(** ** Score *)

Lemma wrap_in_range z :
  GoInt.MinInt <= z <= GoInt.MaxInt -> GoInt.wrap z = z.
Proof.
  unfold GoInt.wrap, GoInt.MinInt, GoInt.MaxInt. intros H.
  rewrite Z.mod_small; lia.
Qed.

Lemma Score_in_range (s : Summary) :
  scorable s -> Score (reportOf s) = Z.min 100 (weightedSum s).
Proof.
  unfold scorable, weightedSum, Score, GoInt.add, GoInt.mul, reportOf.
  intros (HC & HH & HM & HL & Hsum). cbn [ReportSummary].
  assert (Hmax : GoInt.MaxInt = 9223372036854775807) by reflexivity.
  assert (Hmin : GoInt.MinInt = -9223372036854775808) by reflexivity.
  rewrite (wrap_in_range (Critical s * 40)) by lia.
  rewrite (wrap_in_range (0 + _)) by lia.
  rewrite (wrap_in_range (High s * 20)) by lia.
  rewrite (wrap_in_range (0 + _ + _)) by lia.
  rewrite (wrap_in_range (Medium s * 10)) by lia.
  rewrite (wrap_in_range (0 + _ + _ + _)) by lia.
  rewrite (wrap_in_range (Low s * 3)) by lia.
  rewrite (wrap_in_range (0 + _ + _ + _ + _)) by lia.
  destruct (Z.gtb_spec (0 + Critical s * 40 + High s * 20 + Medium s * 10 + Low s * 3) 100); lia.
Qed.

(** C5, within the range of Go's [int]: for non-negative counts whose
    weighted sum does not exceed the largest int, the score is the weighted
    sum clamped at 100, lies in [0,100], and does not decrease when counts
    grow. *)
Theorem Score_clamped_bounded_monotone (s : Summary) :
  scorable s ->
  Score (reportOf s) = Z.min 100 (weightedSum s)
  /\ 0 <= Score (reportOf s) <= 100
  /\ forall s', scorable s' -> countsLe s s' ->
       Score (reportOf s) <= Score (reportOf s').
Proof.
  intros Hs. pose proof (Score_in_range s Hs) as E.
  split; [exact E|]. rewrite E.
  destruct Hs as (HC & HH & HM & HL & Hsum).
  split; [unfold weightedSum; lia|].
  intros s' Hs' (LC & LH & LM & LL).
  rewrite (Score_in_range s' Hs').
  unfold weightedSum. lia.
Qed.

Lemma Score_clamped_bounded_monotone_witness :
  Score (reportOf (mkSummary 5 2 1 1 1 0 0)) = Z.min 100 (weightedSum (mkSummary 5 2 1 1 1 0 0))
  /\ 0 <= Score (reportOf (mkSummary 5 2 1 1 1 0 0)) <= 100
  /\ forall s', scorable s' -> countsLe (mkSummary 5 2 1 1 1 0 0) s' ->
       Score (reportOf (mkSummary 5 2 1 1 1 0 0)) <= Score (reportOf s').
Proof.
  apply (Score_clamped_bounded_monotone (mkSummary 5 2 1 1 1 0 0)).
  unfold scorable, weightedSum, GoInt.MaxInt; simpl. lia.
Defined.

(** C5, as stated, fails once the products leave the int range: with
    non-negative counts the score is negative, differs from the clamped sum
    and is below the score of the empty summary. *)
Lemma Score_wraps_around :
  0 <= Critical hugeSummary
  /\ Score (reportOf hugeSummary) = -9223372036854775776
  /\ Z.min 100 (weightedSum hugeSummary) = 100
  /\ countsLe (mkSummary 0 0 0 0 0 0 0) hugeSummary
  /\ Score (reportOf hugeSummary) < Score (reportOf (mkSummary 0 0 0 0 0 0 0)).
Proof.
  unfold countsLe; simpl. repeat split; try (vm_compute; congruence).
Qed.

(** ** Deduplication *)

Section KeepFirst.
Context {K : Type} `{EqDecision K} (key : Finding -> K).

Lemma keepFirst_seen_ext (fs : list Finding) : forall s1 s2 : list K,
  (forall k, k ∈ s1 <-> k ∈ s2) -> keepFirst key s1 fs = keepFirst key s2 fs.
Proof.
  induction fs as [|f fs IH]; intros s1 s2 Hs; simpl; [reflexivity|].
  destruct (decide (key f ∈ s1)) as [H1|H1], (decide (key f ∈ s2)) as [H2|H2].
  - apply IH, Hs.
  - exfalso. apply H2, Hs, H1.
  - exfalso. apply H1, Hs, H2.
  - f_equal. apply IH. intros k. rewrite !elem_of_cons, Hs. reflexivity.
Qed.

Lemma keepFirst_app (l1 l2 : list Finding) : forall seen,
  keepFirst key seen (l1 ++ l2)
  = keepFirst key seen l1 ++ keepFirst key (map key l1 ++ seen) l2.
Proof.
  induction l1 as [|f l1 IH]; intros seen; simpl; [reflexivity|].
  destruct (decide (key f ∈ seen)) as [Hin|Hin].
  - rewrite IH. f_equal. apply keepFirst_seen_ext. intros k.
    rewrite elem_of_cons. split; [tauto|].
    intros [->|Hk]; [apply elem_of_app; right; exact Hin | exact Hk].
  - simpl. f_equal. rewrite IH. f_equal. apply keepFirst_seen_ext. intros k.
    rewrite !elem_of_app, !elem_of_cons, elem_of_app. tauto.
Qed.

Lemma keepFirst_idem (fs : list Finding) : forall seen,
  keepFirst key seen (keepFirst key seen fs) = keepFirst key seen fs.
Proof.
  induction fs as [|f fs IH]; intros seen; simpl; [reflexivity|].
  destruct (decide (key f ∈ seen)) as [Hin|Hin]; [apply IH|].
  simpl. destruct (decide (key f ∈ seen)); [contradiction|].
  f_equal.
  transitivity (keepFirst key (key f :: seen) (keepFirst key (key f :: seen) fs));
    [reflexivity | apply IH].
Qed.

Lemma keepFirst_sublist (fs : list Finding) : forall seen,
  sublist (keepFirst key seen fs) fs.
Proof.
  induction fs as [|f fs IH]; intros seen; simpl; [constructor|].
  destruct (decide (key f ∈ seen)).
  - apply sublist_cons, IH.
  - apply sublist_skip, IH.
Qed.

Lemma keepFirst_keys_fresh (fs : list Finding) : forall seen g,
  g ∈ keepFirst key seen fs -> key g ∉ seen.
Proof.
  induction fs as [|f fs IH]; intros seen g; simpl; [inversion 1|].
  destruct (decide (key f ∈ seen)) as [Hin|Hin]; [apply IH|].
  intros [->|Hg]%elem_of_cons; [exact Hin|].
  apply IH in Hg. intros Hk. apply Hg. right. exact Hk.
Qed.

Lemma keepFirst_NoDup (fs : list Finding) : forall seen,
  NoDup (map key (keepFirst key seen fs)).
Proof.
  induction fs as [|f fs IH]; intros seen; simpl; [constructor|].
  destruct (decide (key f ∈ seen)) as [Hin|Hin]; [apply IH|].
  simpl. constructor; [|apply IH].
  intros (g & Hk & Hg)%list_elem_of_fmap.
  apply keepFirst_keys_fresh in Hg. apply Hg. rewrite <- Hk. left.
Qed.

End KeepFirst.

(** Two key functions that agree on which findings of [fs] collide select
    the same findings. *)
Lemma keepFirst_same_collisions {K1 K2 : Type} `{EqDecision K1} `{EqDecision K2}
    (key1 : Finding -> K1) (key2 : Finding -> K2) (fs : list Finding) :
  forall s1 s2,
    (forall f g, f ∈ fs -> g ∈ fs -> key1 f = key1 g <-> key2 f = key2 g) ->
    (forall f, f ∈ fs -> key1 f ∈ s1 <-> key2 f ∈ s2) ->
    keepFirst key1 s1 fs = keepFirst key2 s2 fs.
Proof.
  induction fs as [|f fs IH]; intros s1 s2 Hkeys Hseen; simpl; [reflexivity|].
  pose proof (Hseen f (list_elem_of_here f fs)) as Hf.
  assert (Hrest : forall a b, a ∈ fs -> b ∈ fs -> key1 a = key1 b <-> key2 a = key2 b).
  { intros a b Ha Hb. apply Hkeys; right; assumption. }
  destruct (decide (key1 f ∈ s1)) as [H1|H1], (decide (key2 f ∈ s2)) as [H2|H2];
    try tauto.
  - apply IH; [exact Hrest|]. intros g Hg. apply Hseen. right. exact Hg.
  - f_equal. apply IH; [exact Hrest|]. intros g Hg.
    rewrite !elem_of_cons.
    rewrite (Hkeys g f (list_elem_of_further _ _ _ Hg) (list_elem_of_here _ _)).
    rewrite (Hseen g (list_elem_of_further _ _ _ Hg)). reflexivity.
Qed.

Lemma deduplicateLoop_keepFirst (fs : list Finding) :
  forall (seen : gmap string bool) (result : list Finding) (ks : list string),
    (forall k, default false (seen !! k) = true <-> k ∈ ks) ->
    deduplicateLoop seen result fs = result ++ keepFirst dedupKey ks fs.
Proof.
  induction fs as [|f fs IH]; intros seen result ks Hseen; simpl.
  - symmetry. apply app_nil_r.
  - destruct (default false (seen !! dedupKey f)) eqn:E.
    + destruct (decide (dedupKey f ∈ ks)) as [Hin|Hin].
      * apply IH, Hseen.
      * exfalso. apply Hin, Hseen, E.
    + destruct (decide (dedupKey f ∈ ks)) as [Hin|Hin].
      * apply Hseen in Hin. congruence.
      * rewrite (IH _ _ (dedupKey f :: ks)).
        { rewrite <- app_assoc. reflexivity. }
        intros k. rewrite elem_of_cons, <- Hseen.
        destruct (decide (k = dedupKey f)) as [->|Hne].
        -- rewrite lookup_insert_eq. simpl. tauto.
        -- rewrite lookup_insert_ne by congruence. split; [tauto|].
           intros [?|?]; [contradiction | assumption].
Qed.

Lemma deduplicate_keepFirst (fs : list Finding) :
  deduplicate fs = keepFirst dedupKey [] fs.
Proof.
  unfold deduplicate.
  rewrite (deduplicateLoop_keepFirst fs ∅ [] []); [reflexivity|].
  intros k. rewrite lookup_empty. simpl. split; [discriminate | inversion 1].
Qed.

(** *** The key string determines the triple when no field holds a ['|'] *)

(** stdpp keeps [simpl] from unfolding [String.append]; these do one step. *)
Lemma append_String (x : ascii) (a b : string) :
  String x a +:+ b = String x (a +:+ b).
Proof. reflexivity. Qed.

Lemma append_empty_l (b : string) : "" +:+ b = b.
Proof. reflexivity. Qed.

Ltac app_step := rewrite ?append_String, ?append_empty_l in *.

Lemma append_assoc (a b c : string) : (a +:+ b) +:+ c = a +:+ (b +:+ c).
Proof. induction a as [|x a IH]; app_step; [reflexivity | f_equal; exact IH]. Qed.

Lemma append_empty_r (a : string) : a +:+ "" = a.
Proof. induction a as [|x a IH]; app_step; [reflexivity | f_equal; exact IH]. Qed.

Lemma barFree_bar_inside (a b : string) : barFree (a +:+ String "|" b) = false.
Proof.
  induction a as [|x a IH]; app_step; simpl; [reflexivity|].
  rewrite IH. apply andb_false_r.
Qed.

Lemma split_at_first_bar (a : string) : forall a' r r',
  barFree a = true -> barFree a' = true ->
  a +:+ String "|" r = a' +:+ String "|" r' -> a = a' /\ r = r'.
Proof.
  induction a as [|x a IH]; intros [|y a'] r r' Ha Ha' E; app_step; simpl in *.
  - injection E as ->. split; reflexivity.
  - injection E as <- _. simpl in Ha'. discriminate.
  - injection E as -> _. simpl in Ha. discriminate.
  - injection E as -> E.
    apply andb_true_iff in Ha as [_ Ha]. apply andb_true_iff in Ha' as [_ Ha'].
    destruct (IH _ _ _ Ha Ha' E) as [-> ->]. split; reflexivity.
Qed.

Lemma dedupKey_unfold (f : Finding) :
  dedupKey f
  = SWCRef f +:+ String "|" (File f +:+
      match Lines f with [] => "" | n :: _ => String "|" (GoFmt.d n) end).
Proof.
  unfold dedupKey. destruct (Lines f) as [|n ?].
  - rewrite append_empty_r. reflexivity.
  - rewrite append_assoc. reflexivity.
Qed.

Lemma tripleKey_dedupKey (f g : Finding) :
  tripleKey f = tripleKey g -> dedupKey f = dedupKey g.
Proof.
  unfold tripleKey. intros E. injection E as ES EF EL.
  rewrite !dedupKey_unfold, ES, EF.
  destruct (Lines f) as [|n ?], (Lines g) as [|m ?]; simpl in EL;
    try discriminate; [reflexivity|].
  injection EL as ->. reflexivity.
Qed.

Lemma dedupKey_tripleKey (f g : Finding) :
  barFreeFinding f -> barFreeFinding g ->
  dedupKey f = dedupKey g -> tripleKey f = tripleKey g.
Proof.
  intros [HfS HfF] [HgS HgF]. rewrite !dedupKey_unfold. intros E.
  apply split_at_first_bar in E as [ES E]; [|assumption..].
  unfold tripleKey. rewrite ES.
  destruct (Lines f) as [|n ?], (Lines g) as [|m ?]; simpl.
  - rewrite !append_empty_r in E. rewrite E. reflexivity.
  - rewrite append_empty_r in E. rewrite E, barFree_bar_inside in HfF. discriminate.
  - rewrite append_empty_r in E. rewrite <- E, barFree_bar_inside in HgF. discriminate.
  - apply split_at_first_bar in E as [EF E]; [|assumption..].
    unfold GoFmt.d in E. apply (inj pretty) in E. rewrite EF, E. reflexivity.
Qed.

(** C4, on the key the code builds.  Going through the findings in order,
    a finding is kept exactly when no earlier finding had its key string
    [SWCRef + "|" + File (+ "|" + first line)]: the result is an
    order-preserving selection with pairwise distinct keys, and
    deduplicating twice changes nothing.  Findings with equal
    (cross-reference id, file, first line) always share the key string,
    and when no cross-reference id or file holds a ['|'] the code selects
    exactly what deduplication by that triple selects. *)
Theorem deduplicate_first_per_key (fs : list Finding) :
  deduplicate [] = []
  /\ (forall pre f,
        deduplicate (pre ++ [f])
        = deduplicate pre
          ++ (if decide (dedupKey f ∈ map dedupKey pre) then [] else [f]))
  /\ sublist (deduplicate fs) fs
  /\ NoDup (map dedupKey (deduplicate fs))
  /\ deduplicate (deduplicate fs) = deduplicate fs
  /\ (forall f g, tripleKey f = tripleKey g -> dedupKey f = dedupKey g)
  /\ (Forall barFreeFinding fs -> deduplicate fs = deduplicate_by_triple fs).
Proof.
  split; [reflexivity|].
  split.
  { intros pre f. rewrite !deduplicate_keepFirst, keepFirst_app. simpl.
    rewrite app_nil_r. reflexivity. }
  rewrite !deduplicate_keepFirst.
  split; [apply keepFirst_sublist|].
  split; [apply keepFirst_NoDup|].
  split; [apply keepFirst_idem|].
  split; [exact tripleKey_dedupKey|].
  intros Hbar. unfold deduplicate_by_triple.
  apply keepFirst_same_collisions.
  - intros f g Hf Hg. rewrite Forall_forall in Hbar. split.
    + apply dedupKey_tripleKey; apply Hbar; assumption.
    + apply tripleKey_dedupKey.
  - intros f _. split; inversion 1.
Qed.

(** C4, as stated with the triple as key, fails: the second finding has a
    different (cross-reference id, file, first line) than the first, is the
    first finding observed for its triple, and is discarded because the two
    key strings are both ["SWC-107|a.sol|7"]. *)
Lemma deduplicate_key_collision :
  tripleKey collidingA <> tripleKey collidingB
  /\ deduplicate [collidingA; collidingB] = [collidingA]
  /\ deduplicate_by_triple [collidingA; collidingB] = [collidingA; collidingB].
Proof.
  split; [discriminate|]. split; vm_compute; reflexivity.
Qed.

(** ** Sorting *)

Lemma ltb_false_leb (x y : string) :
  String.ltb y x = false <-> String.leb x y = true.
Proof.
  unfold String.ltb, String.leb. rewrite (String.compare_antisym x y).
  destruct (String.compare y x); simpl; split; congruence.
Qed.

Lemma notLess_rankFileLe (a b : Finding) : notLess a b <-> rankFileLe a b.
Proof.
  unfold notLess, rankFileLe, lessFinding.
  destruct (Z.eqb_spec (SeverityRank (Sev b)) (SeverityRank (Sev a))) as [E|E]; simpl.
  - rewrite ltb_false_leb. split; [intros H; right; split; [congruence | exact H]|].
    intros [H|[_ H]]; [lia | exact H].
  - rewrite Z.ltb_ge. split; [intros H; left; lia|].
    intros [H|[H _]]; [lia | congruence].
Qed.

#[global] Instance rankFileLe_trans : Transitive rankFileLe.
Proof.
  intros a b c [Hab|[Eab Fab]] [Hbc|[Ebc Fbc]]; unfold rankFileLe.
  - left; lia.
  - left; lia.
  - left; lia.
  - right. split; [lia|].
    apply Is_true_true. apply Is_true_true in Fab, Fbc.
    exact (transitivity (R := String.le) Fab Fbc).
Qed.

#[global] Instance notLess_trans : Transitive notLess.
Proof.
  intros a b c. rewrite !notLess_rankFileLe. apply rankFileLe_trans.
Qed.

#[global] Instance notLess_total : base.Total notLess.
Proof.
  intros a b. rewrite !notLess_rankFileLe. unfold rankFileLe.
  destruct (Z.lt_trichotomy (SeverityRank (Sev a)) (SeverityRank (Sev b)))
    as [H|[H|H]]; [left; left; exact H | | right; left; exact H].
  destruct (String.leb_total (File a) (File b)) as [F|F].
  - left; right; split; [exact H | exact F].
  - right; right; split; [symmetry; exact H | exact F].
Qed.

Lemma SliceIsSorted_Sorted (l : list Finding) :
  SliceIsSorted l = true <-> Sorted notLess l.
Proof.
  induction l as [|a [|b l] IH].
  - split; [constructor | reflexivity].
  - split; [repeat constructor | reflexivity].
  - change (SliceIsSorted (a :: b :: l))
      with (negb (lessFinding b a) && SliceIsSorted (b :: l)).
    rewrite andb_true_iff, negb_true_iff, IH. split.
    + intros [Hab Hs]. constructor; [exact Hs | constructor; exact Hab].
    + intros Hs. inversion Hs as [|? ? Hs' Hhd]; subst.
      inversion Hhd; subst. split; assumption.
Qed.

Lemma SortSliceSpec_strongly (sort_Slice : Sorter) (l : list Finding) :
  SortSliceSpec sort_Slice -> StronglySorted rankFileLe (sort_Slice l).
Proof.
  intros [_ Hsorted]. specialize (Hsorted l).
  apply SliceIsSorted_Sorted, Sorted_StronglySorted in Hsorted; [|apply _].
  eapply StronglySorted_fmap with (f := fun x : Finding => x) (R1 := notLess) in Hsorted.
  - rewrite list_fmap_id in Hsorted. exact Hsorted.
  - intros x y. apply notLess_rankFileLe.
Qed.

Lemma stableSort_spec : SortSliceSpec stableSort.
Proof.
  split; intros l; unfold stableSort.
  - apply merge_sort_Permutation.
  - apply SliceIsSorted_Sorted, Sorted_merge_sort, _.
Qed.

Lemma reversingSort_spec : SortSliceSpec reversingSort.
Proof.
  split; intros l; unfold reversingSort.
  - rewrite merge_sort_Permutation. apply reverse_Permutation.
  - apply SliceIsSorted_Sorted, Sorted_merge_sort, _.
Qed.

Lemma Analyze_unfold (sort_Slice : Sorter) (fs : FileSystem) (now target : string)
    (slitherFindings : list Finding) :
  Analyze sort_Slice fs now target slitherFindings
  = (Ok (reportFor sort_Slice now target
           (fst (runChecks fs target (slitherFindings, [])))),
     snd (runChecks fs target (slitherFindings, []))).
Proof.
  unfold Analyze, reportFor.
  destruct (runChecks fs target (slitherFindings, [])) as [allFindings warnings].
  reflexivity.
Qed.

(** C3, for what [sort.Slice] promises.  Whatever routine meeting the
    contract of [sort.Slice] is used, [Analyze] returns a report whose
    findings are a rearrangement of the deduplicated findings in which a
    finding is followed only by findings of higher rank number, or of equal
    rank and a file path that is not smaller (byte-wise).  The relative
    order of findings equal in both severity and file is left to the
    sorting routine. *)
Theorem Analyze_sorted_by_rank_then_file (sort_Slice : Sorter)
    (fs : FileSystem) (now target : string) (slitherFindings : list Finding) :
  SortSliceSpec sort_Slice ->
  exists report warnings,
    Analyze sort_Slice fs now target slitherFindings = (Ok report, warnings)
    /\ StronglySorted rankFileLe (Findings report)
    /\ Findings report
       ≡ₚ deduplicate (fst (runChecks fs target (slitherFindings, []))).
Proof.
  intros Hspec. rewrite Analyze_unfold. eexists _, _. split; [reflexivity|].
  simpl. split.
  - apply SortSliceSpec_strongly, Hspec.
  - apply (sort_Slice_perm _ Hspec).
Qed.

Lemma Analyze_sorted_by_rank_then_file_witness :
  exists report warnings,
    Analyze stableSort missingFS "2026-01-01T00:00:00Z" "gone.sol"
      [plainFinding "S-1" "Low" "b.sol" [1] ""; tiedB; tiedA;
       plainFinding "S-4" "Critical" "z.sol" [] ""]
    = (Ok report, warnings)
    /\ StronglySorted rankFileLe (Findings report)
    /\ Findings report
       ≡ₚ deduplicate (fst (runChecks missingFS "gone.sol"
            ([plainFinding "S-1" "Low" "b.sol" [1] ""; tiedB; tiedA;
              plainFinding "S-4" "Critical" "z.sol" [] ""], []))).
Proof.
  apply (Analyze_sorted_by_rank_then_file stableSort).
  exact stableSort_spec.
Defined.

(** C3, the ties.  Thirteen findings for one file, twelve of severity High
    followed by one Critical, all with different keys so that
    deduplication keeps them: [sort.Slice] partitions the slice around its
    middle element, which takes that element, the High finding of line 7,
    in front of the High findings of lines 1 to 6, and the one of line 2
    behind all others.  Findings of equal severity and file do not remain
    in the order in which deduplication left them. *)
Lemma Analyze_ties_reordered_by_sort_Slice :
  deduplicate thirteenFindings = thirteenFindings
  /\ GoSort.Slice lessFinding thirteenFindings
     = Some (criticalLast :: map highAt [7; 3; 4; 5; 6; 1; 8; 9; 10; 11; 12; 2])
  /\ Analyze goSortSlice emptyFiles "" "a.sol" thirteenFindings
     = (Ok (mkReport "a.sol" ""
              (mkSummary 13 1 12 0 0 0 0)
              (criticalLast :: map highAt [7; 3; 4; 5; 6; 1; 8; 9; 10; 11; 12; 2])),
        []).
Proof.
  repeat split; vm_compute; reflexivity.
Qed.

(** ** Target errors *)

Lemma runCheck_fails (inFile : string -> list string -> list Finding)
    (fs : FileSystem) (target : string) :
  fs target = NotExist \/ fs target = StatError \/ fs target = RegularFile None ->
  exists e, runCheck inFile fs target = Err e.
Proof.
  unfold runCheck, solidityFiles.
  intros [E|[E|E]]; rewrite E; [eexists; reflexivity..|].
  simpl. unfold openAndScan. rewrite E. eexists; reflexivity.
Qed.

Lemma runChecks_all_fail (fs : FileSystem) (target : string) (ext : list Finding) :
  fs target = NotExist \/ fs target = StatError \/ fs target = RegularFile None ->
  runChecks fs target (ext, []) = (ext, allChecks).
Proof.
  intros H. unfold runChecks, customChecks. cbn [fold_left].
  unfold CheckReentrancy, CheckAccessControl, CheckIntegerOverflow.
  destruct (runCheck_fails checkReentrancyInFile fs target H) as [e1 ->].
  destruct (runCheck_fails checkAccessControlInFile fs target H) as [e2 ->].
  destruct (runCheck_fails checkIntegerOverflowInFile fs target H) as [e3 ->].
  reflexivity.
Qed.

(** C9, as the code divides the work.  A target that does not exist or
    cannot be stat'ed is refused by [ValidateTarget], and the [analyze]
    command returns that error before any check runs.  [Analyze] itself
    never returns an error: when the target is missing, cannot be stat'ed
    or cannot be read, the three checks fail with a warning each and the
    report holds the deduplicated, sorted externally supplied findings. *)
Theorem target_errors (sort_Slice : Sorter) (fs : FileSystem)
    (now target : string) (noSlither : bool)
    (slither : Result (list Finding)) (ext : list Finding) :
  (fs target = NotExist \/ fs target = StatError ->
     exists e, ValidateTarget fs target = Some e
       /\ runAnalyze sort_Slice fs now target noSlither slither = Err e)
  /\ (exists report warnings,
        Analyze sort_Slice fs now target ext = (Ok report, warnings))
  /\ (fs target = NotExist \/ fs target = StatError
      \/ fs target = RegularFile None ->
      Analyze sort_Slice fs now target ext
      = (Ok (reportFor sort_Slice now target ext), allChecks)).
Proof.
  split; [|split].
  - unfold runAnalyze, ValidateTarget. intros [->| ->]; eexists; split; reflexivity.
  - rewrite Analyze_unfold. eexists _, _. reflexivity.
  - intros H. rewrite Analyze_unfold, (runChecks_all_fail fs target ext H).
    reflexivity.
Qed.

(** C9, as stated, fails.  For a target that does not exist [Analyze]
    returns a report made of the externally supplied findings; and for a
    [.sol] file that exists but cannot be opened the whole command passes
    validation and returns a report. *)
Lemma target_errors_partial_report :
  ValidateTarget missingFS "gone.sol" = Some "target not found: gone.sol"
  /\ Analyze stableSort missingFS "" "gone.sol" [tiedA]
     = (Ok (mkReport "gone.sol" "" (mkSummary 1 0 1 0 0 0 0) [tiedA]), allChecks)
  /\ ValidateTarget lockedFS "locked.sol" = None
  /\ runAnalyze stableSort lockedFS "" "locked.sol" true (Err "")
     = Ok (mkReport "locked.sol" "" (mkSummary 0 0 0 0 0 0 0) [], 0).
Proof. repeat split; vm_compute; reflexivity. Qed.

(** ** The integer-overflow scanner *)

Module OverflowFacts.
Import IntegerOverflow.

Lemma overflow_scan_app path st l1 l2 :
  scan path st (l1 ++ l2) = scan path (scan path st l1) l2.
Proof. apply fold_left_app. Qed.

Lemma overflow_step_lineNum path st line : lineNum (step path st line) = lineNum st + 1.
Proof.
  unfold step.
  destruct (if HasPrefix _ _ then _ else _) as [major minor]. reflexivity.
Qed.

Lemma step_no_arithmetic path st line :
  arithmeticLine line = false -> findings (step path st line) = findings st.
Proof.
  unfold arithmeticLine, step. intros E.
  destruct (if HasPrefix _ _ then _ else _) as [major minor].
  rewrite E. simpl.
  destruct ((major =? 0) && (minor <? 8)),
    ((major =? 0) && (minor >=? 8) && _); reflexivity.
Qed.

Lemma step_no_pragma path st line :
  pragmaLine line = false ->
  solidityMajor (step path st line) = solidityMajor st
  /\ solidityMinor (step path st line) = solidityMinor st.
Proof.
  unfold pragmaLine, step. intros E. rewrite E. split; reflexivity.
Qed.

Lemma step_inert path st line :
  inertLine line = true ->
  step path st line
  = mkState (findings st) (lineNum st + 1) (solidityMajor st) (solidityMinor st)
            (inUnchecked st) (uncheckedLine st).
Proof.
  unfold inertLine, arithmeticLine, pragmaLine, uncheckedOpen, bareClose, step.
  rewrite !andb_true_iff, !negb_true_iff. intros [[[Ea Ep] Eo] Ec].
  rewrite Ea, Ep, Eo, Ec. simpl. rewrite andb_false_r.
  destruct ((solidityMajor st =? 0) && (solidityMinor st <? 8)),
    ((solidityMajor st =? 0) && (solidityMinor st >=? 8) && inUnchecked st);
    destruct (inUnchecked st); reflexivity.
Qed.

(** Lines without arithmetic add no finding. *)
Lemma scan_no_arithmetic path ls : forall st,
  Forall (fun l => arithmeticLine l = false) ls ->
  findings (scan path st ls) = findings st
  /\ lineNum (scan path st ls) = lineNum st + Z.of_nat (length ls).
Proof.
  induction ls as [|l ls IH]; intros st Hq; simpl.
  - split; [reflexivity | lia].
  - inversion Hq as [|? ? Hl Hls]; subst.
    destruct (IH (step path st l) Hls) as [Hf Hn].
    rewrite Hf, Hn, overflow_step_lineNum, (step_no_arithmetic _ _ _ Hl).
    split; [reflexivity | lia].
Qed.

(** Lines without arithmetic and without a pragma also keep the version. *)
Lemma scan_keeps_version path ls : forall st,
  Forall (fun l => arithmeticLine l = false /\ pragmaLine l = false) ls ->
  findings (scan path st ls) = findings st
  /\ lineNum (scan path st ls) = lineNum st + Z.of_nat (length ls)
  /\ solidityMajor (scan path st ls) = solidityMajor st
  /\ solidityMinor (scan path st ls) = solidityMinor st.
Proof.
  induction ls as [|l ls IH]; intros st Hq; simpl.
  - repeat split; lia.
  - inversion Hq as [|? ? [Ha Hp] Hls]; subst.
    destruct (IH (step path st l) Hls) as (Hf & Hn & HM & Hm).
    destruct (step_no_pragma path st l Hp) as [HM' Hm'].
    rewrite Hf, Hn, HM, Hm, overflow_step_lineNum, (step_no_arithmetic _ _ _ Ha), HM', Hm'.
    repeat split; lia.
Qed.

Lemma scan_inert path ls : forall st,
  Forall (fun l => inertLine l = true) ls ->
  scan path st ls
  = mkState (findings st) (lineNum st + Z.of_nat (length ls))
            (solidityMajor st) (solidityMinor st)
            (inUnchecked st) (uncheckedLine st).
Proof.
  induction ls as [|l ls IH]; intros st Hq; simpl.
  - destruct st; simpl. f_equal. lia.
  - inversion Hq as [|? ? Hl Hls]; subst.
    rewrite (IH _ Hls), (step_inert _ _ _ Hl). simpl. f_equal. lia.
Qed.

(** The pragma line: the version becomes what [extractSolidityVersion]
    reads, and no finding is added when the line has no arithmetic. *)
Lemma step_pragma path st line major minor :
  pragmaLine line = true ->
  extractSolidityVersion (TrimSpace line) = (major, minor) ->
  arithmeticLine line = false ->
  findings (step path st line) = findings st
  /\ lineNum (step path st line) = lineNum st + 1
  /\ solidityMajor (step path st line) = major
  /\ solidityMinor (step path st line) = minor.
Proof.
  intros Hp Hv Ha. split; [apply step_no_arithmetic, Ha|].
  split; [apply overflow_step_lineNum|].
  unfold pragmaLine in Hp. unfold step. rewrite Hp, Hv. split; reflexivity.
Qed.

Lemma uncheckedOpen_trimmed line :
  uncheckedOpen line = true ->
  TrimSpace line = "unchecked {" \/ TrimSpace line = "unchecked{".
Proof.
  unfold uncheckedOpen. rewrite orb_true_iff, !String.eqb_eq. tauto.
Qed.

(** The line that opens the block. *)
Lemma step_open path st line :
  uncheckedOpen line = true ->
  step path st line
  = mkState (findings st) (lineNum st + 1) (solidityMajor st) (solidityMinor st)
            true (lineNum st + 1).
Proof.
  intros Ho. unfold step.
  destruct (uncheckedOpen_trimmed line Ho) as [-> | ->]; simpl;
    destruct ((solidityMajor st =? 0) && (solidityMinor st <? 8)),
      ((solidityMajor st =? 0) && (solidityMinor st >=? 8)); reflexivity.
Qed.

(** An arithmetic line inside the block, under version 0.8. *)
Lemma step_arithmetic_unchecked path found n u line :
  arithmeticLine line = true ->
  isComment (TrimSpace line) = false ->
  pragmaLine line = false ->
  step path (mkState found n 0 8 true u) line
  = mkState (found ++ [uncheckedFinding path (n + 1) u found]) (n + 1) 0 8 true u.
Proof.
  unfold arithmeticLine, pragmaLine, step. intros Ha Hc Hp. simpl.
  rewrite Hp, Ha, Hc.
  assert (Ho : String.eqb (TrimSpace line) "unchecked {" = false).
  { apply String.eqb_neq. intros E. rewrite E in Ha. discriminate. }
  assert (Ho' : String.eqb (TrimSpace line) "unchecked{" = false).
  { apply String.eqb_neq. intros E. rewrite E in Ha. discriminate. }
  assert (Hb : String.eqb (TrimSpace line) "}" = false).
  { apply String.eqb_neq. intros E. rewrite E in Ha. discriminate. }
  rewrite Ho, Ho', Hb. reflexivity.
Qed.

End OverflowFacts.

(** C8.  A file made of lines without arithmetic ([before]), a pragma
    line from which version 0.8 is read, more such lines without a pragma
    ([between]), a line that opens an unchecked block, lines inside it that
    neither open nor close a block ([inside]), one arithmetic line that is
    not a comment, and then any lines without arithmetic ([after], among
    them the closing brace): the scanner returns exactly one finding, of
    severity Low, whose [Lines] are the block-opening line and the
    arithmetic line. *)
Theorem unchecked_block_one_Low_finding (path : string)
    (before : list string) (pragma : string) (between : list string)
    (opening : string) (inside : list string) (arith : string)
    (after : list string) :
  Forall (fun l => arithmeticLine l = false) before ->
  pragmaLine pragma = true ->
  arithmeticLine pragma = false ->
  IntegerOverflow.extractSolidityVersion (TrimSpace pragma) = (0, 8) ->
  Forall (fun l => arithmeticLine l = false /\ pragmaLine l = false) between ->
  uncheckedOpen opening = true ->
  Forall (fun l => inertLine l = true) inside ->
  arithmeticLine arith = true ->
  isComment (TrimSpace arith) = false ->
  pragmaLine arith = false ->
  Forall (fun l => arithmeticLine l = false) after ->
  let openLine := Z.of_nat (length before + 1 + length between + 1) in
  let arithLine := openLine + Z.of_nat (length inside) + 1 in
  checkIntegerOverflowInFile path
    (before ++ [pragma] ++ between ++ [opening] ++ inside ++ [arith] ++ after)
  = [IntegerOverflow.uncheckedFinding path arithLine openLine []]
  /\ Sev (IntegerOverflow.uncheckedFinding path arithLine openLine []) = SeverityLow
  /\ Lines (IntegerOverflow.uncheckedFinding path arithLine openLine [])
     = [openLine; arithLine].
Proof.
  intros Hbefore Hp Hpa Hv Hbetween Hopen Hinside Ha Hc Hap Hafter openLine arithLine.
  split; [|split; reflexivity].
  unfold checkIntegerOverflowInFile.
  rewrite !OverflowFacts.overflow_scan_app.
  destruct (OverflowFacts.scan_no_arithmetic path before IntegerOverflow.init Hbefore)
    as [F1 N1].
  set (s1 := IntegerOverflow.scan path IntegerOverflow.init before) in *.
  change (IntegerOverflow.scan path s1 [pragma]) with (IntegerOverflow.step path s1 pragma).
  destruct (OverflowFacts.step_pragma path s1 pragma 0 8 Hp Hv Hpa) as (F2 & N2 & M2 & m2).
  set (s2 := IntegerOverflow.step path s1 pragma) in *.
  destruct (OverflowFacts.scan_keeps_version path between s2 Hbetween) as (F3 & N3 & M3 & m3).
  set (s3 := IntegerOverflow.scan path s2 between) in *.
  change (IntegerOverflow.scan path s3 [opening]) with (IntegerOverflow.step path s3 opening).
  rewrite (OverflowFacts.step_open path s3 opening Hopen).
  rewrite (OverflowFacts.scan_inert path inside _ Hinside). simpl.
  change (IntegerOverflow.scan path ?st [arith]) with (IntegerOverflow.step path st arith).
  rewrite F3, F2, F1, M3, M2, m3, m2. simpl.
  rewrite (OverflowFacts.step_arithmetic_unchecked path [] _ _ arith Ha Hc Hap).
  destruct (OverflowFacts.scan_no_arithmetic path after
              (IntegerOverflow.mkState
                 ([] ++ [IntegerOverflow.uncheckedFinding path
                           (IntegerOverflow.lineNum s3 + 1 + Z.of_nat (length inside) + 1)
                           (IntegerOverflow.lineNum s3 + 1) []])
                 (IntegerOverflow.lineNum s3 + 1 + Z.of_nat (length inside) + 1)
                 0 8 true (IntegerOverflow.lineNum s3 + 1)) Hafter) as [F4 _].
  rewrite F4. simpl.
  assert (E : IntegerOverflow.lineNum s3 + 1 = openLine).
  { rewrite N3, N2, N1. unfold openLine. simpl. lia. }
  rewrite E. reflexivity.
Qed.

Lemma unchecked_block_one_Low_finding_witness :
  checkIntegerOverflowInFile "new.sol" uncheckedTest
  = [IntegerOverflow.uncheckedFinding "new.sol" 7 6 []]
  /\ Sev (IntegerOverflow.uncheckedFinding "new.sol" 7 6 []) = SeverityLow
  /\ Lines (IntegerOverflow.uncheckedFinding "new.sol" 7 6 []) = [6; 7].
Proof.
  apply (unchecked_block_one_Low_finding "new.sol"
           [""] "pragma solidity ^0.8.0;"
           [""; "contract New {"; "    function sub(uint256 a, uint256 b) public {"]
           "        unchecked {" []
           "            uint256 c = a - b;"
           ["        }"; "    }"; "}"]);
    repeat constructor; vm_compute; reflexivity.
Defined.

(** C8, as worded.  In a file that declares version 0.8.0, with one
    arithmetic line [a - b] inside one unchecked block, the scanner
    reports nothing when a nested block closes before the arithmetic line,
    since the first bare closing brace ends the unchecked block, and
    nothing when the opening line carries a comment, since only a line
    that reads [unchecked {] or [unchecked{] opens a block. *)
Lemma unchecked_block_rule_as_stated_fails :
  List.filter arithmeticLine uncheckedAfterNestedBlock
  = ["            uint256 c = a - b;"]
  /\ checkIntegerOverflowInFile "new.sol" uncheckedAfterNestedBlock = []
  /\ List.filter arithmeticLine uncheckedWithComment
     = ["            uint256 c = a - b;"]
  /\ checkIntegerOverflowInFile "new.sol" uncheckedWithComment = [].
Proof.
  repeat split; vm_compute; reflexivity.
Qed.

(** ** The reentrancy scanner *)

Module ReentrancyFacts.
Import Reentrancy.

Lemma detectCall_spec trimmed n acc :
  detectCall trimmed n acc
  = if existsb (fun pattern => Contains trimmed pattern && negb (isComment trimmed))
         externalCallPatterns
    then (true, n) else acc.
Proof.
  unfold detectCall. generalize externalCallPatterns as ps. intros ps. revert acc.
  induction ps as [|p ps IH]; intros acc; simpl; [reflexivity|].
  rewrite IH.
  destruct (Contains trimmed p && negb (isComment trimmed)); simpl; [|reflexivity].
  destruct (existsb _ ps); reflexivity.
Qed.

Lemma detectStateChange_spec ps trimmed f found :
  detectStateChange ps trimmed f found
  = if existsb (fun pattern => Contains trimmed pattern && negb (isComment trimmed)) ps
    then found ++ [f] else found.
Proof.
  induction ps as [|p ps IH]; simpl; [reflexivity|].
  destruct (Contains trimmed p && negb (isComment trimmed)); simpl; [reflexivity|].
  exact IH.
Qed.

#[local] Arguments detectCall : simpl never.
#[local] Arguments detectStateChange : simpl never.

Lemma detectCall_callSignal line n acc :
  detectCall (TrimSpace line) n acc = if callSignal line then (true, n) else acc.
Proof. apply detectCall_spec. Qed.

Lemma detectStateChange_mutationSignal line f found :
  detectStateChange stateChangePatterns (TrimSpace line) f found
  = if mutationSignal line then found ++ [f] else found.
Proof. apply detectStateChange_spec. Qed.

Lemma step_stepSpec path st line : step path st line = stepSpec path st line.
Proof.
  unfold step, stepSpec, declLine, guardLine, bareClose.
  rewrite !detectCall_callSignal.
  destruct (isFunctionDecl (TrimSpace line)), (inFunction st); simpl;
    try reflexivity;
    destruct (callSignal line); simpl;
    rewrite ?detectStateChange_mutationSignal;
    destruct (isGuard (TrimSpace line)), (sawExternalCall st), (hasGuard st),
      (mutationSignal line); reflexivity.
Qed.

Lemma scan_app path st l1 l2 :
  scan path st (l1 ++ l2) = scan path (scan path st l1) l2.
Proof. apply fold_left_app. Qed.

End ReentrancyFacts.

Module ReentrancyScan.
Import Reentrancy ReentrancyFacts.

Lemma step_lineNum path st line : lineNum (step path st line) = lineNum st + 1.
Proof.
  rewrite step_stepSpec. unfold stepSpec.
  destruct (declLine line), (inFunction st), (bareClose line); reflexivity.
Qed.

Lemma step_findings path st line :
  findings (step path st line)
  = findings st
    ++ (if emits st line
        then [newFinding path (nameAfter st line) (lineNum st + 1)
                (callLineAfter st line) (findings st)]
        else []).
Proof.
  rewrite step_stepSpec. unfold stepSpec, emits, nameAfter, callLineAfter.
  destruct (declLine line), (inFunction st), (callSignal line), (guardLine line),
    (sawExternalCall st), (hasGuard st), (mutationSignal line), (bareClose line);
    simpl; rewrite ?app_nil_r; reflexivity.
Qed.

Lemma scan_lineNum path ls : forall st,
  lineNum (scan path st ls) = lineNum st + Z.of_nat (length ls).
Proof.
  induction ls as [|l ls IH]; intros st; simpl; [lia|].
  rewrite IH, step_lineNum. lia.
Qed.

(** Every finding added while scanning [ls] is located at one of its lines. *)
Lemma scan_findings path ls : forall st,
  exists new,
    findings (scan path st ls) = findings st ++ new
    /\ Forall (fun f => lineNum st < mutationLineOf f
                        <= lineNum st + Z.of_nat (length ls)) new.
Proof.
  induction ls as [|l ls IH]; intros st; simpl.
  - exists []. split; [symmetry; apply app_nil_r | constructor].
  - destruct (IH (step path st l)) as (new & E & Hrange).
    rewrite step_findings, step_lineNum in *.
    eexists (_ ++ new). rewrite E, <- app_assoc. split; [reflexivity|].
    apply Forall_app. split.
    + destruct (emits st l); repeat constructor; unfold mutationLineOf; simpl; lia.
    + eapply Forall_impl; [exact Hrange|]. intros f. simpl. lia.
Qed.

Lemma filter_none (test : Finding -> bool) (l : list Finding) :
  Forall (fun f => test f = false) l -> List.filter test l = [].
Proof.
  induction 1 as [|f l Hf _ IH]; simpl; [reflexivity|]. rewrite Hf. exact IH.
Qed.

(** The findings located at a line are those its own iteration appends. *)
Lemma reentrancyAt_line path pre m post :
  reentrancyAt path (pre ++ m :: post) (Z.of_nat (length pre) + 1)
  = if emits (scan path init pre) m
    then [newFinding path (nameAfter (scan path init pre) m)
            (Z.of_nat (length pre) + 1)
            (callLineAfter (scan path init pre) m)
            (findings (scan path init pre))]
    else [].
Proof.
  unfold reentrancyAt, checkReentrancyInFile.
  rewrite scan_app. simpl.
  destruct (scan_findings path pre init) as (new1 & E1 & R1).
  destruct (scan_findings path post (step path (scan path init pre) m))
    as (new3 & E3 & R3).
  pose proof (scan_lineNum path pre init) as N1. simpl in N1, E1, R1.
  rewrite E3, step_findings, step_lineNum in *.
  rewrite !List.filter_app, N1, E1.
  rewrite (filter_none _ new1), (filter_none _ new3).
  - simpl. rewrite app_nil_r.
    destruct (emits _ m); simpl; [|reflexivity].
    unfold mutationLineOf at 1. simpl. rewrite Z.eqb_refl. reflexivity.
  - eapply Forall_impl; [exact R3|]. intros f. simpl. rewrite N1. lia.
  - eapply Forall_impl; [exact R1|]. intros f. simpl. lia.
Qed.

(** *** Inside a function *)

Lemma declLine_not_close line : declLine line = true -> bareClose line = false.
Proof.
  unfold declLine, bareClose. intros Hd.
  destruct (String.eqb_spec (TrimSpace line) "}") as [E|E]; [|reflexivity].
  rewrite E in Hd. discriminate.
Qed.

(** The state after the declaration line. *)
Lemma step_decl path st d :
  declLine d = true ->
  inFunction (step path st d) = true
  /\ hasGuard (step path st d) = guardLine d
  /\ sawExternalCall (step path st d) = callSignal d
  /\ callLine (step path st d) = callLineAfter st d.
Proof.
  intros Hd. rewrite step_stepSpec. unfold stepSpec, callLineAfter.
  rewrite Hd, (declLine_not_close d Hd). simpl.
  destruct (guardLine d), (callSignal d); repeat split; reflexivity.
Qed.

(** The state after body lines that neither declare a function nor are a
    bare closing brace. *)
Lemma scan_body path xs : forall st,
  inFunction st = true ->
  Forall (fun l => declLine l = false /\ bareClose l = false) xs ->
  inFunction (scan path st xs) = true
  /\ hasGuard (scan path st xs) = hasGuard st || existsb guardLine xs
  /\ sawExternalCall (scan path st xs) = sawExternalCall st || existsb callSignal xs
  /\ callLine (scan path st xs) = lastCallFrom (lineNum st) (callLine st) xs.
Proof.
  induction xs as [|l xs IH]; intros st HinF Hxs; simpl.
  - rewrite !orb_false_r. repeat split; assumption.
  - inversion Hxs as [|? ? [Hd Hc] Hxs']; subst.
    assert (Hstep : inFunction (step path st l) = true
                    /\ hasGuard (step path st l) = hasGuard st || guardLine l
                    /\ sawExternalCall (step path st l) = sawExternalCall st || callSignal l
                    /\ callLine (step path st l) = callLineAfter st l).
    { rewrite step_stepSpec. unfold stepSpec, callLineAfter.
      rewrite Hd, Hc, HinF. simpl.
      destruct (guardLine l), (callSignal l), (hasGuard st), (sawExternalCall st);
        repeat split; reflexivity. }
    destruct Hstep as (H1 & H2 & H3 & H4).
    destruct (IH (step path st l) H1 Hxs') as (I1 & I2 & I3 & I4).
    rewrite I2, I3, I4, H2, H3, H4, step_lineNum, !orb_assoc.
    unfold callLineAfter. repeat split. exact I1.
Qed.

Lemma lastCallFrom_none n acc ls :
  existsb callSignal ls = false -> lastCallFrom n acc ls = acc.
Proof.
  revert n acc. induction ls as [|l ls IH]; intros n acc; simpl; [reflexivity|].
  rewrite orb_false_iff. intros [-> H]. apply IH, H.
Qed.

(** [lastCallFrom] names the last line with a call signal. *)
Lemma lastCallFrom_last n acc ls :
  existsb callSignal ls = true ->
  exists before c after,
    ls = before ++ c :: after /\ callSignal c = true
    /\ Forall (fun l => callSignal l = false) after
    /\ lastCallFrom n acc ls = n + Z.of_nat (length before) + 1.
Proof.
  revert n acc. induction ls as [|l ls IH]; intros n acc; simpl; [discriminate|].
  intros H. destruct (existsb callSignal ls) eqn:E.
  - destruct (IH (n + 1) (if callSignal l then n + 1 else acc) eq_refl)
      as (before & c & after & -> & Hc & Hafter & Hlast).
    exists (l :: before), c, after. rewrite Hlast. simpl.
    repeat split; [assumption..|lia].
  - rewrite orb_false_r in H. rewrite H, (lastCallFrom_none _ _ _ E).
    exists [], l, ls. simpl. repeat split; [assumption| |lia].
    clear -E. induction ls as [|x ls IH]; [constructor|].
    simpl in E. apply orb_false_iff in E as [Hx Hls].
    constructor; [exact Hx | apply IH, Hls].
Qed.

Lemma lastCallFrom_acc ls : forall n acc acc',
  existsb callSignal ls = true -> lastCallFrom n acc ls = lastCallFrom n acc' ls.
Proof.
  induction ls as [|l ls IH]; intros n acc acc'; simpl; [discriminate|].
  destruct (callSignal l); simpl; [reflexivity | apply IH].
Qed.

Lemma lastCallFrom_snoc m ls : forall n acc,
  lastCallFrom n acc (ls ++ [m])
  = if callSignal m then n + Z.of_nat (length ls) + 1 else lastCallFrom n acc ls.
Proof.
  induction ls as [|x ls IH]; intros n acc; simpl.
  - destruct (callSignal m); [lia | reflexivity].
  - rewrite IH. destruct (callSignal m); [lia | reflexivity].
Qed.

Lemma nil_or_snoc {A} (l : list A) : l = [] \/ exists xs m, l = xs ++ [m].
Proof.
  induction l as [|x l _] using rev_ind; [left; reflexivity|].
  right. exists l, x. reflexivity.
Qed.

(** Whether the last line of a function segment appends a finding, and the
    call line it reports, in terms of the lines of the segment alone. *)
Lemma emits_last_of_function path st0 d rest :
  declLine d = true ->
  Forall (fun l => declLine l = false) rest ->
  Forall (fun l => bareClose l = false) (removelast (d :: rest)) ->
  let st := scan path st0 (removelast (d :: rest)) in
  emits st (List.last rest d)
  = existsb callSignal (d :: rest) && negb (existsb guardLine (d :: rest))
    && mutationSignal (List.last rest d)
  /\ (existsb callSignal (d :: rest) = true ->
      callLineAfter st (List.last rest d)
      = lastCallFrom (lineNum st0) 0 (d :: rest)).
Proof.
  intros Hd Hrest Hclose.
  destruct (nil_or_snoc rest) as [->|(xs & m & ->)].
  { (* the declaration line is the line looked at *)
    simpl. unfold emits, callLineAfter. rewrite Hd. simpl.
    rewrite !orb_false_r. split; [reflexivity|]. intros ->. reflexivity. }
  assert (Hrm : removelast (d :: xs ++ [m]) = d :: xs).
  { change (d :: xs ++ [m]) with ((d :: xs) ++ [m]). apply removelast_last. }
  rewrite Hrm in *. rewrite List.last_last.
  apply Forall_app in Hrest as [Hxs Hm]. inversion Hm as [|? ? Hmd _]; subst.
  inversion Hclose as [|? ? _ Hxsc]; subst.
  simpl. destruct (step_decl path st0 d Hd) as (D1 & D2 & D3 & D4).
  assert (Hbody : Forall (fun l => declLine l = false /\ bareClose l = false) xs).
  { rewrite Forall_forall in *. intros l Hl. split; [apply Hxs | apply Hxsc]; exact Hl. }
  destruct (scan_body path xs (step path st0 d) D1 Hbody) as (B1 & B2 & B3 & B4).
  unfold emits, callLineAfter. fold (scan path (step path st0 d) xs).
  rewrite Hmd, B1, B2, B3, B4, D2, D3, D4, step_lineNum. simpl.
  rewrite !existsb_app. simpl. rewrite !orb_false_r.
  split.
  - destruct (callSignal m), (callSignal d), (existsb callSignal xs),
      (guardLine m), (guardLine d), (existsb guardLine xs); reflexivity.
  - intros Hcall. unfold callLineAfter.
    rewrite lastCallFrom_snoc, scan_lineNum, step_lineNum.
    destruct (callSignal m); [lia|].
    destruct (callSignal d); [reflexivity|].
    apply lastCallFrom_acc. simpl in Hcall. rewrite orb_false_r in Hcall.
    exact Hcall.
Qed.

End ReentrancyScan.

(** C1, as the scanner pairs lines.  Take a function as the scanner
    delimits it: a declaration line [d] followed by lines [rest] that
    declare no function, none of them but possibly the last a bare closing
    brace.  The findings located at its last line are: exactly one finding,
    of severity High, when that line has a state-change signal, some line
    of [d :: rest] has a call signal and none has a guard signal; none
    otherwise.  The finding's [Lines] are the number of the last line of
    [d :: rest] with a call signal (which may be the state-change line
    itself) and the number of the state-change line. *)
Theorem reentrancy_findings_of_line (path : string) (pre : list string)
    (d : string) (rest post : list string) :
  declLine d = true ->
  Forall (fun l => declLine l = false) rest ->
  Forall (fun l => bareClose l = false) (removelast (d :: rest)) ->
  let fn := d :: rest in
  let j := Z.of_nat (length pre + length fn) in
  let located := reentrancyAt path (pre ++ fn ++ post) j in
  if mutationSignal (List.last rest d) && existsb callSignal fn
     && negb (existsb guardLine fn)
  then exists f before c after,
         located = [f] /\ Sev f = SeverityHigh
         /\ fn = before ++ c :: after /\ callSignal c = true
         /\ Forall (fun l => callSignal l = false) after
         /\ Lines f = [Z.of_nat (length pre + length before + 1); j]
  else located = [].
Proof.
  intros Hd Hrest Hclose fn j located.
  pose proof (ReentrancyScan.emits_last_of_function path
                (Reentrancy.scan path Reentrancy.init pre) d rest Hd Hrest Hclose)
    as Hlast.
  cbv zeta in Hlast. fold fn in Hlast.
  assert (Hfn : fn = removelast fn ++ [List.last rest d]).
  { unfold fn. rewrite (app_removelast_last d (l := d :: rest)) at 1 by discriminate.
    destruct rest; reflexivity. }
  remember (removelast fn) as body eqn:Hbody.
  assert (Hlen : Z.of_nat (length (pre ++ body)) + 1 = j).
  { unfold j. rewrite Hfn, !length_app. simpl. lia. }
  assert (Hloc : located
                 = reentrancyAt path ((pre ++ body) ++ List.last rest d :: post)
                     (Z.of_nat (length (pre ++ body)) + 1)).
  { unfold located. rewrite Hlen. f_equal.
    rewrite Hfn, <- !app_assoc. reflexivity. }
  rewrite Hloc, ReentrancyScan.reentrancyAt_line, ReentrancyFacts.scan_app.
  destruct Hlast as [Hemits Hcall]. rewrite Hemits.
  rewrite (andb_comm (existsb callSignal fn && negb (existsb guardLine fn))).
  rewrite andb_assoc.
  destruct (mutationSignal (List.last rest d) && existsb callSignal fn
            && negb (existsb guardLine fn)) eqn:E; [|reflexivity].
  apply andb_true_iff in E as [E _]. apply andb_true_iff in E as [_ E].
  destruct (ReentrancyScan.lastCallFrom_last
              (Reentrancy.lineNum (Reentrancy.scan path Reentrancy.init pre)) 0 fn E)
    as (before & c & after & Efn & Hc & Hafter & Hlast).
  eexists _, before, c, after.
  split; [reflexivity|]. split; [reflexivity|].
  split; [exact Efn|]. split; [exact Hc|]. split; [exact Hafter|].
  cbn [Lines Reentrancy.newFinding].
  rewrite (Hcall E), Hlast, ReentrancyScan.scan_lineNum, Hlen.
  cbn [Reentrancy.lineNum Reentrancy.init].
  f_equal. lia.
Qed.

Lemma reentrancy_findings_of_line_witness :
  let fn :=
    "    function withdraw() public {"
    :: [ "        uint256 amount = balances[msg.sender];";
         "        require(amount > 0);";
         "";
         "        (bool success, ) = msg.sender.call{value: amount}(data);";
         "        require(success);";
         "";
         "        balances[msg.sender] = 0;" ] in
  exists f before c after,
    reentrancyAt "vulnerable.sol" reentrancyTest 14 = [f]
    /\ Sev f = SeverityHigh
    /\ fn = before ++ c :: after /\ callSignal c = true
    /\ Forall (fun l => callSignal l = false) after
    /\ Lines f = [Z.of_nat (6 + length before + 1); 14].
Proof.
  exact (reentrancy_findings_of_line "vulnerable.sol"
           [ ""; "package main"; ""; "contract Vulnerable {";
             "    mapping(address => uint256) public balances;"; "" ]
           "    function withdraw() public {"
           [ "        uint256 amount = balances[msg.sender];";
             "        require(amount > 0);";
             "";
             "        (bool success, ) = msg.sender.call{value: amount}(data);";
             "        require(success);";
             "";
             "        balances[msg.sender] = 0;" ]
           [ "    }"; "}" ]
           eq_refl
           ltac:(repeat constructor)
           ltac:(repeat constructor)).
Defined.

(** Bounded positions of a literal file, one at a time. *)
Ltac at_positions k Hl :=
  repeat first [ lia | destruct k as [|k] ]; simpl in Hl.

(** C1, as stated, fails on [twoCallsThenGuard]: the finding for the state
    change on line 4 names the later call line 3, not the call line 2; and
    the guard token on line 5, before the state change on line 6, does not
    remove the finding of line 4. *)
Lemma reentrancy_rule_as_stated_fails :
  map Lines (checkReentrancyInFile "w.sol" twoCallsThenGuard) = [[3; 4]]
  /\ ~ claimedPairing "w.sol" twoCallsThenGuard
  /\ ~ claimedSuppression "w.sol" twoCallsThenGuard.
Proof.
  split; [vm_compute; reflexivity|].
  assert (Hsame : forall j, (j <= 5)%nat -> sameFunction twoCallsThenGuard 0 j).
  { intros j Hj. split; [lia|]. split; [eexists; split; reflexivity|]. split.
    - intros k Hk (l & Hl & HP). at_positions k Hl;
        injection Hl as <-; vm_compute in HP; discriminate.
    - intros k Hk (l & Hl & HP). at_positions k Hl;
        injection Hl as <-; vm_compute in HP; discriminate. }
  split.
  - intros H.
    destruct (H 0 1 3)%nat as (f & Hf & _ & HL).
    + apply Hsame; lia.
    + lia.
    + eexists; split; reflexivity.
    + intros k Hk (l & Hl & HP). at_positions k Hl;
        injection Hl as <-; vm_compute in HP; discriminate.
    + eexists; split; reflexivity.
    + vm_compute in Hf. injection Hf as <-. discriminate HL.
  - intros H.
    assert (E : reentrancyAt "w.sol" twoCallsThenGuard (Z.of_nat 3 + 1) = []).
    { apply (H 0 4 5)%nat; [apply Hsame; lia | lia | | | lia];
        eexists; split; reflexivity. }
    vm_compute in E. discriminate E.
Qed.

(** ** A guard token suppresses from its line on *)

Module GuardFacts.
Import Reentrancy ReentrancyFacts ReentrancyScan.

Lemma quiet_step path st line :
  quiet st -> declLine line = false ->
  emits st line = false /\ quiet (step path st line).
Proof.
  intros Hq Hd. rewrite step_stepSpec. unfold emits, quiet, stepSpec in *.
  rewrite Hd. simpl.
  destruct Hq as [-> | ->]; simpl.
  - split; [reflexivity | left; reflexivity].
  - destruct (inFunction st), (callSignal line), (sawExternalCall st),
      (guardLine line), (mutationSignal line), (bareClose line); simpl; auto.
Qed.

Lemma guard_step path st line :
  guardLine line = true ->
  emits st line = false /\ quiet (step path st line).
Proof.
  intros Hg. rewrite step_stepSpec. unfold emits, quiet, stepSpec.
  rewrite Hg. simpl. split; [rewrite andb_false_r; reflexivity|].
  destruct (declLine line), (inFunction st), (bareClose line); simpl; auto.
Qed.

Lemma quiet_scan path ls : forall st,
  quiet st -> Forall (fun l => declLine l = false) ls ->
  findings (scan path st ls) = findings st.
Proof.
  induction ls as [|l ls IH]; intros st Hq Hls; simpl; [reflexivity|].
  inversion Hls as [|? ? Hd Hls']; subst.
  destruct (quiet_step path st l Hq Hd) as [He Hq'].
  rewrite (IH _ Hq' Hls'), step_findings, He. apply app_nil_r.
Qed.

Lemma comment_has_no_signal patterns trimmed :
  isComment trimmed = true ->
  existsb (fun pattern => Contains trimmed pattern && negb (isComment trimmed))
    patterns = false.
Proof.
  intros ->. induction patterns as [|p ps IH]; simpl; [reflexivity|].
  rewrite andb_false_r. exact IH.
Qed.

End GuardFacts.

(** C10.  A line holding a guard token, comment or not, and the lines
    after it up to the next function declaration have no finding located
    at them; whereas a line starting with [//] never counts as a call or
    as a state change. *)
Theorem guard_token_suppresses_from_its_line (path : string)
    (pre : list string) (g : string) (mid post : list string) :
  guardLine g = true ->
  Forall (fun l => declLine l = false) mid ->
  (forall k,
     Z.of_nat (length pre) < k <= Z.of_nat (length pre + 1 + length mid) ->
     reentrancyAt path (pre ++ g :: mid ++ post) k = [])
  /\ (isComment (TrimSpace g) = true ->
      callSignal g = false /\ mutationSignal g = false).
Proof.
  intros Hg Hmid. split.
  - intros k Hk. unfold reentrancyAt, checkReentrancyInFile.
    change (pre ++ g :: mid ++ post) with (pre ++ (g :: mid) ++ post).
    rewrite !ReentrancyFacts.scan_app.
    set (st1 := Reentrancy.scan path Reentrancy.init pre).
    destruct (GuardFacts.guard_step path st1 g Hg) as [He Hq].
    assert (E2 : Reentrancy.findings (Reentrancy.scan path st1 (g :: mid))
                 = Reentrancy.findings st1).
    { simpl. rewrite (GuardFacts.quiet_scan path mid _ Hq Hmid).
      rewrite ReentrancyScan.step_findings, He. apply app_nil_r. }
    destruct (ReentrancyScan.scan_findings path pre Reentrancy.init)
      as (new1 & E1 & R1).
    destruct (ReentrancyScan.scan_findings path post
                (Reentrancy.scan path st1 (g :: mid))) as (new3 & E3 & R3).
    rewrite E3, E2. fold st1 in E1. rewrite E1. simpl.
    rewrite List.filter_app.
    rewrite (ReentrancyScan.filter_none _ new1), (ReentrancyScan.filter_none _ new3);
      [reflexivity| |].
    + assert (N3 : Reentrancy.lineNum (Reentrancy.scan path st1 (g :: mid))
                   = Z.of_nat (length pre) + Z.of_nat (length (g :: mid))).
      { unfold st1. rewrite !ReentrancyScan.scan_lineNum. reflexivity. }
      eapply Forall_impl; [exact R3|]. intros f. cbv beta. rewrite N3.
      simpl length. lia.
    + simpl in R1. eapply Forall_impl; [exact R1|]. intros f. cbv beta. lia.
  - intros Hc. split; apply GuardFacts.comment_has_no_signal, Hc.
Qed.

Lemma guard_token_suppresses_from_its_line_witness :
  (forall k,
     Z.of_nat 1 < k <= Z.of_nat (1 + 1 + 2) ->
     reentrancyAt "safe.sol" guardInComment k = [])
  /\ (isComment (TrimSpace "    // add nonReentrant later") = true ->
      callSignal "    // add nonReentrant later" = false
      /\ mutationSignal "    // add nonReentrant later" = false).
Proof.
  exact (guard_token_suppresses_from_its_line "safe.sol"
           [ "function withdraw() public {" ]
           "    // add nonReentrant later"
           [ "    msg.sender.call{value: amount}(data);";
             "    balances[msg.sender] = 0;" ]
           [ "}" ]
           eq_refl ltac:(repeat constructor)).
Defined.

(** C10, as worded.  A comment that holds ["function "] and an opening
    parenthesis is taken for a declaration: it ends the guard of the
    function around it, and the state change after the call is reported
    although the function carries [nonReentrant]. *)
Lemma guard_reset_by_declaration_like_comment :
  guardLine "function withdraw() public nonReentrant {" = true
  /\ isComment (TrimSpace "    // see function helper() below") = true
  /\ declLine "    // see function helper() below" = true
  /\ map Lines (checkReentrancyInFile "vault.sol" guardThenComment) = [[3; 4]].
Proof.
  repeat split; vm_compute; reflexivity.
Qed.

(** ** Access control: the camelCase test looks at the lower-cased line *)

Lemma lowerByte_not_upper (c : ascii) : isUpper (lowerByte c) = false.
Proof.
  unfold isUpper, lowerByte.
  change (nat_of_ascii "A") with 65%nat. change (nat_of_ascii "Z") with 90%nat.
  destruct ((65 <=? nat_of_ascii c) && (nat_of_ascii c <=? 90))%nat eqn:E.
  - apply andb_true_iff in E as [E1 E2].
    apply Nat.leb_le in E1, E2.
    rewrite nat_ascii_embedding by lia.
    apply andb_false_iff. right. apply Nat.leb_gt. lia.
  - exact E.
Qed.

Lemma ToLower_no_upper (s : string) :
  allBytes (fun c => negb (isUpper c)) (ToLower s) = true.
Proof.
  induction s as [|c s IH]; simpl; [reflexivity|].
  rewrite lowerByte_not_upper, IH. reflexivity.
Qed.

Lemma allBytes_drop (P : ascii -> bool) (n : nat) : forall s,
  allBytes P s = true -> allBytes P (drop n s) = true.
Proof.
  induction n as [|n IH]; intros [|c s] H; simpl; try assumption.
  apply IH. simpl in H. apply andb_true_iff in H as [_ H]. exact H.
Qed.

(** Whatever the line and the keyword, a match of [containsFunctionNamed]
    has an opening parenthesis right after the keyword: the upper-case
    alternative is never taken. *)
Lemma containsFunctionNamed_only_paren (line keyword : string) :
  AccessControl.containsFunctionNamed line keyword = true ->
  HasPrefix
    (drop (Z.to_nat (Index (ToLower line) ("function " +:+ keyword)
                     + len "function " + len keyword))
          (ToLower line))
    "(" = true.
Proof.
  unfold AccessControl.containsFunctionNamed.
  destruct (_ <? 0); [discriminate|].
  pose proof (allBytes_drop (fun c => negb (isUpper c))
    (Z.to_nat (Index (ToLower line) ("function " +:+ keyword)
               + len "function " + len keyword))
    (ToLower line) (ToLower_no_upper line)) as Hno.
  destruct (drop _ (ToLower line)) as [|c after]; [simpl; discriminate|].
  simpl in Hno. apply andb_true_iff in Hno as [Hc _].
  apply negb_true_iff in Hc. unfold isUpper in Hc. rewrite Hc, orb_false_r.
  trivial.
Qed.

(** C6 on the code: a bare [mint] declaration is flagged at Critical, while
    the camelCase [mintTokens] declaration, public and without any guard,
    and the catalog keyword [setOwner] (which holds a capital letter) are
    not flagged at all.  In general a match of [containsFunctionNamed] has
    the opening parenthesis right after the keyword: the camelCase
    alternative is looked for in the lower-cased line and never found. *)
Theorem access_control_misses_camelCase :
  map (fun f => (Sev f, Lines f)) (checkAccessControlInFile "token.sol" [mintLine])
  = [(SeverityCritical, [1])]
  /\ checkAccessControlInFile "token.sol" [mintTokensLine] = []
  /\ AccessControl.hasAccessModifier (TrimSpace mintTokensLine) = false
  /\ Contains (TrimSpace mintTokensLine) " internal " = false
  /\ Contains (TrimSpace mintTokensLine) " private " = false
  /\ checkAccessControlInFile "token.sol" [setOwnerLine] = []
  /\ (forall line keyword,
        AccessControl.containsFunctionNamed line keyword = true ->
        HasPrefix
          (drop (Z.to_nat (Index (ToLower line) ("function " +:+ keyword)
                           + len "function " + len keyword))
                (ToLower line))
          "(" = true).
Proof.
  repeat split; try (vm_compute; reflexivity).
  exact containsFunctionNamed_only_paren.
Qed.

(** ** Integer overflow: a file without pragma line *)

Lemma overflow_scan_no_pragma path ls : forall found n u b,
  Forall (fun l => pragmaLine l = false) ls ->
  exists b' u',
    IntegerOverflow.scan path (IntegerOverflow.mkState found n 0 0 b u) ls
    = IntegerOverflow.mkState
        (IntegerOverflow.findings
           (IntegerOverflow.scan path (IntegerOverflow.mkState found n 0 0 b u) ls))
        (n + Z.of_nat (length ls)) 0 0 b' u'
    /\ map Lines
         (IntegerOverflow.findings
            (IntegerOverflow.scan path (IntegerOverflow.mkState found n 0 0 b u) ls))
       = map Lines found ++ map (fun k => [k]) (flaggedLinesFrom n ls)
    /\ (Forall (fun f => Sev f = SeverityHigh) found ->
        Forall (fun f => Sev f = SeverityHigh)
          (IntegerOverflow.findings
             (IntegerOverflow.scan path (IntegerOverflow.mkState found n 0 0 b u) ls))).
Proof.
  induction ls as [|l ls IH]; intros found n u b Hls.
  - exists b, u. simpl. rewrite Z.add_0_r, app_nil_r. auto.
  - inversion Hls as [|? ? Hp Hls']; subst.
    assert (Hstep : exists b1 u1,
              IntegerOverflow.step path (IntegerOverflow.mkState found n 0 0 b u) l
              = IntegerOverflow.mkState
                  (found ++ if flaggedBelowThreshold l
                            then [IntegerOverflow.overflowFinding path (n + 1) 0 0 found]
                            else [])
                  (n + 1) 0 0 b1 u1).
    { unfold IntegerOverflow.step, flaggedBelowThreshold, arithmeticLine.
      unfold pragmaLine in Hp. rewrite Hp. simpl.
      eexists _, _. f_equal.
      destruct (IntegerOverflow.containsArithmetic (TrimSpace l)
                && negb (Contains (TrimSpace l) "SafeMath")
                && negb (isComment (TrimSpace l))); [reflexivity|].
      symmetry. apply app_nil_r. }
    destruct Hstep as (b1 & u1 & Hstep). simpl. rewrite Hstep.
    destruct (IH (found ++ if flaggedBelowThreshold l
                           then [IntegerOverflow.overflowFinding path (n + 1) 0 0 found]
                           else []) (n + 1) u1 b1 Hls')
      as (b' & u' & E & HL & HS).
    exists b', u'. split; [|split].
    + rewrite E at 1. f_equal. simpl length. lia.
    + rewrite HL, map_app, <- app_assoc. f_equal.
      destruct (flaggedBelowThreshold l); reflexivity.
    + intros Hfound. apply HS. apply Forall_app. split; [exact Hfound|].
      destruct (flaggedBelowThreshold l); repeat constructor.
Qed.

(** C7 on the code: in a file without pragma line the version variables
    keep Go's zero values, which read as version 0.0, so every arithmetic
    line that is no comment and does not mention SafeMath gets a High
    "below threshold" finding ([noPragma] has one, on line 3); whereas a
    pragma line from which no version can be read gives the safe 0.8. *)
Theorem no_pragma_is_below_threshold :
  map (fun f => (Check f, Sev f, Lines f))
      (checkIntegerOverflowInFile "counter.sol" noPragma)
  = [("custom-integer-overflow", SeverityHigh, [3])]
  /\ existsb pragmaLine noPragma = false
  /\ IntegerOverflow.extractSolidityVersion "pragma solidity;" = (0, 8)
  /\ (forall path ls,
        Forall (fun l => pragmaLine l = false) ls ->
        map Lines (checkIntegerOverflowInFile path ls)
        = map (fun k => [k]) (flaggedLinesFrom 0 ls)
        /\ Forall (fun f => Sev f = SeverityHigh)
             (checkIntegerOverflowInFile path ls)).
Proof.
  split; [vm_compute; reflexivity|].
  split; [vm_compute; reflexivity|].
  split; [vm_compute; reflexivity|].
  intros path ls Hls. unfold checkIntegerOverflowInFile, IntegerOverflow.init.
  destruct (overflow_scan_no_pragma path ls [] 0 0 false Hls) as (b' & u' & _ & HL & HS).
  split; [exact HL | apply HS; constructor].
Qed.

(** * Further properties of the code *)

(** ** Severities and the Slither parser *)

Lemma SeverityRank_cases (s : Severity) :
  (s = SeverityCritical /\ SeverityRank s = 0)
  \/ (s = SeverityHigh /\ SeverityRank s = 1)
  \/ (s = SeverityMedium /\ SeverityRank s = 2)
  \/ (s = SeverityLow /\ SeverityRank s = 3)
  \/ (s = SeverityInformational /\ SeverityRank s = 4)
  \/ (s = SeverityOptimization /\ SeverityRank s = 5)
  \/ (isEnumerated s = false /\ SeverityRank s = 6).
Proof.
  unfold SeverityRank, isEnumerated. cbn [existsb].
  destruct (String.eqb_spec s SeverityCritical); [tauto|].
  destruct (String.eqb_spec s SeverityHigh); [tauto|].
  destruct (String.eqb_spec s SeverityMedium); [tauto|].
  destruct (String.eqb_spec s SeverityLow); [tauto|].
  destruct (String.eqb_spec s SeverityInformational); [tauto|].
  destruct (String.eqb_spec s SeverityOptimization); [tauto|].
  repeat right. split; reflexivity.
Qed.

Ltac rank_cases s :=
  destruct (SeverityRank_cases s)
    as [[? ?]|[[? ?]|[[? ?]|[[? ?]|[[? ?]|[[? ?]|[? ?]]]]]]].

(** X1. [SeverityRank] numbers the six severities 0 to 5 in the order
    Critical, High, Medium, Low, Informational, Optimization; every other
    string, and no severity, has rank 6; two strings of the same rank below
    6 are the same severity. *)
Theorem SeverityRank_orders_the_enumeration (s : Severity) :
  map SeverityRank
    [ SeverityCritical; SeverityHigh; SeverityMedium; SeverityLow;
      SeverityInformational; SeverityOptimization ]
  = [0; 1; 2; 3; 4; 5]
  /\ 0 <= SeverityRank s <= 6
  /\ (SeverityRank s = 6 <-> isEnumerated s = false)
  /\ (forall s', SeverityRank s = SeverityRank s' -> SeverityRank s < 6 -> s = s').
Proof.
  split; [reflexivity|].
  split; [rank_cases s; lia|].
  split.
  - rewrite isEnumerated_rank. rewrite Z.ltb_ge. rank_cases s; lia.
  - intros s' E L. rank_cases s; rank_cases s'; subst; try reflexivity; lia.
Qed.

Lemma lowerByte_idem (c : ascii) : lowerByte (lowerByte c) = lowerByte c.
Proof.
  pose proof (lowerByte_not_upper c) as H. unfold isUpper in H.
  change (nat_of_ascii "A") with 65%nat in H.
  change (nat_of_ascii "Z") with 90%nat in H.
  unfold lowerByte at 1. rewrite H. reflexivity.
Qed.

Lemma ToLower_idem (s : string) : ToLower (ToLower s) = ToLower s.
Proof.
  induction s as [|c s IH]; simpl; [reflexivity|].
  rewrite lowerByte_idem, IH. reflexivity.
Qed.

Lemma isEnumerated_cases (s : Severity) :
  isEnumerated s = true ->
  s = SeverityCritical \/ s = SeverityHigh \/ s = SeverityMedium
  \/ s = SeverityLow \/ s = SeverityInformational \/ s = SeverityOptimization.
Proof.
  intros H. rank_cases s; try tauto. congruence.
Qed.

Lemma mapImpact_isEnumerated (impact : string) :
  isEnumerated (Parser.mapImpact impact) = true.
Proof.
  unfold Parser.mapImpact.
  repeat (match goal with |- context [String.eqb ?a ?b] => destruct (String.eqb a b) end);
    reflexivity.
Qed.

(** X2. On an impact of ASCII bytes, [mapImpact] yields one of the six
    severities, ignores the letter case of the impact, and maps the name
    of each severity, in any case, to that severity; a result other than
    Informational is the impact itself up to letter case, so every unknown
    impact becomes Informational. *)
Theorem mapImpact_total_on_the_enumeration (impact : string) :
  isASCII impact = true ->
  isEnumerated (Parser.mapImpact impact) = true
  /\ Parser.mapImpact (ToLower impact) = Parser.mapImpact impact
  /\ (isEnumerated impact = true ->
      Parser.mapImpact impact = impact
      /\ Parser.mapImpact (ToLower impact) = impact)
  /\ (Parser.mapImpact impact <> SeverityInformational ->
      ToLower impact = ToLower (Parser.mapImpact impact)).
Proof.
  intros _.
  split; [apply mapImpact_isEnumerated|].
  split; [unfold Parser.mapImpact; rewrite ToLower_idem; reflexivity|].
  split.
  - intros H.
    destruct (isEnumerated_cases impact H) as [->|[->|[->|[->|[->| ->]]]]];
      split; reflexivity.
  - unfold Parser.mapImpact.
    destruct (String.eqb_spec (ToLower impact) "critical") as [->|]; [reflexivity|].
    destruct (String.eqb_spec (ToLower impact) "high") as [->|]; [reflexivity|].
    destruct (String.eqb_spec (ToLower impact) "medium") as [->|]; [reflexivity|].
    destruct (String.eqb_spec (ToLower impact) "low") as [->|]; [reflexivity|].
    destruct (String.eqb_spec (ToLower impact) "informational") as [->|]; [reflexivity|].
    destruct (String.eqb_spec (ToLower impact) "optimization") as [->|]; [reflexivity|].
    intros H. contradiction H. reflexivity.
Qed.

Lemma mapImpact_total_on_the_enumeration_witness :
  isEnumerated (Parser.mapImpact "HIGH") = true
  /\ Parser.mapImpact (ToLower "HIGH") = Parser.mapImpact "HIGH"
  /\ (isEnumerated "HIGH" = true ->
      Parser.mapImpact "HIGH" = "HIGH"
      /\ Parser.mapImpact (ToLower "HIGH") = "HIGH")
  /\ (Parser.mapImpact "HIGH" <> SeverityInformational ->
      ToLower "HIGH" = ToLower (Parser.mapImpact "HIGH")).
Proof.
  apply (mapImpact_total_on_the_enumeration "HIGH"). reflexivity.
Defined.

(** *** The findings [ParseBytes] builds *)

Lemma filter_all {A} (p : A -> bool) (l : list A) :
  Forall (fun x => p x = true) l -> List.filter p l = l.
Proof.
  induction 1 as [|x l Hx _ IH]; simpl; [reflexivity|].
  rewrite Hx, IH. reflexivity.
Qed.

Lemma buildSummary_enumerated (fs : list Finding) :
  Forall (fun f => isEnumerated (Sev f) = true) fs ->
  Total (buildSummary fs) = sumCounts (buildSummary fs).
Proof.
  intros H. unfold buildSummary.
  destruct (fold_countFinding fs (mkSummary (lenF fs) 0 0 0 0 0 0)) as [T S].
  rewrite T, S. rewrite (filter_all _ _ H). unfold sumCounts, lenF. simpl. lia.
Qed.

Lemma findingsFrom_length ds : forall i,
  length (Parser.findingsFrom i ds) = length ds.
Proof.
  induction ds as [|d ds IH]; intros i; simpl; [reflexivity|].
  rewrite IH. reflexivity.
Qed.

Lemma findingsFrom_lookup ds : forall i k d,
  ds !! k = Some d ->
  Parser.findingsFrom i ds !! k = Some (Parser.findingOf (i + Z.of_nat k) d).
Proof.
  induction ds as [|d0 ds IH]; intros i k d H; [discriminate|].
  destruct k as [|k]; simpl in *.
  - inversion H; subst. rewrite Z.add_0_r. reflexivity.
  - rewrite (IH (i + 1) k d H). do 2 f_equal. lia.
Qed.

Lemma findingsFrom_Forall (P : Finding -> Prop) ds :
  (forall i d, P (Parser.findingOf i d)) ->
  forall i, Forall P (Parser.findingsFrom i ds).
Proof.
  intros H. induction ds as [|d ds IH]; intros i; simpl; constructor; auto.
Qed.

Lemma findingOf_fields i d :
  Source (Parser.findingOf i d) = "slither"
  /\ Check (Parser.findingOf i d) = Slither.DCheck d
  /\ Confidence (Parser.findingOf i d) = Slither.DConfidence d
  /\ Sev (Parser.findingOf i d) = Parser.mapImpact (Slither.Impact d)
  /\ ID (Parser.findingOf i d) = "SLITHER-" +:+ GoStringsMore.d03 (i + 1)
  /\ SWCRef (Parser.findingOf i d) = default "" (Parser.swcRefs !! Slither.DCheck d)
  /\ References (Parser.findingOf i d) = Parser.referencesFor (Slither.DCheck d)
  /\ Remediation (Parser.findingOf i d) = Parser.remediationFor (Slither.DCheck d)
  /\ (File (Parser.findingOf i d), Lines (Parser.findingOf i d))
     = match Slither.Elements d with
       | el :: _ => (Slither.Filename (Slither.Mapping el),
                     Slither.MappedLines (Slither.Mapping el))
       | [] => ("", [])
       end.
Proof.
  unfold Parser.findingOf. destruct (Slither.Elements d); repeat split; reflexivity.
Qed.

(** X3. [ParseBytes] on a decoded Slither output: when [success] is false
    the result is the error "slither analysis failed: " followed by
    Slither's message, or by "unknown error" when there is none; otherwise
    there is one finding per detector, in the detectors' order, each with
    source "slither", the detector's check name and confidence, one of the
    six severities, and the file and lines of the detector's first element
    (empty when it has no element); so the summary of these findings has
    its total equal to the sum of its six counts. *)
Theorem ParseBytes_one_finding_per_detector (output : Slither.Output) :
  if Slither.Success output
  then exists fs,
         Parser.ParseBytes (Some output) = Ok fs
         /\ length fs = length (Slither.Detectors output)
         /\ map Check fs = map Slither.DCheck (Slither.Detectors output)
         /\ map Confidence fs = map Slither.DConfidence (Slither.Detectors output)
         /\ map (fun f => (File f, Lines f)) fs
            = map (fun d => match Slither.Elements d with
                            | el :: _ => (Slither.Filename (Slither.Mapping el),
                                          Slither.MappedLines (Slither.Mapping el))
                            | [] => ("", [])
                            end) (Slither.Detectors output)
         /\ Forall (fun f => Source f = "slither" /\ isEnumerated (Sev f) = true) fs
         /\ Total (buildSummary fs) = sumCounts (buildSummary fs)
  else Parser.ParseBytes (Some output)
       = Err ("slither analysis failed: "
              +:+ default "unknown error" (Slither.Error output)).
Proof.
  destruct output as [success error ds]. simpl. destruct success; simpl.
  - eexists. split; [reflexivity|].
    split; [apply findingsFrom_length|].
    assert (M : forall (B : Type) (g : Finding -> B) (h : Slither.Detector -> B),
              (forall i d, g (Parser.findingOf i d) = h d) ->
              forall i, map g (Parser.findingsFrom i ds) = map h ds).
    { intros B g h Hgh. induction ds as [|d ds IH]; intros i; simpl; [reflexivity|].
      rewrite Hgh, IH. reflexivity. }
    split; [apply M; intros; apply findingOf_fields|].
    split; [apply M; intros; apply findingOf_fields|].
    split; [apply M; intros; apply findingOf_fields|].
    assert (F : Forall (fun f => Source f = "slither" /\ isEnumerated (Sev f) = true)
                  (Parser.findingsFrom 0 ds)).
    { apply findingsFrom_Forall. intros i d. split; [apply findingOf_fields|].
      destruct (findingOf_fields i d) as (_ & _ & _ & -> & _).
      apply mapImpact_isEnumerated. }
    split; [exact F|].
    apply buildSummary_enumerated. eapply Forall_impl; [exact F|].
    intros f [_ H]. exact H.
  - destruct error; reflexivity.
Qed.

(** *** Identifiers and references of the parsed findings *)

Lemma pretty_N_go_head (x : N) : forall s,
  (0 < x)%N ->
  exists c rest, pretty_N_go x s = String c rest /\ c <> "0"%char.
Proof.
  induction (N.lt_wf_0 x) as [x _ IH]; intros s Hx.
  rewrite pretty_N_go_step by exact Hx.
  destruct (N.lt_ge_cases x 10) as [E|E].
  - rewrite N.div_small, pretty_N_go_0 by exact E.
    rewrite N.mod_small by exact E.
    eexists _, _. split; [reflexivity|].
    assert (x = 1 \/ x = 2 \/ x = 3 \/ x = 4 \/ x = 5 \/ x = 6
            \/ x = 7 \/ x = 8 \/ x = 9)%N as C by lia.
    destruct C as [->|[->|[->|[->|[->|[->|[->|[->| ->]]]]]]]]; discriminate.
  - apply IH; [apply N.div_lt; lia | apply N.div_str_pos; lia].
Qed.

Lemma pretty_pos_head (n : Z) :
  0 < n -> exists c rest, pretty n = String c rest /\ c <> "0"%char.
Proof.
  destruct n as [|p|p]; try lia. intros _.
  unfold pretty, pretty_Z, pretty, pretty_N.
  destruct (decide (N.pos p = 0%N)); [discriminate|].
  apply pretty_N_go_head. lia.
Qed.

Lemma zeros_S (k : nat) :
  String.concat "" (replicate (S k) "0")
  = String "0" (String.concat "" (replicate k "0")).
Proof. destruct k; reflexivity. Qed.

Lemma zeros_inj (k : nat) : forall k' a b c c' r r',
  a = String c r -> b = String c' r' -> c <> "0"%char -> c' <> "0"%char ->
  String.concat "" (replicate k "0") +:+ a
  = String.concat "" (replicate k' "0") +:+ b ->
  a = b.
Proof.
  induction k as [|k IH]; intros [|k'] a b c c' r r' -> -> Hc Hc' E.
  - exact E.
  - rewrite zeros_S in E. cbn in E. rewrite append_String in E.
    inversion E; subst. contradiction.
  - rewrite zeros_S in E. cbn in E. rewrite append_String in E.
    inversion E; subst. contradiction.
  - rewrite !zeros_S, !append_String in E. inversion E as [E'].
    exact (IH _ _ _ _ _ _ _ eq_refl eq_refl Hc Hc' E').
Qed.

Lemma d03_inj (n m : Z) :
  0 < n -> 0 < m -> GoStringsMore.d03 n = GoStringsMore.d03 m -> n = m.
Proof.
  intros Hn Hm. unfold GoStringsMore.d03.
  destruct (Z.ltb_spec n 0); [lia|]. destruct (Z.ltb_spec m 0); [lia|].
  unfold GoStringsMore.padZeros. intros E.
  destruct (pretty_pos_head n Hn) as (c & r & En & Hc).
  destruct (pretty_pos_head m Hm) as (c' & r' & Em & Hc').
  apply (inj pretty).
  exact (zeros_inj _ _ _ _ _ _ _ _ En Em Hc Hc' E).
Qed.

Lemma append_inj_l (p a b : string) : p +:+ a = p +:+ b -> a = b.
Proof.
  induction p as [|c p IH]; rewrite ?append_String, ?append_empty_l; intros E.
  - exact E.
  - inversion E. auto.
Qed.

Lemma findingsFrom_ids ds : forall i f,
  f ∈ Parser.findingsFrom i ds ->
  exists j, i <= j /\ ID f = "SLITHER-" +:+ GoStringsMore.d03 (j + 1).
Proof.
  induction ds as [|d ds IH]; intros i f H; simpl in H.
  - inversion H.
  - apply elem_of_cons in H as [->|H].
    + exists i. split; [lia|]. apply findingOf_fields.
    + destruct (IH _ _ H) as (j & Hj & E). exists j. split; [lia|exact E].
Qed.

Lemma findingsFrom_NoDup ds : forall i,
  0 <= i -> NoDup (map ID (Parser.findingsFrom i ds)).
Proof.
  induction ds as [|d ds IH]; intros i Hi; simpl; constructor.
  - intros Hin. apply (list_elem_of_fmap ID) in Hin as (f & E & Hf).
    destruct (findingsFrom_ids _ _ _ Hf) as (j & Hj & Ej).
    destruct (findingOf_fields i d) as (_ & _ & _ & _ & Ei & _).
    rewrite Ei, Ej in E. apply append_inj_l in E.
    apply d03_inj in E; lia.
  - apply IH. lia.
Qed.

(** X4. The findings of one [ParseBytes] call have pairwise distinct
    identifiers: the finding at position [k] (from 0) is "SLITHER-"
    followed by [k + 1] written with at least three digits. *)
Theorem ParseBytes_ids_are_distinct (output : Slither.Output) (fs : list Finding) :
  Parser.ParseBytes (Some output) = Ok fs ->
  NoDup (map ID fs)
  /\ (forall k f, fs !! k = Some f ->
        ID f = "SLITHER-" +:+ GoStringsMore.d03 (Z.of_nat k + 1))
  /\ (forall k, 0 <= k < 999 -> String.length (GoStringsMore.d03 (k + 1)) = 3%nat).
Proof.
  unfold Parser.ParseBytes. destruct (negb (Slither.Success output)); [discriminate|].
  intros E. inversion E; subst. clear E.
  split; [apply findingsFrom_NoDup; lia|].
  split.
  - intros k f Hk.
    assert (Hlen : (k < length (Slither.Detectors output))%nat).
    { rewrite <- (findingsFrom_length _ 0). eapply lookup_lt_Some; exact Hk. }
    destruct (lookup_lt_is_Some_2 _ _ Hlen) as [d Hd].
    rewrite (findingsFrom_lookup _ 0 k d Hd) in Hk. inversion Hk; subst.
    apply findingOf_fields.
  - intros k Hk.
    assert (Hall : forallb (fun k => Nat.eqb (String.length (GoStringsMore.d03 (Z.of_nat k + 1))) 3)
                     (seq 0 999) = true) by (vm_compute; reflexivity).
    rewrite forallb_forall in Hall.
    specialize (Hall (Z.to_nat k)). rewrite Z2Nat.id in Hall by lia.
    apply Nat.eqb_eq, Hall. apply in_seq. lia.
Qed.

Lemma ParseBytes_ids_are_distinct_witness :
  NoDup (map ID (Parser.findingsFrom 0
           [Slither.mkDetector "tx-origin" "High" "Medium" "a" [];
            Slither.mkDetector "tx-origin" "High" "Medium" "a" []]))
  /\ (forall k f,
        Parser.findingsFrom 0
          [Slither.mkDetector "tx-origin" "High" "Medium" "a" [];
           Slither.mkDetector "tx-origin" "High" "Medium" "a" []] !! k = Some f ->
        ID f = "SLITHER-" +:+ GoStringsMore.d03 (Z.of_nat k + 1))
  /\ (forall k, 0 <= k < 999 -> String.length (GoStringsMore.d03 (k + 1)) = 3%nat).
Proof.
  exact (ParseBytes_ids_are_distinct
           (Slither.mkOutput true None
              [Slither.mkDetector "tx-origin" "High" "Medium" "a" [];
               Slither.mkDetector "tx-origin" "High" "Medium" "a" []])
           _ eq_refl).
Defined.

Lemma swcRefs_entries (check swc : string) :
  Parser.swcRefs !! check = Some swc ->
  swc <> "" /\ barFree swc = true.
Proof.
  intros H. apply elem_of_list_to_map_2 in H.
  assert (F : Forall (fun e : string * string => snd e <> "" /\ barFree (snd e) = true)
                Parser.swcRefEntries).
  { repeat constructor; discriminate. }
  rewrite Forall_forall in F. exact (F _ H).
Qed.

Lemma remediationFor_nonempty (check : string) : Parser.remediationFor check <> "".
Proof.
  unfold Parser.remediationFor.
  destruct (Parser.remediations !! check) as [r|] eqn:E; [|discriminate].
  apply elem_of_list_to_map_2 in E.
  assert (F : Forall (fun e : string * string => snd e <> "") Parser.remediationEntries).
  { repeat constructor; discriminate. }
  rewrite Forall_forall in F. exact (F _ E).
Qed.

(** X5. For every parsed finding the references are the detector's wiki
    entry, followed by the SWC registry entry exactly when the finding has
    a cross-reference id; that id, when present, is one of the table and
    holds no ['|']; and the remediation text is never empty. *)
Theorem parsed_finding_references (i : Z) (d : Slither.Detector) :
  References (Parser.findingOf i d)
  = ("https://github.com/crytic/slither/wiki/Detector-Documentation#"
     +:+ Check (Parser.findingOf i d))
    :: (if String.eqb (SWCRef (Parser.findingOf i d)) "" then []
        else ["https://swcregistry.io/docs/" +:+ SWCRef (Parser.findingOf i d)])
  /\ barFree (SWCRef (Parser.findingOf i d)) = true
  /\ (SWCRef (Parser.findingOf i d) <> "" ->
      (Check (Parser.findingOf i d), SWCRef (Parser.findingOf i d))
      ∈ Parser.swcRefEntries)
  /\ Remediation (Parser.findingOf i d) <> "".
Proof.
  destruct (findingOf_fields i d) as (_ & -> & _ & _ & _ & -> & -> & -> & _).
  unfold Parser.referencesFor.
  destruct (Parser.swcRefs !! Slither.DCheck d) as [swc|] eqn:E; simpl.
  - destruct (swcRefs_entries _ _ E) as [Hne Hbar].
    destruct (String.eqb_spec swc ""); [contradiction|].
    split; [reflexivity|]. split; [exact Hbar|].
    split; [|apply remediationFor_nonempty].
    intros _. apply elem_of_list_to_map_2. exact E.
  - split; [reflexivity|]. split; [reflexivity|].
    split; [|apply remediationFor_nonempty].
    intros H. contradiction H. reflexivity.
Qed.

(** ** The scorer *)

Lemma Grade_cases (s : Z) :
  (s < 10 /\ Grade s = "A") \/ (10 <= s < 25 /\ Grade s = "B")
  \/ (25 <= s < 50 /\ Grade s = "C") \/ (50 <= s < 75 /\ Grade s = "D")
  \/ (75 <= s /\ Grade s = "F").
Proof.
  unfold Grade.
  destruct (Z.ltb_spec s 10); [tauto|].
  destruct (Z.ltb_spec s 25); [right; left; split; [lia|reflexivity]|].
  destruct (Z.ltb_spec s 50); [right; right; left; split; [lia|reflexivity]|].
  destruct (Z.ltb_spec s 75); [right; right; right; left; split; [lia|reflexivity]|].
  repeat right. split; [lia|reflexivity].
Qed.

Ltac grade_cases s :=
  destruct (Grade_cases s) as [[? ?]|[[? ?]|[[? ?]|[[? ?]|[? ?]]]]].

(** X6. [Grade] cuts all integers into five bands: A below 10 (negative
    scores included), B from 10 to 24, C from 25 to 49, D from 50 to 74 and
    F from 75 on (scores above 100 included); a higher score never gets a
    better grade. *)
Theorem Grade_bands_are_monotone (s : Z) :
  (Grade s = "A" <-> s < 10)
  /\ (Grade s = "B" <-> 10 <= s < 25)
  /\ (Grade s = "C" <-> 25 <= s < 50)
  /\ (Grade s = "D" <-> 50 <= s < 75)
  /\ (Grade s = "F" <-> 75 <= s)
  /\ (forall s', s <= s' -> gradeRank (Grade s) <= gradeRank (Grade s')).
Proof.
  do 5 (split; [split; intros H; grade_cases s; first [lia | congruence]|]).
  intros s' Hle. grade_cases s; grade_cases s';
    repeat match goal with H : Grade _ = _ |- _ => rewrite H; clear H end;
    first [lia | (cbn; lia)].
Qed.

Lemma Score_reportOf (r : AnalysisReport) : Score r = Score (reportOf (ReportSummary r)).
Proof. unfold Score, reportOf. cbn [ReportSummary]. reflexivity. Qed.

Lemma fold_countFinding_nonneg fs : forall s,
  0 <= Critical s -> 0 <= High s -> 0 <= Medium s -> 0 <= Low s ->
  0 <= Informational s -> 0 <= Optimization s ->
  0 <= Critical (fold_left countFinding fs s)
  /\ 0 <= High (fold_left countFinding fs s)
  /\ 0 <= Medium (fold_left countFinding fs s)
  /\ 0 <= Low (fold_left countFinding fs s)
  /\ 0 <= Informational (fold_left countFinding fs s)
  /\ 0 <= Optimization (fold_left countFinding fs s).
Proof.
  induction fs as [|f fs IH]; intros s H1 H2 H3 H4 H5 H6; simpl; [tauto|].
  apply IH; unfold countFinding;
    repeat (match goal with |- context [String.eqb ?a ?b] => destruct (String.eqb a b) end);
    simpl; lia.
Qed.

Lemma buildSummary_scorable (fs : list Finding) :
  lenF fs <= maxScoredFindings -> scorable (buildSummary fs).
Proof.
  intros Hlen. unfold scorable, buildSummary.
  destruct (fold_countFinding fs (mkSummary (lenF fs) 0 0 0 0 0 0)) as [_ S].
  destruct (fold_countFinding_nonneg fs (mkSummary (lenF fs) 0 0 0 0 0 0))
    as (H1 & H2 & H3 & H4 & H5 & H6); simpl; try lia.
  repeat (split; [assumption|]).
  pose proof (filter_length_le (fun f => isEnumerated (Sev f)) fs) as Hf.
  unfold sumCounts in S. simpl in S. unfold weightedSum, GoInt.MaxInt.
  unfold lenF, maxScoredFindings in Hlen.
  set (c := Critical _) in *. set (h := High _) in *. set (m := Medium _) in *.
  set (l := Low _) in *. set (i := Informational _) in *. set (o := Optimization _) in *.
  lia.
Qed.

(** X7. The score of a report whose summary was built from at most
    230584300921369395 findings is the weighted sum of the four counted
    severities, limited to 100; it lies between 0 and 100: no wrap-around
    can occur. *)
Theorem Score_of_built_summary (r : AnalysisReport) (fs : list Finding) :
  ReportSummary r = buildSummary fs ->
  lenF fs <= maxScoredFindings ->
  Score r = Z.min 100 (weightedSum (buildSummary fs))
  /\ 0 <= Score r <= 100.
Proof.
  intros E Hlen. rewrite Score_reportOf, E.
  pose proof (buildSummary_scorable fs Hlen) as Hs.
  rewrite (Score_in_range _ Hs).
  split; [reflexivity|].
  destruct Hs as (H1 & H2 & H3 & H4 & _). unfold weightedSum. lia.
Qed.

Lemma Score_of_built_summary_witness :
  Score (mkReport "t.sol" "" (buildSummary [tiedA; tiedB]) [tiedA; tiedB])
  = Z.min 100 (weightedSum (buildSummary [tiedA; tiedB]))
  /\ 0 <= Score (mkReport "t.sol" "" (buildSummary [tiedA; tiedB]) [tiedA; tiedB]) <= 100.
Proof.
  apply (Score_of_built_summary
           (mkReport "t.sol" "" (buildSummary [tiedA; tiedB]) [tiedA; tiedB])
           [tiedA; tiedB]).
  - reflexivity.
  - vm_compute. discriminate.
Defined.

(** X8. For counts that are non-negative and whose weighted sum is a Go
    [int]: the score is 0 exactly when there is no Critical, High, Medium
    or Low finding, and 100 exactly when the weighted sum reaches 100; the
    grade is A exactly when there are at most three Low findings and
    nothing more severe; one Critical finding excludes the grades A and B,
    and two Critical findings give F. *)
Theorem Score_and_grade_of_counts (s : Summary) :
  scorable s ->
  (Score (reportOf s) = 0
   <-> Critical s = 0 /\ High s = 0 /\ Medium s = 0 /\ Low s = 0)
  /\ (Score (reportOf s) = 100 <-> 100 <= weightedSum s)
  /\ (Grade (Score (reportOf s)) = "A"
      <-> Critical s = 0 /\ High s = 0 /\ Medium s = 0 /\ Low s <= 3)
  /\ (1 <= Critical s -> 25 <= Score (reportOf s)
      /\ Grade (Score (reportOf s)) <> "A" /\ Grade (Score (reportOf s)) <> "B")
  /\ (2 <= Critical s -> Grade (Score (reportOf s)) = "F").
Proof.
  intros Hs. rewrite (Score_in_range _ Hs).
  destruct Hs as (H1 & H2 & H3 & H4 & _). unfold weightedSum.
  split; [lia|]. split; [lia|].
  split.
  - grade_cases (Z.min 100 (Critical s * 40 + High s * 20 + Medium s * 10 + Low s * 3));
      split; intros; first [lia | congruence].
  - split.
    + intros Hc.
      grade_cases (Z.min 100 (Critical s * 40 + High s * 20 + Medium s * 10 + Low s * 3));
        repeat split; first [lia | congruence].
    + intros Hc.
      grade_cases (Z.min 100 (Critical s * 40 + High s * 20 + Medium s * 10 + Low s * 3));
        first [lia | assumption].
Qed.

Lemma Score_and_grade_of_counts_witness :
  (Score (reportOf (mkSummary 3 0 0 0 3 0 0)) = 0
   <-> Critical (mkSummary 3 0 0 0 3 0 0) = 0 /\ High (mkSummary 3 0 0 0 3 0 0) = 0
       /\ Medium (mkSummary 3 0 0 0 3 0 0) = 0 /\ Low (mkSummary 3 0 0 0 3 0 0) = 0)
  /\ (Score (reportOf (mkSummary 3 0 0 0 3 0 0)) = 100
      <-> 100 <= weightedSum (mkSummary 3 0 0 0 3 0 0))
  /\ (Grade (Score (reportOf (mkSummary 3 0 0 0 3 0 0))) = "A"
      <-> Critical (mkSummary 3 0 0 0 3 0 0) = 0 /\ High (mkSummary 3 0 0 0 3 0 0) = 0
          /\ Medium (mkSummary 3 0 0 0 3 0 0) = 0 /\ Low (mkSummary 3 0 0 0 3 0 0) <= 3)
  /\ (1 <= Critical (mkSummary 3 0 0 0 3 0 0) ->
      25 <= Score (reportOf (mkSummary 3 0 0 0 3 0 0))
      /\ Grade (Score (reportOf (mkSummary 3 0 0 0 3 0 0))) <> "A"
      /\ Grade (Score (reportOf (mkSummary 3 0 0 0 3 0 0))) <> "B")
  /\ (2 <= Critical (mkSummary 3 0 0 0 3 0 0) ->
      Grade (Score (reportOf (mkSummary 3 0 0 0 3 0 0))) = "F").
Proof.
  apply (Score_and_grade_of_counts (mkSummary 3 0 0 0 3 0 0)).
  unfold scorable, weightedSum, GoInt.MaxInt. cbn. lia.
Defined.

(** X9. The verdict is a function of the grade, one text per grade, so two
    scores have the same verdict exactly when they have the same grade; a
    negative score, which [Score] returns after a wrap-around, is graded A
    and judged low risk. *)
Theorem Verdict_follows_the_grade (s : Z) :
  (forall s', Verdict s = Verdict s' <-> Grade s = Grade s')
  /\ (Grade s = "F" <-> Verdict s = "🚨 Critical risk. This contract must not be deployed.")
  /\ (s < 0 ->
      Grade s = "A" /\ Verdict s = "✅ Low risk. Review findings before deployment.").
Proof.
  split; [|split].
  - intros s'. unfold Verdict.
    grade_cases s; grade_cases s';
      repeat match goal with H : Grade _ = _ |- _ => rewrite H; clear H end;
      cbn; split; intros E; first [reflexivity | discriminate E].
  - unfold Verdict. grade_cases s;
      repeat match goal with H : Grade _ = _ |- _ => rewrite H; clear H end;
      cbn; split; intros E; first [reflexivity | discriminate E].
  - intros Hneg. unfold Verdict. grade_cases s; try lia.
    repeat match goal with H : Grade _ = _ |- _ => rewrite H; clear H end.
    split; reflexivity.
Qed.

(** ** The consolidator *)

Lemma countFinding_counts (s : Summary) (f : Finding) :
  countFinding s f
  = mkSummary (Total s)
      (Critical s + countSev SeverityCritical [f])
      (High s + countSev SeverityHigh [f])
      (Medium s + countSev SeverityMedium [f])
      (Low s + countSev SeverityLow [f])
      (Informational s + countSev SeverityInformational [f])
      (Optimization s + countSev SeverityOptimization [f]).
Proof.
  unfold countFinding, countSev. cbn [List.filter].
  destruct s as [t c h m l i o]. cbn [Total Critical High Medium Low Informational Optimization].
  destruct (String.eqb_spec (Sev f) SeverityCritical) as [E|E1];
    [try rewrite E; cbn; f_equal; lia|].
  destruct (String.eqb_spec (Sev f) SeverityHigh) as [E|E2];
    [try rewrite E; cbn; f_equal; lia|].
  destruct (String.eqb_spec (Sev f) SeverityMedium) as [E|E3];
    [try rewrite E; cbn; f_equal; lia|].
  destruct (String.eqb_spec (Sev f) SeverityLow) as [E|E4];
    [try rewrite E; cbn; f_equal; lia|].
  destruct (String.eqb_spec (Sev f) SeverityInformational) as [E|E5];
    [try rewrite E; cbn; f_equal; lia|].
  destruct (String.eqb_spec (Sev f) SeverityOptimization) as [E|E6];
    [try rewrite E; cbn; f_equal; lia|].
  cbn. f_equal; lia.
Qed.

Lemma countSev_cons sev f fs : countSev sev (f :: fs) = countSev sev [f] + countSev sev fs.
Proof.
  unfold countSev. cbn [List.filter].
  destruct (String.eqb (Sev f) sev); cbn [length]; lia.
Qed.

Lemma fold_countFinding_counts fs : forall s,
  fold_left countFinding fs s
  = mkSummary (Total s)
      (Critical s + countSev SeverityCritical fs)
      (High s + countSev SeverityHigh fs)
      (Medium s + countSev SeverityMedium fs)
      (Low s + countSev SeverityLow fs)
      (Informational s + countSev SeverityInformational fs)
      (Optimization s + countSev SeverityOptimization fs).
Proof.
  induction fs as [|f fs IH]; intros s.
  - destruct s. unfold countSev. cbn. f_equal; lia.
  - cbn [fold_left]. rewrite IH, countFinding_counts.
    cbn [Total Critical High Medium Low Informational Optimization].
    rewrite (countSev_cons SeverityCritical f fs), (countSev_cons SeverityHigh f fs),
      (countSev_cons SeverityMedium f fs), (countSev_cons SeverityLow f fs),
      (countSev_cons SeverityInformational f fs), (countSev_cons SeverityOptimization f fs).
    f_equal; lia.
Qed.

Lemma countSev_perm sev fs fs' : fs ≡ₚ fs' -> countSev sev fs = countSev sev fs'.
Proof.
  induction 1 as [|x l l' _ IH|x y l|l l' l'' _ IH1 _ IH2].
  - reflexivity.
  - rewrite (countSev_cons sev x l), (countSev_cons sev x l'). lia.
  - rewrite (countSev_cons sev y (x :: l)), (countSev_cons sev x l),
      (countSev_cons sev x (y :: l)), (countSev_cons sev y l). lia.
  - lia.
Qed.

Lemma buildSummary_counts (fs : list Finding) :
  buildSummary fs
  = mkSummary (lenF fs)
      (countSev SeverityCritical fs) (countSev SeverityHigh fs)
      (countSev SeverityMedium fs) (countSev SeverityLow fs)
      (countSev SeverityInformational fs) (countSev SeverityOptimization fs).
Proof.
  unfold buildSummary. rewrite fold_countFinding_counts. reflexivity.
Qed.

Lemma buildSummary_perm (fs fs' : list Finding) :
  fs ≡ₚ fs' -> buildSummary fs = buildSummary fs'.
Proof.
  intros H. rewrite !buildSummary_counts.
  unfold lenF. rewrite (Permutation_length H).
  rewrite !(countSev_perm _ fs fs' H). reflexivity.
Qed.

(** X10. Each count of the summary is the number of findings with exactly
    that severity, and the total is the number of all findings; so the
    summary is the same for every rearrangement of the findings. *)
Theorem buildSummary_counts_each_severity (fs : list Finding) :
  buildSummary fs
  = mkSummary (lenF fs)
      (countSev SeverityCritical fs) (countSev SeverityHigh fs)
      (countSev SeverityMedium fs) (countSev SeverityLow fs)
      (countSev SeverityInformational fs) (countSev SeverityOptimization fs)
  /\ (forall fs', fs ≡ₚ fs' -> buildSummary fs = buildSummary fs')
  /\ (forall fs', buildSummary (fs ++ fs')
                  = mkSummary (lenF fs + lenF fs')
                      (Critical (buildSummary fs) + Critical (buildSummary fs'))
                      (High (buildSummary fs) + High (buildSummary fs'))
                      (Medium (buildSummary fs) + Medium (buildSummary fs'))
                      (Low (buildSummary fs) + Low (buildSummary fs'))
                      (Informational (buildSummary fs) + Informational (buildSummary fs'))
                      (Optimization (buildSummary fs) + Optimization (buildSummary fs'))).
Proof.
  split; [apply buildSummary_counts|].
  split; [intros fs'; apply buildSummary_perm|].
  intros fs'. rewrite !buildSummary_counts.
  cbn [Critical High Medium Low Informational Optimization].
  unfold countSev, lenF. rewrite !List.filter_app, !length_app. f_equal; lia.
Qed.

(** *** Deduplication *)

Lemma keepFirst_fresh_all {K : Type} `{EqDecision K} (key : Finding -> K)
    (fs : list Finding) : forall seen,
  NoDup (map key fs) -> (forall f, f ∈ fs -> key f ∉ seen) ->
  keepFirst key seen fs = fs.
Proof.
  induction fs as [|f fs IH]; intros seen Hnd Hfresh; simpl; [reflexivity|].
  inversion Hnd as [|? ? Hnotin Hnd']; subst.
  destruct (decide (key f ∈ seen)) as [Hin|_].
  - exfalso. exact (Hfresh f (list_elem_of_here _ _) Hin).
  - f_equal. apply IH; [exact Hnd'|].
    intros g Hg Hin. apply elem_of_cons in Hin as [E|Hin].
    + apply Hnotin. rewrite <- E. apply (list_elem_of_fmap_2 key). exact Hg.
    + exact (Hfresh g (list_elem_of_further _ _ _ Hg) Hin).
Qed.

Lemma keepFirst_keys {K : Type} `{EqDecision K} (key : Finding -> K)
    (fs : list Finding) : forall seen f,
  f ∈ fs -> key f ∈ seen \/ key f ∈ map key (keepFirst key seen fs).
Proof.
  induction fs as [|g fs IH]; intros seen f Hf; [inversion Hf|].
  simpl. apply elem_of_cons in Hf as [->|Hf].
  - destruct (decide (key g ∈ seen)); [left; assumption|].
    right. simpl. apply list_elem_of_here.
  - destruct (decide (key g ∈ seen)) as [Hin|Hnotin].
    + apply IH. exact Hf.
    + destruct (IH (key g :: seen) f Hf) as [H|H].
      * apply elem_of_cons in H as [E|H]; [|left; exact H].
        right. simpl. rewrite E. apply list_elem_of_here.
      * right. simpl. apply list_elem_of_further. exact H.
Qed.

(** X11. Deduplication loses no key and invents none: the keys of the
    result are the keys of the input.  It returns the input unchanged
    exactly when the keys of the input are pairwise distinct, and never
    makes the list longer.  What it kept of a list stays, in place, when
    more findings are appended: the result for [fs ++ more] is the result
    for [fs] followed by findings of [more], in their order, none of which
    has the key of a finding of [fs]. *)
Theorem deduplicate_preserves_keys (fs : list Finding) :
  (forall k, k ∈ map dedupKey (deduplicate fs) <-> k ∈ map dedupKey fs)
  /\ (deduplicate fs = fs <-> NoDup (map dedupKey fs))
  /\ (length (deduplicate fs) <= length fs)%nat
  /\ (forall more, exists kept,
        deduplicate (fs ++ more) = deduplicate fs ++ kept
        /\ kept `sublist_of` more
        /\ Forall (fun g => dedupKey g ∉ map dedupKey fs) kept).
Proof.
  rewrite !deduplicate_keepFirst.
  split; [|split; [|split]].
  - intros k. split.
    + intros H. apply (list_elem_of_fmap dedupKey) in H as (g & -> & Hg).
      apply (list_elem_of_fmap_2 dedupKey).
      exact (elem_of_sublist _ _ _ Hg (keepFirst_sublist dedupKey fs [])).
    + intros H. apply (list_elem_of_fmap dedupKey) in H as (g & -> & Hg).
      destruct (keepFirst_keys dedupKey fs [] g Hg) as [H|H]; [inversion H|exact H].
  - split.
    + intros E. rewrite <- E. apply keepFirst_NoDup.
    + intros H. apply keepFirst_fresh_all; [exact H|].
      intros f _ Hin. inversion Hin.
  - apply sublist_length, keepFirst_sublist.
  - intros more. exists (keepFirst dedupKey (map dedupKey fs ++ []) more).
    split; [rewrite deduplicate_keepFirst; apply keepFirst_app|].
    split; [apply keepFirst_sublist|].
    apply Forall_forall. intros g Hg.
    apply keepFirst_keys_fresh in Hg. rewrite app_nil_r in Hg. exact Hg.
Qed.

(** ** The check functions on files and directories *)

Lemma openAndScan_readable (fs : FileSystem) (p : string) :
  openAndScan fs p
  = if readable fs p then Ok (linesOf fs p) else Err (scanError fs p).
Proof.
  unfold scanError, openAndScan, readable, linesOf.
  destruct (fs p) as [| |[[ls|e]|]|w]; reflexivity.
Qed.

Lemma checkFiles_spec (inFile : string -> list string -> list Finding)
    (fs : FileSystem) (files : list string) : forall found,
  checkFiles inFile fs files found
  = match find (fun p => negb (readable fs p)) files with
    | Some p => Err (scanError fs p)
    | None => Ok (found ++ concat (map (fun p => inFile p (linesOf fs p)) files))
    end.
Proof.
  induction files as [|p files IH]; intros found; simpl.
  - rewrite app_nil_r. reflexivity.
  - rewrite openAndScan_readable.
    destruct (readable fs p); simpl; [|reflexivity].
    rewrite IH. destruct (find _ files); [reflexivity|].
    rewrite app_assoc. reflexivity.
Qed.

Lemma runCheck_failed_any (inFile1 inFile2 : string -> list string -> list Finding)
    (fs : FileSystem) (target : string) :
  failed (runCheck inFile1 fs target) = failed (runCheck inFile2 fs target).
Proof.
  unfold runCheck. destruct (solidityFiles fs target) as [files|e]; [|reflexivity].
  rewrite !checkFiles_spec. destruct (find _ files); reflexivity.
Qed.

(** X12. A check function on a directory scans the files whose extension
    is [.sol], in the order of the walk, and concatenates their findings;
    other files are not even opened.  The first of the [.sol] files that
    cannot be opened or scanned to the end makes the whole check fail:
    with the error of [os.Open] wrapped behind ["opening <path>: "] when
    the file cannot be opened, with the error of the scanner as it is
    when the scan stops early.  On a target that is a regular file the
    file is scanned whatever its name, with the same two errors.  The
    three checks fail together or not at all. *)
Theorem runCheck_scans_the_sol_files (inFile : string -> list string -> list Finding)
    (fs : FileSystem) (target : string) :
  (forall paths, fs target = Directory (Some paths) ->
     match find (fun p => negb (readable fs p))
             (List.filter (fun p => String.eqb (Ext p) ".sol") paths) with
     | Some p =>
         exists e, runCheck inFile fs target = Err e
           /\ (fs p = RegularFile None ->
               exists cause, e = "opening " +:+ p +:+ ": " +:+ cause)
           /\ (forall cause, fs p = RegularFile (Some (Err cause)) -> e = cause)
     | None =>
         runCheck inFile fs target
         = Ok (concat (map (fun p => inFile p (linesOf fs p))
                         (List.filter (fun p => String.eqb (Ext p) ".sol") paths)))
     end)
  /\ (forall lines, fs target = RegularFile (Some (Ok lines)) ->
        runCheck inFile fs target = Ok (inFile target lines))
  /\ (forall cause, fs target = RegularFile (Some (Err cause)) ->
        runCheck inFile fs target = Err cause)
  /\ (fs target = RegularFile None ->
        exists cause,
          runCheck inFile fs target = Err ("opening " +:+ target +:+ ": " +:+ cause))
  /\ failed (CheckReentrancy fs target) = failed (runCheck inFile fs target)
  /\ failed (CheckAccessControl fs target) = failed (runCheck inFile fs target)
  /\ failed (CheckIntegerOverflow fs target) = failed (runCheck inFile fs target).
Proof.
  split; [|split; [|split; [|split; [|repeat split; apply runCheck_failed_any]]]].
  - intros paths E. unfold runCheck, solidityFiles. rewrite E.
    rewrite checkFiles_spec.
    destruct (find _ _) as [p|]; [|reflexivity].
    exists (scanError fs p). split; [reflexivity|].
    unfold scanError, openAndScan. split.
    + intros ->. exists osError. reflexivity.
    + intros cause ->. reflexivity.
  - intros lines E. unfold runCheck, solidityFiles. rewrite E.
    cbn [checkFiles]. unfold openAndScan. rewrite E. reflexivity.
  - intros cause E. unfold runCheck, solidityFiles. rewrite E.
    cbn [checkFiles]. unfold openAndScan. rewrite E. reflexivity.
  - intros E. exists osError. unfold runCheck, solidityFiles. rewrite E.
    cbn [checkFiles]. unfold openAndScan. rewrite E. reflexivity.
Qed.

(** ** The report of [Analyze] *)

Lemma runChecks_spec (fs : FileSystem) (target : string)
    (ext : list Finding) (w : list string) :
  runChecks fs target (ext, w)
  = (ext ++ okFindings (CheckReentrancy fs target)
         ++ okFindings (CheckAccessControl fs target)
         ++ okFindings (CheckIntegerOverflow fs target),
     w ++ (if failed (CheckReentrancy fs target) then ["reentrancy"] else [])
       ++ (if failed (CheckAccessControl fs target) then ["access-control"] else [])
       ++ (if failed (CheckIntegerOverflow fs target) then ["integer-overflow"] else [])).
Proof.
  unfold runChecks, customChecks. cbn [fold_left].
  destruct (CheckReentrancy fs target), (CheckAccessControl fs target),
    (CheckIntegerOverflow fs target); cbn [okFindings failed];
    rewrite ?app_nil_r, <- ?app_assoc; reflexivity.
Qed.

Lemma runChecks_warnings (fs : FileSystem) (target : string) (ext : list Finding) :
  snd (runChecks fs target (ext, [])) = []
  \/ snd (runChecks fs target (ext, [])) = allChecks.
Proof.
  rewrite runChecks_spec. cbn [snd].
  unfold CheckAccessControl, CheckIntegerOverflow, CheckReentrancy.
  rewrite (runCheck_failed_any checkAccessControlInFile checkReentrancyInFile),
    (runCheck_failed_any checkIntegerOverflowInFile checkReentrancyInFile).
  destruct (failed _); [right|left]; reflexivity.
Qed.

(** X13. Whatever the target and the external findings, the report of
    [Analyze] names the target and the time, its summary is the summary of
    its findings and its total their number; no two of its findings have
    the same key; each of its findings is an external finding or a finding
    of one of the three checks, every key among those is the key of a
    finding of the report, and when those keys are pairwise distinct the
    report holds all of them; the warnings name either no check or all
    three. *)
Theorem Analyze_report_invariants (sort_Slice : Sorter) (fs : FileSystem)
    (now target : string) (ext : list Finding) :
  SortSliceSpec sort_Slice ->
  let inputs :=
    ext ++ okFindings (CheckReentrancy fs target)
        ++ okFindings (CheckAccessControl fs target)
        ++ okFindings (CheckIntegerOverflow fs target) in
  exists report warnings,
    Analyze sort_Slice fs now target ext = (Ok report, warnings)
    /\ Target report = target /\ GeneratedAt report = now
    /\ ReportSummary report = buildSummary (Findings report)
    /\ Total (ReportSummary report) = lenF (Findings report)
    /\ NoDup (map dedupKey (Findings report))
    /\ (forall f, f ∈ Findings report -> f ∈ inputs)
    /\ (forall k, k ∈ map dedupKey (Findings report) <-> k ∈ map dedupKey inputs)
    /\ (lenF (Findings report) <= lenF inputs)
    /\ (NoDup (map dedupKey inputs) -> Findings report ≡ₚ inputs)
    /\ (warnings = [] \/ warnings = allChecks).
Proof.
  intros Hs inputs. rewrite Analyze_unfold, runChecks_spec. cbn [fst snd].
  fold inputs. eexists _, _. split; [reflexivity|].
  unfold reportFor. cbn [Target GeneratedAt ReportSummary Findings].
  pose proof (sort_Slice_perm _ Hs (deduplicate inputs)) as Hperm.
  split; [reflexivity|]. split; [reflexivity|]. split; [reflexivity|].
  split.
  { rewrite buildSummary_counts. reflexivity. }
  split.
  { rewrite Hperm, deduplicate_keepFirst. apply keepFirst_NoDup. }
  split.
  { intros f Hf. rewrite Hperm, deduplicate_keepFirst in Hf.
    exact (elem_of_sublist _ _ _ Hf (keepFirst_sublist dedupKey inputs [])). }
  split.
  { intros k. rewrite Hperm, deduplicate_keepFirst. split.
    - intros H. apply (list_elem_of_fmap dedupKey) in H as (g & -> & Hg).
      apply (list_elem_of_fmap_2 dedupKey).
      exact (elem_of_sublist _ _ _ Hg (keepFirst_sublist dedupKey inputs [])).
    - intros H. apply (list_elem_of_fmap dedupKey) in H as (g & -> & Hg).
      destruct (keepFirst_keys dedupKey inputs [] g Hg) as [H|H]; [inversion H|exact H]. }
  split.
  { unfold lenF. rewrite (Permutation_length Hperm), deduplicate_keepFirst.
    pose proof (sublist_length _ _ (keepFirst_sublist dedupKey inputs [])). lia. }
  split.
  { intros Hnd. rewrite Hperm, deduplicate_keepFirst.
    rewrite keepFirst_fresh_all; [reflexivity|exact Hnd|].
    intros f _ Hin. inversion Hin. }
  pose proof (runChecks_warnings fs target ext) as Hw.
  rewrite runChecks_spec in Hw. exact Hw.
Qed.

Lemma Analyze_report_invariants_witness :
  let inputs :=
    [tiedA; tiedB] ++ okFindings (CheckReentrancy mixedFS "src")
        ++ okFindings (CheckAccessControl mixedFS "src")
        ++ okFindings (CheckIntegerOverflow mixedFS "src") in
  exists report warnings,
    Analyze stableSort mixedFS "2026-01-01T00:00:00Z" "src" [tiedA; tiedB]
    = (Ok report, warnings)
    /\ Target report = "src" /\ GeneratedAt report = "2026-01-01T00:00:00Z"
    /\ ReportSummary report = buildSummary (Findings report)
    /\ Total (ReportSummary report) = lenF (Findings report)
    /\ NoDup (map dedupKey (Findings report))
    /\ (forall f, f ∈ Findings report -> f ∈ inputs)
    /\ (forall k, k ∈ map dedupKey (Findings report) <-> k ∈ map dedupKey inputs)
    /\ (lenF (Findings report) <= lenF inputs)
    /\ (NoDup (map dedupKey inputs) -> Findings report ≡ₚ inputs)
    /\ (warnings = [] \/ warnings = allChecks).
Proof.
  exact (Analyze_report_invariants stableSort mixedFS "2026-01-01T00:00:00Z" "src"
           [tiedA; tiedB] stableSort_spec).
Defined.

(** *** Findings that tie in the sort *)

Lemma leb_antisym (x y : string) :
  String.leb x y = true -> String.leb y x = true -> x = y.
Proof.
  unfold String.leb. rewrite (String.compare_antisym y x).
  destruct (String.compare x y) eqn:E; simpl; intros A B;
    [apply String.compare_eq_iff; exact E | discriminate B | discriminate A].
Qed.

Lemma sortKeyLe_antisym (a b : Z * string) :
  sortKeyLe a b -> sortKeyLe b a -> a = b.
Proof.
  destruct a as [r1 f1], b as [r2 f2]. unfold sortKeyLe. simpl.
  intros [H1|[E1 L1]] [H2|[E2 L2]]; try lia.
  f_equal; [exact E1 | exact (leb_antisym _ _ L1 L2)].
Qed.

Lemma sorted_sortKeys (sort_Slice : Sorter) (l : list Finding) :
  SortSliceSpec sort_Slice ->
  StronglySorted sortKeyLe (map sortKey (sort_Slice l)).
Proof.
  intros Hs. apply (StronglySorted_fmap sortKey rankFileLe sortKeyLe).
  - intros x y H. exact H.
  - apply SortSliceSpec_strongly, Hs.
Qed.

Lemma existsb_perm {A} (p : A -> bool) (l l' : list A) :
  l ≡ₚ l' -> existsb p l = existsb p l'.
Proof.
  induction 1 as [|x l l' _ IH|x y l|l l' l'' _ IH1 _ IH2]; simpl.
  - reflexivity.
  - rewrite IH. reflexivity.
  - destruct (p x), (p y); reflexivity.
  - congruence.
Qed.

(** X14. The order in which the sort leaves findings of equal severity
    rank and file shows nowhere but in the order of those findings: for
    any two sorting routines that meet the contract of [sort.Slice] the
    two reports hold the same findings, the same sequence of severity
    ranks and files, the same summary and the same score, and lead to the
    same exit code for every [--fail-on] value. *)
Theorem Analyze_ties_only_permute (sort1 sort2 : Sorter) (fs : FileSystem)
    (now target : string) (ext : list Finding) :
  SortSliceSpec sort1 -> SortSliceSpec sort2 ->
  exists r1 r2 warnings,
    Analyze sort1 fs now target ext = (Ok r1, warnings)
    /\ Analyze sort2 fs now target ext = (Ok r2, warnings)
    /\ Findings r1 ≡ₚ Findings r2
    /\ map sortKey (Findings r1) = map sortKey (Findings r2)
    /\ ReportSummary r1 = ReportSummary r2
    /\ Score r1 = Score r2
    /\ (forall failOn, Cmd.exitsWithFailure failOn r1 = Cmd.exitsWithFailure failOn r2).
Proof.
  intros H1 H2. rewrite !Analyze_unfold.
  set (inputs := fst (runChecks fs target (ext, []))).
  eexists _, _, _. split; [reflexivity|]. split; [reflexivity|].
  unfold reportFor. cbn [Findings ReportSummary].
  assert (P : sort1 (deduplicate inputs) ≡ₚ sort2 (deduplicate inputs)).
  { rewrite (sort_Slice_perm _ H1), (sort_Slice_perm _ H2). reflexivity. }
  assert (S : buildSummary (sort1 (deduplicate inputs))
              = buildSummary (sort2 (deduplicate inputs))).
  { apply buildSummary_perm, P. }
  split; [exact P|]. split; [|split; [exact S|split]].
  - apply (StronglySorted_unique_strong sortKeyLe).
    + intros x1 x2 _ _. apply sortKeyLe_antisym.
    + apply sorted_sortKeys, H1.
    + apply sorted_sortKeys, H2.
    + change (sortKey <$> sort1 (deduplicate inputs) ≡ₚ sortKey <$> sort2 (deduplicate inputs)).
      rewrite P. reflexivity.
  - unfold Score. cbn [ReportSummary]. rewrite S. reflexivity.
  - intros failOn. unfold Cmd.exitsWithFailure. cbn [Findings].
    destruct (negb (String.eqb failOn "none")); [|reflexivity].
    apply existsb_perm, P.
Qed.

Lemma Analyze_ties_only_permute_witness :
  exists r1 r2 warnings,
    Analyze stableSort missingFS "" "gone.sol" [tiedA; tiedB] = (Ok r1, warnings)
    /\ Analyze reversingSort missingFS "" "gone.sol" [tiedA; tiedB] = (Ok r2, warnings)
    /\ Findings r1 ≡ₚ Findings r2
    /\ map sortKey (Findings r1) = map sortKey (Findings r2)
    /\ ReportSummary r1 = ReportSummary r2
    /\ Score r1 = Score r2
    /\ (forall failOn, Cmd.exitsWithFailure failOn r1 = Cmd.exitsWithFailure failOn r2).
Proof.
  exact (Analyze_ties_only_permute stableSort reversingSort missingFS "" "gone.sol"
           [tiedA; tiedB] stableSort_spec reversingSort_spec).
Defined.

(** ** The exit code of the [analyze] command *)

Lemma countAtOrAbove_fold (threshold : Severity) (fs : list Finding) : forall c,
  fold_left
    (fun count f =>
       if SeverityRank (Sev f) <=? SeverityRank threshold then count + 1 else count)
    fs c
  = c + Z.of_nat (length (List.filter
                            (fun f => SeverityRank (Sev f) <=? SeverityRank threshold) fs)).
Proof.
  induction fs as [|f fs IH]; intros c; simpl; [lia|].
  rewrite IH. destruct (_ <=? _); simpl length; lia.
Qed.

Lemma countAtOrAbove_filter (fs : list Finding) (threshold : Severity) :
  Cmd.countAtOrAbove fs threshold
  = Z.of_nat (length (List.filter
                        (fun f => SeverityRank (Sev f) <=? SeverityRank threshold) fs)).
Proof. unfold Cmd.countAtOrAbove. rewrite countAtOrAbove_fold. lia. Qed.

Lemma countSev_one (sev : Severity) (f : Finding) :
  countSev sev [f] = if String.eqb (Sev f) sev then 1 else 0.
Proof.
  unfold countSev. cbn [List.filter]. destruct (String.eqb (Sev f) sev); reflexivity.
Qed.

Lemma rank_le_counted (f : Finding) (r : Z) :
  0 <= r <= 5 ->
  (if SeverityRank (Sev f) <=? r then 1 else 0)
  = countedUpTo r
      (mkSummary 1 (countSev SeverityCritical [f]) (countSev SeverityHigh [f])
         (countSev SeverityMedium [f]) (countSev SeverityLow [f])
         (countSev SeverityInformational [f]) (countSev SeverityOptimization [f])).
Proof.
  intros Hr. rewrite !countSev_one. unfold countedUpTo.
  cbn [Critical High Medium Low Informational Optimization].
  assert (C : r = 0 \/ r = 1 \/ r = 2 \/ r = 3 \/ r = 4 \/ r = 5) by lia.
  rank_cases (Sev f).
  7: { assert (E : forall sev, isEnumerated sev = true -> String.eqb (Sev f) sev = false).
       { intros sev Hsev. destruct (String.eqb_spec (Sev f) sev) as [E|]; [|reflexivity].
         rewrite E in H. congruence. }
       rewrite !E by reflexivity. rewrite H0.
       destruct C as [->|[->|[->|[->|[->| ->]]]]]; reflexivity. }
  all: rewrite H0, H; destruct C as [->|[->|[->|[->|[->| ->]]]]]; reflexivity.
Qed.

Lemma countedUpTo_add (r : Z) (a b : Summary) :
  countedUpTo r
    (mkSummary (Total a + Total b) (Critical a + Critical b) (High a + High b)
       (Medium a + Medium b) (Low a + Low b) (Informational a + Informational b)
       (Optimization a + Optimization b))
  = countedUpTo r a + countedUpTo r b.
Proof.
  unfold countedUpTo. cbn [Critical High Medium Low Informational Optimization].
  repeat (match goal with |- context [?x <=? r] => destruct (x <=? r) end); lia.
Qed.

Lemma countAtOrAbove_enumerated (fs : list Finding) (r : Z) :
  0 <= r <= 5 ->
  Z.of_nat (length (List.filter (fun f => SeverityRank (Sev f) <=? r) fs))
  = countedUpTo r (buildSummary fs).
Proof.
  intros Hr. induction fs as [|f fs IH].
  - unfold countedUpTo. cbn.
    repeat (match goal with |- context [?x <=? r] => destruct (x <=? r) end); reflexivity.
  - rewrite buildSummary_counts in *.
    rewrite (countSev_cons SeverityCritical f fs), (countSev_cons SeverityHigh f fs),
      (countSev_cons SeverityMedium f fs), (countSev_cons SeverityLow f fs),
      (countSev_cons SeverityInformational f fs), (countSev_cons SeverityOptimization f fs).
    replace (lenF (f :: fs)) with (1 + lenF fs) by (unfold lenF; simpl length; lia).
    pose proof (countedUpTo_add r
               (mkSummary 1 (countSev SeverityCritical [f]) (countSev SeverityHigh [f])
                  (countSev SeverityMedium [f]) (countSev SeverityLow [f])
                  (countSev SeverityInformational [f]) (countSev SeverityOptimization [f]))
               (mkSummary (lenF fs) (countSev SeverityCritical fs) (countSev SeverityHigh fs)
                  (countSev SeverityMedium fs) (countSev SeverityLow fs)
                  (countSev SeverityInformational fs) (countSev SeverityOptimization fs)))
      as Hadd.
    cbn [Total Critical High Medium Low Informational Optimization] in Hadd.
    rewrite Hadd.
    rewrite <- IH, <- (rank_le_counted f r Hr).
    cbn [List.filter]. destruct (_ <=? r); simpl length; lia.
Qed.

(** X15. The number [countAtOrAbove] prints is read off the summary: for a
    threshold among the six severities it is the sum of the summary's
    counts from Critical down to the threshold; for any other threshold it
    is the number of all findings.  It grows as the threshold gets less
    severe. *)
Theorem countAtOrAbove_reads_the_summary (fs : list Finding) (threshold : Severity) :
  Cmd.countAtOrAbove fs threshold
  = (if isEnumerated threshold
     then countedUpTo (SeverityRank threshold) (buildSummary fs)
     else lenF fs)
  /\ 0 <= Cmd.countAtOrAbove fs threshold <= lenF fs
  /\ (forall threshold',
        SeverityRank threshold <= SeverityRank threshold' ->
        Cmd.countAtOrAbove fs threshold <= Cmd.countAtOrAbove fs threshold').
Proof.
  rewrite countAtOrAbove_filter. split; [|split].
  - destruct (isEnumerated threshold) eqn:E.
    + apply countAtOrAbove_enumerated.
      rewrite isEnumerated_rank in E. apply Z.ltb_lt in E.
      rank_cases threshold; lia.
    + unfold lenF. rewrite filter_all; [reflexivity|].
      apply Forall_forall. intros f _. apply Z.leb_le.
      rewrite isEnumerated_rank in E. apply Z.ltb_ge in E.
      rank_cases (Sev f); rank_cases threshold; lia.
  - pose proof (filter_length_le
                  (fun f => SeverityRank (Sev f) <=? SeverityRank threshold) fs).
    unfold lenF. lia.
  - intros threshold' Hle. rewrite countAtOrAbove_filter.
    apply inj_le. induction fs as [|f fs IH]; simpl; [lia|].
    destruct (Z.leb_spec (SeverityRank (Sev f)) (SeverityRank threshold));
      destruct (Z.leb_spec (SeverityRank (Sev f)) (SeverityRank threshold'));
      simpl; lia.
Qed.

Lemma ToUpperByte_lowerByte (c : ascii) :
  GoStringsMore.ToUpperByte (lowerByte c) = GoStringsMore.ToUpperByte c.
Proof.
  destruct c as [[] [] [] [] [] [] [] []]; reflexivity.
Qed.

Lemma capitalize_ToLower (s : string) : Cmd.capitalize (ToLower s) = Cmd.capitalize s.
Proof.
  destruct s as [|c rest]; [reflexivity|].
  cbn [ToLower Cmd.capitalize]. rewrite ToUpperByte_lowerByte, ToLower_idem. reflexivity.
Qed.

Lemma existsb_filter_length {A} (p : A -> bool) (l : list A) :
  existsb p l = true <-> 0 < Z.of_nat (length (List.filter p l)).
Proof.
  induction l as [|x l IH]; simpl; [split; [discriminate|lia]|].
  destruct (p x); simpl; [split; [lia|reflexivity]|exact IH].
Qed.

(** X16. For a [--fail-on] value of ASCII bytes, the command ends with exit
    code 1 exactly when the value is not the lower-case word [none] and at
    least one finding is at the threshold severity or above.  The
    threshold is the severity whose name the value spells in any letter
    case; then the command fails exactly when the summary counts a finding
    from Critical down to that severity.  Any other word but [none], for
    example [NONE], is a threshold that every finding reaches: the command
    fails exactly when there is a finding. *)
Theorem exit_code_follows_fail_on (failOn : string) (report : AnalysisReport) :
  isASCII failOn = true ->
  Cmd.exitsWithFailure "none" report = false
  /\ (failOn <> "none" ->
      (Cmd.exitsWithFailure failOn report = true
       <-> 0 < Cmd.countAtOrAbove (Findings report) (Cmd.capitalize failOn)))
  /\ (forall sev, isEnumerated sev = true -> ToLower failOn = ToLower sev ->
        Cmd.capitalize failOn = sev
        /\ (Cmd.exitsWithFailure failOn report = true
            <-> 0 < countedUpTo (SeverityRank sev) (buildSummary (Findings report))))
  /\ (failOn <> "none" -> isEnumerated (Cmd.capitalize failOn) = false ->
      (Cmd.exitsWithFailure failOn report = true <-> Findings report <> [])).
Proof.
  intros _.
  assert (B : failOn <> "none" ->
              (Cmd.exitsWithFailure failOn report = true
               <-> 0 < Cmd.countAtOrAbove (Findings report) (Cmd.capitalize failOn))).
  { intros Hne. unfold Cmd.exitsWithFailure.
    destruct (String.eqb_spec failOn "none") as [E|_]; [contradiction|].
    cbn [negb]. rewrite countAtOrAbove_filter. apply existsb_filter_length. }
  split; [reflexivity|]. split; [exact B|]. split.
  - intros sev Hsev Hlow.
    assert (Hcap : Cmd.capitalize failOn = sev).
    { rewrite <- capitalize_ToLower, Hlow.
      destruct (isEnumerated_cases sev Hsev) as [->|[->|[->|[->|[->| ->]]]]]; reflexivity. }
    split; [exact Hcap|].
    assert (Hne : failOn <> "none").
    { intros ->. destruct (isEnumerated_cases sev Hsev) as [->|[->|[->|[->|[->| ->]]]]];
        discriminate Hlow. }
    rewrite (B Hne), Hcap, countAtOrAbove_filter.
    rewrite countAtOrAbove_enumerated; [reflexivity|].
    rewrite isEnumerated_rank in Hsev. apply Z.ltb_lt in Hsev.
    rank_cases sev; lia.
  - intros Hne Hun. rewrite (B Hne), countAtOrAbove_filter.
    rewrite filter_all.
    + destruct (Findings report); simpl; split; intros H; first [lia | congruence].
    + apply Forall_forall. intros f _. apply Z.leb_le.
      rewrite isEnumerated_rank in Hun. apply Z.ltb_ge in Hun.
      rank_cases (Sev f); rank_cases (Cmd.capitalize failOn); lia.
Qed.

Lemma exit_code_follows_fail_on_witness :
  Cmd.exitsWithFailure "none" (mkReport "gone.sol" "" (mkSummary 2 0 2 0 0 0 0) [tiedA; tiedB]) = false
  /\ ("HIGH" <> "none" ->
      (Cmd.exitsWithFailure "HIGH" (mkReport "gone.sol" "" (mkSummary 2 0 2 0 0 0 0) [tiedA; tiedB]) = true
       <-> 0 < Cmd.countAtOrAbove (Findings (mkReport "gone.sol" "" (mkSummary 2 0 2 0 0 0 0) [tiedA; tiedB])) (Cmd.capitalize "HIGH")))
  /\ (forall sev, isEnumerated sev = true -> ToLower "HIGH" = ToLower sev ->
        Cmd.capitalize "HIGH" = sev
        /\ (Cmd.exitsWithFailure "HIGH" (mkReport "gone.sol" "" (mkSummary 2 0 2 0 0 0 0) [tiedA; tiedB]) = true
            <-> 0 < countedUpTo (SeverityRank sev) (buildSummary (Findings (mkReport "gone.sol" "" (mkSummary 2 0 2 0 0 0 0) [tiedA; tiedB])))))
  /\ ("HIGH" <> "none" -> isEnumerated (Cmd.capitalize "HIGH") = false ->
      (Cmd.exitsWithFailure "HIGH" (mkReport "gone.sol" "" (mkSummary 2 0 2 0 0 0 0) [tiedA; tiedB]) = true <-> Findings (mkReport "gone.sol" "" (mkSummary 2 0 2 0 0 0 0) [tiedA; tiedB]) <> [])).
Proof.
  apply (exit_code_follows_fail_on "HIGH" (mkReport "gone.sol" "" (mkSummary 2 0 2 0 0 0 0) [tiedA; tiedB])). reflexivity.
Defined.

(** ** The SARIF reporter *)

Lemma addRule_fold (fs : list Finding) : forall (m : gmap string Sarif.Rule) k,
  fold_left Sarif.addRule fs m !! k
  = match m !! k with
    | Some r => Some r
    | None => sarifRuleOf <$> find (fun f => String.eqb (Check f) k) fs
    end.
Proof.
  induction fs as [|f fs IH]; intros m k; simpl.
  - destruct (m !! k); reflexivity.
  - rewrite IH. unfold Sarif.addRule.
    destruct (String.eqb_spec (Check f) k) as [E|E].
    + subst k. destruct (m !! Check f) eqn:Em; [rewrite Em; reflexivity|].
      rewrite lookup_insert. destruct (decide (Check f = Check f)); [reflexivity|congruence].
    + destruct (m !! Check f) eqn:Em; [reflexivity|].
      rewrite lookup_insert_ne by exact E. reflexivity.
Qed.

Lemma find_some_split {A} (p : A -> bool) (l : list A) (x : A) :
  find p l = Some x ->
  exists pre post, l = pre ++ x :: post /\ p x = true
                   /\ Forall (fun y => p y = false) pre.
Proof.
  induction l as [|y l IH]; simpl; [discriminate|].
  destruct (p y) eqn:E.
  - intros H. inversion H; subst. exists [], l. repeat split; [exact E|constructor].
  - intros H. destruct (IH H) as (pre & post & -> & Hx & Hpre).
    exists (y :: pre), post. repeat split; [exact Hx|constructor; assumption].
Qed.

(** X17. The SARIF output has one result per finding, in the findings'
    order, with the finding's check as rule id, its file as location and
    its first line as start line, or 1 when it has no line.  The rules are
    indexed by check: the checks with a rule are exactly the checks of the
    findings, so every result refers to a rule that is there, and the rule
    of a check is made from the first finding of that check.  A result is
    an error exactly for Critical and High, a warning for Medium, and a
    note for everything else. *)
Theorem sarif_results_refer_to_rules (report : AnalysisReport) :
  length (Sarif.resultsOf report) = length (Findings report)
  /\ map Sarif.ResultRuleID (Sarif.resultsOf report) = map Check (Findings report)
  /\ map Sarif.URI (Sarif.resultsOf report) = map File (Findings report)
  /\ map Sarif.StartLine (Sarif.resultsOf report)
     = map (fun f => List.hd 1 (Lines f)) (Findings report)
  /\ map Sarif.Level (Sarif.resultsOf report)
     = map (fun f => if SeverityRank (Sev f) <=? 1 then "error"
                     else if SeverityRank (Sev f) =? 2 then "warning" else "note")
         (Findings report)
  /\ (forall k, is_Some (Sarif.ruleMapOf report !! k) <-> k ∈ map Check (Findings report))
  /\ Forall (fun r => is_Some (Sarif.ruleMapOf report !! Sarif.ResultRuleID r))
       (Sarif.resultsOf report)
  /\ (forall k rule, Sarif.ruleMapOf report !! k = Some rule ->
        Sarif.RuleID rule = k
        /\ exists pre f post,
             Findings report = pre ++ f :: post
             /\ Forall (fun g => Check g <> k) pre
             /\ Check f = k /\ rule = sarifRuleOf f).
Proof.
  unfold Sarif.resultsOf, Sarif.ruleMapOf.
  assert (L : forall k, fold_left Sarif.addRule (Findings report) ∅ !! k
                        = sarifRuleOf <$> find (fun f => String.eqb (Check f) k)
                                            (Findings report)).
  { intros k. rewrite addRule_fold, lookup_empty. reflexivity. }
  assert (D : forall k, is_Some (fold_left Sarif.addRule (Findings report) ∅ !! k)
                        <-> k ∈ map Check (Findings report)).
  { intros k. rewrite L. split.
    - intros [r Hr]. destruct (find _ _) as [f|] eqn:Ef; [|discriminate].
      apply find_some_split in Ef as (pre & post & E & Hk & _).
      apply String.eqb_eq in Hk. subst k. rewrite E.
      apply (list_elem_of_fmap_2 Check). apply elem_of_app. right. apply list_elem_of_here.
    - intros H. apply (list_elem_of_fmap Check) in H as (f & -> & Hf).
      destruct (find _ _) as [g|] eqn:Eg; [eexists; reflexivity|].
      exfalso. apply list_elem_of_In in Hf.
      pose proof (find_none _ _ Eg f Hf) as Hn. cbv beta in Hn.
      rewrite String.eqb_refl in Hn. discriminate. }
  split; [apply length_map|].
  split; [rewrite map_map; reflexivity|].
  split; [rewrite map_map; reflexivity|].
  split.
  { rewrite map_map. apply map_ext. intros f. unfold Sarif.resultOf. cbn.
    destruct (Lines f); reflexivity. }
  split.
  { rewrite map_map. apply map_ext. intros f. unfold Sarif.resultOf.
    cbn [Sarif.Level]. unfold Sarif.severityToSARIFLevel.
    rank_cases (Sev f).
    7: { assert (E : forall sev, isEnumerated sev = true -> String.eqb (Sev f) sev = false).
         { intros sev Hsev. destruct (String.eqb_spec (Sev f) sev) as [E|]; [|reflexivity].
           rewrite E in H. congruence. }
         rewrite !E by reflexivity. rewrite H0. reflexivity. }
    all: rewrite H0, H; reflexivity. }
  split; [exact D|].
  split.
  { apply Forall_forall. intros r Hr.
    apply (list_elem_of_fmap Sarif.resultOf) in Hr as (f & -> & Hf).
    apply D. cbn. apply (list_elem_of_fmap_2 Check). exact Hf. }
  intros k rule Hk. rewrite L in Hk.
  destruct (find _ _) as [f|] eqn:Ef; [|discriminate].
  inversion Hk; subst rule.
  apply find_some_split in Ef as (pre & post & E & Hf & Hpre).
  apply String.eqb_eq in Hf.
  split; [exact Hf|].
  exists pre, f, post. repeat split; try assumption.
  eapply Forall_impl; [exact Hpre|]. intros g Hg. cbv beta in Hg.
  apply String.eqb_neq. exact Hg.
Qed.

(** ** The HTML reporter *)

Lemma join_fold (lines : list Z) : forall (acc : string) (i : Z),
  0 <= i ->
  fst (fold_left
         (fun '(result, i) l =>
            ((if (0 <? i) then result +:+ ", " else result) +:+ GoFmt.d l, i + 1))
         lines (acc, i))
  = match lines with
    | [] => acc
    | _ => (if 0 <? i then acc +:+ ", " else acc)
           +:+ GoStringsMore.Join (map GoFmt.d lines) ", "
    end.
Proof.
  induction lines as [|l lines IH]; intros acc i Hi; [reflexivity|].
  cbn [fold_left]. rewrite IH by lia.
  destruct lines as [|l' lines]; [reflexivity|].
  destruct (Z.ltb_spec 0 (i + 1)); [|lia].
  unfold GoStringsMore.Join. cbn [map String.concat].
  rewrite !append_assoc. reflexivity.
Qed.

(** X18. In the HTML report the grade always has a style class: grade-a,
    grade-b or grade-c, and grade-f for both D and F, that is from score
    50 on; a severity is styled as info exactly when it is not Critical,
    High, Medium or Low; and the lines of a finding are joined by a comma
    and a space. *)
Theorem html_classes_and_lines (score : Z) (s : Severity) (lines : list Z) :
  Html.gradeClass (Grade score) <> ""
  /\ (Html.gradeClass (Grade score) = "grade-f" <-> 50 <= score)
  /\ (Html.severityClass s = "info" <-> 4 <= SeverityRank s)
  /\ Html.join lines = GoStringsMore.Join (map GoFmt.d lines) ", ".
Proof.
  split; [|split; [|split]].
  - grade_cases score;
      repeat match goal with H : Grade _ = _ |- _ => rewrite H; clear H end; discriminate.
  - grade_cases score;
      repeat match goal with H : Grade _ = _ |- _ => rewrite H; clear H end;
      cbn; split; intros E; first [lia | discriminate E | reflexivity].
  - unfold Html.severityClass. rank_cases s.
    7: { assert (E : forall sev, isEnumerated sev = true -> String.eqb s sev = false).
         { intros sev Hsev. destruct (String.eqb_spec s sev) as [E|]; [|reflexivity].
           rewrite E in H. congruence. }
         rewrite !E by reflexivity. rewrite H0. split; [lia|reflexivity]. }
    all: rewrite H0, H; cbn; split; intros E; first [lia | discriminate E | reflexivity].
  - unfold Html.join. rewrite join_fold by lia.
    destruct lines; reflexivity.
Qed.

(** ** The findings of the reentrancy scanner *)

Lemma reentrancy_step_calls path st line :
  0 <= Reentrancy.lineNum st ->
  Reentrancy.callLine st <= Reentrancy.lineNum st ->
  (Reentrancy.sawExternalCall st = true -> 1 <= Reentrancy.callLine st) ->
  Reentrancy.callLine (Reentrancy.step path st line) <= Reentrancy.lineNum st + 1
  /\ (Reentrancy.sawExternalCall (Reentrancy.step path st line) = true ->
      1 <= Reentrancy.callLine (Reentrancy.step path st line))
  /\ (emits st line = true ->
      1 <= callLineAfter st line <= Reentrancy.lineNum st + 1).
Proof.
  intros H0 H1 H2. rewrite ReentrancyFacts.step_stepSpec.
  unfold stepSpec, emits, callLineAfter.
  destruct (declLine line), (Reentrancy.inFunction st), (callSignal line),
    (guardLine line), (Reentrancy.sawExternalCall st), (Reentrancy.hasGuard st),
    (mutationSignal line), (bareClose line); cbn;
    repeat split; intros; try discriminate; try lia;
    try (specialize (H2 eq_refl); lia).
Qed.

Lemma numberedIDs_S prefix k :
  numberedIDs prefix (S k)
  = numberedIDs prefix k ++ [prefix +:+ GoFmt.d (Z.of_nat k + 1)].
Proof.
  unfold numberedIDs. rewrite seq_S, map_app. reflexivity.
Qed.

Lemma numberedIDs_NoDup prefix k : NoDup (numberedIDs prefix k).
Proof.
  unfold numberedIDs. apply (NoDup_fmap_2_strong _ (seq 0 k)).
  - intros i j _ _ E. apply append_inj_l in E. unfold GoFmt.d in E.
    apply (inj pretty) in E. lia.
  - apply NoDup_ListNoDup, seq_NoDup.
Qed.

Lemma reentrancy_scan_shape path ls : forall st,
  0 <= Reentrancy.lineNum st ->
  Reentrancy.callLine st <= Reentrancy.lineNum st ->
  (Reentrancy.sawExternalCall st = true -> 1 <= Reentrancy.callLine st) ->
  Forall (reentrancyShaped path (Reentrancy.lineNum st)) (Reentrancy.findings st) ->
  map ID (Reentrancy.findings st)
  = numberedIDs "CUSTOM-REENTRANT-" (length (Reentrancy.findings st)) ->
  StronglySorted Z.lt (map mutationLineOf (Reentrancy.findings st)) ->
  let st' := Reentrancy.scan path st ls in
  Forall (reentrancyShaped path (Reentrancy.lineNum st + Z.of_nat (length ls)))
    (Reentrancy.findings st')
  /\ map ID (Reentrancy.findings st')
     = numberedIDs "CUSTOM-REENTRANT-" (length (Reentrancy.findings st'))
  /\ StronglySorted Z.lt (map mutationLineOf (Reentrancy.findings st')).
Proof.
  induction ls as [|l ls IH]; intros st H0 H1 H2 HF HI HS; cbn zeta.
  - simpl. rewrite Z.add_0_r. auto.
  - cbn [Reentrancy.scan fold_left].
    destruct (reentrancy_step_calls path st l H0 H1 H2) as (C1 & C2 & C3).
    pose proof (ReentrancyScan.step_lineNum path st l) as EN.
    pose proof (ReentrancyScan.step_findings path st l) as EF.
    assert (Mono : forall n f, n <= Reentrancy.lineNum st + 1 ->
                     reentrancyShaped path n f ->
                     reentrancyShaped path (Reentrancy.lineNum st + 1) f).
    { intros n f Hn (A & B & C & D & E & F & c & m & G & R1 & R2).
      repeat (split; [assumption|]). exists c, m. repeat split; try assumption; lia. }
    specialize (IH (Reentrancy.step path st l)).
    rewrite EN, EF in IH.
    replace (Reentrancy.lineNum st + Z.of_nat (length (l :: ls)))
      with (Reentrancy.lineNum st + 1 + Z.of_nat (length ls))
      by (simpl length; lia).
    apply IH; clear IH.
    + lia.
    + exact C1.
    + exact C2.
    + apply Forall_app. split.
      * eapply Forall_impl; [exact HF|]. intros f. apply Mono. lia.
      * destruct (emits st l) eqn:Ee; [|constructor].
        constructor; [|constructor].
        repeat (split; [reflexivity|]).
        eexists _, _. split; [reflexivity|]. specialize (C3 eq_refl). lia.
    + destruct (emits st l); [|rewrite app_nil_r; exact HI].
      rewrite map_app, length_app, HI. cbn [length map].
      rewrite Nat.add_1_r, numberedIDs_S. f_equal.
    + destruct (emits st l); [|rewrite app_nil_r; exact HS].
      rewrite map_app. apply StronglySorted_app_2; [|exact HS|repeat constructor].
      intros x1 x2 Hx1 Hx2. cbn [map] in Hx2. apply list_elem_of_singleton in Hx2.
      subst x2.
      apply (list_elem_of_fmap mutationLineOf) in Hx1 as (f & -> & Hf).
      rewrite Forall_forall in HF. destruct (HF f Hf) as (_ & _ & _ & _ & _ & _ & c & m & G & R1 & R2).
      unfold mutationLineOf. rewrite G. cbn. lia.
Qed.

Lemma reentrancy_scan_count path ls : forall st,
  (length (Reentrancy.findings (Reentrancy.scan path st ls))
   <= length (Reentrancy.findings st) + length ls)%nat.
Proof.
  induction ls as [|l ls IH]; intros st; cbn [Reentrancy.scan fold_left length]; [lia|].
  specialize (IH (Reentrancy.step path st l)).
  rewrite ReentrancyScan.step_findings, length_app in IH.
  unfold Reentrancy.scan in IH.
  destruct (emits st l); cbn [length] in IH; lia.
Qed.

(** X19. Every finding of the reentrancy scanner is a High finding of the
    scanned file with cross-reference SWC-107 and two lines, the line of a
    call and the line of a state change, with 1 <= call <= change <= number
    of lines of the file.  The state-change lines of the findings increase
    strictly, so a line gets at most one finding and there are at most as
    many findings as lines.  The identifiers number the findings of the
    file from 1, so they are distinct within a file, and the first
    findings of any two files have the same identifier. *)
Theorem reentrancy_findings_are_well_formed (path : string) (ls : list string) :
  Forall (reentrancyShaped path (Z.of_nat (length ls))) (checkReentrancyInFile path ls)
  /\ StronglySorted Z.lt (map mutationLineOf (checkReentrancyInFile path ls))
  /\ (length (checkReentrancyInFile path ls) <= length ls)%nat
  /\ map ID (checkReentrancyInFile path ls)
     = numberedIDs "CUSTOM-REENTRANT-" (length (checkReentrancyInFile path ls))
  /\ NoDup (map ID (checkReentrancyInFile path ls))
  /\ (forall path' ls' f f',
        head (checkReentrancyInFile path ls) = Some f ->
        head (checkReentrancyInFile path' ls') = Some f' ->
        ID f = ID f').
Proof.
  assert (Sh : forall p l,
            Forall (reentrancyShaped p (Z.of_nat (length l))) (checkReentrancyInFile p l)
            /\ map ID (checkReentrancyInFile p l)
               = numberedIDs "CUSTOM-REENTRANT-" (length (checkReentrancyInFile p l))
            /\ StronglySorted Z.lt (map mutationLineOf (checkReentrancyInFile p l))).
  { intros p l. unfold checkReentrancyInFile.
    apply (reentrancy_scan_shape p l Reentrancy.init); cbn;
      first [lia | discriminate | constructor | reflexivity]. }
  destruct (Sh path ls) as (HF & HI & HS).
  split; [exact HF|]. split; [exact HS|].
  split.
  { unfold checkReentrancyInFile.
    pose proof (reentrancy_scan_count path ls Reentrancy.init) as Hc.
    cbn in Hc. exact Hc. }
  split; [exact HI|].
  split; [rewrite HI; apply numberedIDs_NoDup|].
  intros path' ls' f f' Hf Hf'.
  destruct (Sh path' ls') as (_ & HI' & _).
  destruct (checkReentrancyInFile path ls) as [|g r]; [discriminate|].
  destruct (checkReentrancyInFile path' ls') as [|g' r']; [discriminate|].
  inversion Hf; inversion Hf'; subst.
  cbn in HI, HI'. inversion HI. inversion HI'. congruence.
Qed.

(** ** The findings of the access-control scanner *)

Lemma HasPrefix_allBytes (P : ascii -> bool) (p : string) : forall s,
  HasPrefix s p = true -> allBytes P s = true -> allBytes P p = true.
Proof.
  induction p as [|c p IH]; intros s Hp Hs; [reflexivity|].
  destruct s as [|d s]; simpl in Hp; [discriminate|].
  destruct (Ascii.eqb_spec c d) as [->|]; [|discriminate].
  simpl in *. apply andb_true_iff in Hs as [Hd Hs].
  rewrite Hd. exact (IH s Hp Hs).
Qed.

Lemma Index_allBytes (P : ascii -> bool) (sub : string) : forall s,
  allBytes P s = true -> 0 <= Index s sub -> allBytes P sub = true.
Proof.
  induction s as [|c s IH]; intros Hs Hi.
  - cbn [Index] in Hi. destruct (HasPrefix "" sub) eqn:E; [|lia].
    exact (HasPrefix_allBytes P sub "" E Hs).
  - cbn [Index] in Hi. destruct (HasPrefix (String c s) sub) eqn:E.
    + exact (HasPrefix_allBytes P sub _ E Hs).
    + simpl in Hs. apply andb_true_iff in Hs as [_ Hs].
      apply IH; [exact Hs|].
      destruct (Z.ltb_spec (Index s sub) 0); lia.
Qed.

Lemma allBytes_app_r (P : ascii -> bool) (a b : string) :
  allBytes P (a +:+ b) = true -> allBytes P b = true.
Proof.
  induction a as [|c a IH]; rewrite ?append_empty_l, ?append_String; [trivial|].
  simpl. intros H. apply andb_true_iff in H as [_ H]. exact (IH H).
Qed.

Lemma containsFunctionNamed_lower_keyword (line keyword : string) :
  AccessControl.containsFunctionNamed line keyword = true ->
  allBytes (fun c => negb (isUpper c)) keyword = true.
Proof.
  unfold AccessControl.containsFunctionNamed.
  destruct (Z.ltb_spec (Index (ToLower line) ("function " +:+ keyword)) 0) as [|Hi];
    [discriminate|].
  intros _. apply (allBytes_app_r _ "function ").
  exact (Index_allBytes _ _ _ (ToLower_no_upper line) Hi).
Qed.

Lemma filter_filter_implied {A} (p q : A -> bool) (l : list A) :
  (forall x, p x = true -> q x = true) ->
  List.filter p l = List.filter p (List.filter q l).
Proof.
  intros H. induction l as [|x l IH]; simpl; [reflexivity|].
  destruct (p x) eqn:Ep.
  - rewrite (H x Ep). simpl. rewrite Ep, IH. reflexivity.
  - destruct (q x); simpl; rewrite ?Ep; exact IH.
Qed.

Lemma accessFlags_lower_catalog (n : Z) (ls : list string) :
  accessFlags AccessControl.sensitivePatterns n ls = accessFlags lowerCaseCatalog n ls.
Proof.
  revert n. induction ls as [|l ls IH]; intros n; [reflexivity|].
  cbn [accessFlags]. rewrite IH. f_equal.
  destruct (accessCandidate (TrimSpace l)); [|reflexivity].
  f_equal. unfold lowerCaseCatalog. apply filter_filter_implied.
  intros sp H. unfold accessFlagged in H.
  apply andb_true_iff in H as [H _]. apply andb_true_iff in H as [H _].
  exact (containsFunctionNamed_lower_keyword _ _ H).
Qed.

Lemma accessFlags_app catalog l1 : forall n l2,
  accessFlags catalog n (l1 ++ l2)
  = accessFlags catalog n l1 ++ accessFlags catalog (n + Z.of_nat (length l1)) l2.
Proof.
  induction l1 as [|l l1 IH]; intros n l2.
  - simpl. rewrite Z.add_0_r. reflexivity.
  - cbn [app accessFlags]. rewrite IH, <- app_assoc. do 3 f_equal.
    simpl length. lia.
Qed.

Lemma checkPattern_flagged path trimmed n found sp :
  AccessControl.checkPattern path trimmed n found sp
  = found ++ (if accessFlagged trimmed (fst (fst sp))
              then [AccessControl.newFinding path trimmed n (snd (fst sp)) (snd sp) found]
              else []).
Proof.
  destruct sp as [[kw sev] note]. unfold AccessControl.checkPattern, accessFlagged.
  cbn [fst snd].
  destruct (AccessControl.containsFunctionNamed trimmed kw),
    (AccessControl.hasAccessModifier trimmed),
    (Contains trimmed " internal " || Contains trimmed " private ");
    cbn; rewrite ?app_nil_r; reflexivity.
Qed.

Section AccessScan.
Variable path : string.
Variable P : Finding -> Prop.
Hypothesis P_new : forall trimmed n sev note found,
  P (AccessControl.newFinding path trimmed n sev note found).

Lemma access_patterns_Forall trimmed n catalog : forall found,
  Forall P found ->
  Forall P (fold_left (AccessControl.checkPattern path trimmed n) catalog found).
Proof.
  induction catalog as [|sp catalog IH]; intros found H; [exact H|].
  cbn [fold_left]. apply IH. rewrite checkPattern_flagged.
  apply Forall_app. split; [exact H|].
  destruct (accessFlagged _ _); repeat constructor. apply P_new.
Qed.

Lemma access_scan_Forall ls : forall found n,
  Forall P found ->
  Forall P (fst (fold_left (AccessControl.step path) ls (found, n))).
Proof.
  induction ls as [|l ls IH]; intros found n H; [exact H|].
  cbn [fold_left]. unfold AccessControl.step at 2.
  destruct (HasPrefix (TrimSpace l) "//" || HasPrefix (TrimSpace l) "*");
    [apply IH; exact H|].
  destruct (negb (Contains (TrimSpace l) "function ")); [apply IH; exact H|].
  apply IH. apply access_patterns_Forall. exact H.
Qed.

End AccessScan.

Lemma access_patterns_view path trimmed n catalog : forall found,
  map accessView (fold_left (AccessControl.checkPattern path trimmed n) catalog found)
  = map accessView found
    ++ map (fun sp : string * Severity * string =>
              ([n], snd (fst sp),
               "Missing Access Control on " +:+ extractFunctionName trimmed +:+ "()"))
         (List.filter (fun sp : string * Severity * string =>
                         accessFlagged trimmed (fst (fst sp))) catalog).
Proof.
  induction catalog as [|sp catalog IH]; intros found.
  - simpl. rewrite app_nil_r. reflexivity.
  - cbn [fold_left List.filter]. rewrite IH, checkPattern_flagged, map_app, <- app_assoc.
    f_equal. destruct (accessFlagged trimmed (fst (fst sp))); reflexivity.
Qed.

Lemma access_scan_view path ls : forall found n,
  map accessView (fst (fold_left (AccessControl.step path) ls (found, n)))
  = map accessView found ++ accessFlags AccessControl.sensitivePatterns n ls.
Proof.
  induction ls as [|l ls IH]; intros found n.
  - simpl. rewrite app_nil_r. reflexivity.
  - cbn [fold_left accessFlags]. unfold AccessControl.step at 2, accessCandidate.
    destruct (HasPrefix (TrimSpace l) "//" || HasPrefix (TrimSpace l) "*");
      [rewrite IH; reflexivity|].
    destruct (Contains (TrimSpace l) "function "); cbn [negb andb];
      [|rewrite IH; reflexivity].
    rewrite IH, access_patterns_view, <- app_assoc. reflexivity.
Qed.

(** X20. In a file whose lines are ASCII bytes, the access-control scanner
    reports, for every line that is no
    comment and holds ["function "], one finding per catalog entry that
    flags the line, in the order of the lines and of the catalog, with the
    entry's severity, the line's number and the extracted function name in
    the title; a line is flagged for an entry when the lower-cased line
    has the keyword right after ["function "] and right before an opening
    parenthesis, no access modifier, and neither [" internal "] nor
    [" private "].  Since the keyword is looked for in the lower-cased
    line, only the six entries without a capital letter can ever flag a
    line: [upgradeTo], [upgradeToAndCall], [setOwner] and
    [transferOwnership] never do.  Every finding names the scanned file
    and SWC-105. *)
Theorem access_control_findings_characterised (path : string) (ls : list string) :
  Forall (fun l => isASCII l = true) ls ->
  map accessView (checkAccessControlInFile path ls)
  = accessFlags AccessControl.sensitivePatterns 0 ls
  /\ accessFlags AccessControl.sensitivePatterns 0 ls = accessFlags lowerCaseCatalog 0 ls
  /\ map (fun sp : string * Severity * string => fst sp) lowerCaseCatalog
     = [ ("mint", SeverityCritical); ("burn", SeverityHigh); ("pause", SeverityHigh);
         ("unpause", SeverityHigh); ("withdraw", SeverityHigh);
         ("selfdestruct", SeverityCritical) ]
  /\ (forall line keyword,
        isASCII line = true ->
        accessFlagged line keyword = true ->
        allBytes (fun c => negb (isUpper c)) keyword = true
        /\ HasPrefix
             (drop (Z.to_nat (Index (ToLower line) ("function " +:+ keyword)
                              + len "function " + len keyword))
                (ToLower line))
             "(" = true)
  /\ Forall (fun f => Source f = "custom" /\ Check f = "custom-missing-access-control"
                      /\ File f = path /\ SWCRef f = "SWC-105"
                      /\ Confidence f = "Medium")
       (checkAccessControlInFile path ls).
Proof.
  intros _.
  split; [|split; [|split; [|split]]].
  - unfold checkAccessControlInFile. rewrite access_scan_view. reflexivity.
  - apply accessFlags_lower_catalog.
  - reflexivity.
  - intros line keyword _ H. unfold accessFlagged in H.
    apply andb_true_iff in H as [H _]. apply andb_true_iff in H as [H _].
    split; [exact (containsFunctionNamed_lower_keyword _ _ H)|].
    exact (containsFunctionNamed_only_paren _ _ H).
  - unfold checkAccessControlInFile. apply access_scan_Forall; [|constructor].
    intros; repeat split; reflexivity.
Qed.

Lemma access_control_findings_characterised_witness :
  map accessView (checkAccessControlInFile "token.sol" ["contract Token {"; mintLine; setOwnerLine; "}"])
  = accessFlags AccessControl.sensitivePatterns 0 ["contract Token {"; mintLine; setOwnerLine; "}"]
  /\ accessFlags AccessControl.sensitivePatterns 0 ["contract Token {"; mintLine; setOwnerLine; "}"] = accessFlags lowerCaseCatalog 0 ["contract Token {"; mintLine; setOwnerLine; "}"]
  /\ map (fun sp : string * Severity * string => fst sp) lowerCaseCatalog
     = [ ("mint", SeverityCritical); ("burn", SeverityHigh); ("pause", SeverityHigh);
         ("unpause", SeverityHigh); ("withdraw", SeverityHigh);
         ("selfdestruct", SeverityCritical) ]
  /\ (forall line keyword,
        isASCII line = true ->
        accessFlagged line keyword = true ->
        allBytes (fun c => negb (isUpper c)) keyword = true
        /\ HasPrefix
             (drop (Z.to_nat (Index (ToLower line) ("function " +:+ keyword)
                              + len "function " + len keyword))
                (ToLower line))
             "(" = true)
  /\ Forall (fun f => Source f = "custom" /\ Check f = "custom-missing-access-control"
                      /\ File f = "token.sol" /\ SWCRef f = "SWC-105"
                      /\ Confidence f = "Medium")
       (checkAccessControlInFile "token.sol" ["contract Token {"; mintLine; setOwnerLine; "}"]).
Proof.
  apply (access_control_findings_characterised "token.sol" ["contract Token {"; mintLine; setOwnerLine; "}"]).
  repeat constructor.
Defined.

(** *** Strings that start with a given text *)

Lemma HasPrefix_empty (s : string) : HasPrefix s "" = true.
Proof. destruct s; reflexivity. Qed.

Lemma HasPrefix_app (p s : string) : HasPrefix (p +:+ s) p = true.
Proof.
  induction p as [|c p IH]; [apply HasPrefix_empty|].
  rewrite append_String. cbn [HasPrefix]. rewrite Ascii.eqb_refl. exact IH.
Qed.

Lemma Index_prefix (s sub : string) : HasPrefix s sub = true -> Index s sub = 0.
Proof. intros H. destruct s; cbn [Index]; rewrite H; reflexivity. Qed.

Lemma Contains_prefix (s sub : string) : HasPrefix s sub = true -> Contains s sub = true.
Proof. intros H. destruct s; cbn [Contains]; rewrite H; reflexivity. Qed.

Lemma drop_app (p s : string) : drop (String.length p) (p +:+ s) = s.
Proof.
  induction p as [|c p IH]; [reflexivity|].
  rewrite append_String. exact IH.
Qed.

Lemma ToLower_app (a b : string) : ToLower (a +:+ b) = ToLower a +:+ ToLower b.
Proof.
  induction a as [|c a IH]; [reflexivity|].
  rewrite append_String. cbn [ToLower]. rewrite IH, append_String. reflexivity.
Qed.

Lemma ToLower_fixed (s : string) :
  allBytes (fun c => negb (isUpper c)) s = true -> ToLower s = s.
Proof.
  induction s as [|c s IH]; intros H; [reflexivity|].
  simpl in H. apply andb_true_iff in H as [Hc Hs].
  cbn [ToLower]. rewrite (IH Hs). f_equal.
  apply negb_true_iff in Hc. unfold isUpper in Hc.
  change (nat_of_ascii "A") with 65%nat in Hc.
  change (nat_of_ascii "Z") with 90%nat in Hc.
  unfold lowerByte. rewrite Hc. reflexivity.
Qed.

Lemma length_append (a b : string) :
  String.length (a +:+ b) = (String.length a + String.length b)%nat.
Proof.
  induction a as [|c a IH]; [reflexivity|].
  rewrite append_String. cbn [String.length]. rewrite IH. reflexivity.
Qed.

Lemma containsFunctionNamed_declaration (kw rest : string) :
  allBytes (fun c => negb (isUpper c)) kw = true ->
  AccessControl.containsFunctionNamed ("function " +:+ kw +:+ String "(" rest) kw = true.
Proof.
  intros Hkw. unfold AccessControl.containsFunctionNamed. cbv zeta.
  rewrite !ToLower_app, (ToLower_fixed kw Hkw).
  change (ToLower "function ") with "function ".
  rewrite <- (append_assoc "function " kw).
  rewrite (Index_prefix _ _ (HasPrefix_app ("function " +:+ kw) _)).
  cbn [Z.ltb Z.compare].
  replace (Z.to_nat (0 + len "function " + len kw))
    with (String.length ("function " +:+ kw))
    by (rewrite length_append; unfold len; lia).
  rewrite drop_app. cbn [ToLower HasPrefix]. 
  rewrite HasPrefix_empty.
  destruct (Ascii.eqb "(" (lowerByte "(")) eqn:E; [reflexivity|].
  vm_compute in E. discriminate E.
Qed.

(** *** The function name *)

Lemma IndexAny_none (chars : string) : forall s,
  IndexAny s chars < 0 -> allBytes (fun c => negb (containsByte chars c)) s = true.
Proof.
  induction s as [|c s IH]; intros H; [reflexivity|].
  cbn [IndexAny] in H. simpl.
  destruct (containsByte chars c); [lia|].
  destruct (Z.ltb_spec (IndexAny s chars) 0); [|lia].
  simpl. apply IH. assumption.
Qed.

Lemma IndexAny_take (chars : string) : forall s,
  0 <= IndexAny s chars ->
  allBytes (fun c => negb (containsByte chars c)) (take (Z.to_nat (IndexAny s chars)) s)
  = true
  /\ exists c rest,
       s = take (Z.to_nat (IndexAny s chars)) s +:+ String c rest
       /\ containsByte chars c = true.
Proof.
  induction s as [|c s IH]; intros H; cbn [IndexAny] in *; [lia|].
  destruct (containsByte chars c) eqn:E.
  - split; [reflexivity|]. exists c, s. split; [reflexivity|exact E].
  - destruct (Z.ltb_spec (IndexAny s chars) 0) as [|Hi]; [lia|].
    replace (Z.to_nat (IndexAny s chars + 1)) with (S (Z.to_nat (IndexAny s chars)))
      by lia.
    cbn [take allBytes]. rewrite E. cbn [negb andb].
    destruct (IH Hi) as (Hall & c' & rest & Es & Hc).
    split; [exact Hall|]. exists c', rest. rewrite append_String, <- Es.
    split; [reflexivity|exact Hc].
Qed.

Lemma IndexAny_first (chars : string) (c : ascii) (rest : string) : forall name,
  allBytes (fun c => negb (containsByte chars c)) name = true ->
  containsByte chars c = true ->
  IndexAny (name +:+ String c rest) chars = len name
  /\ take (String.length name) (name +:+ String c rest) = name.
Proof.
  induction name as [|a name IH]; intros Hn Hc.
  - rewrite append_empty_l. cbn [IndexAny]. rewrite Hc. split; reflexivity.
  - rewrite append_String. cbn [IndexAny take String.length].
    simpl in Hn. apply andb_true_iff in Hn as [Ha Hn].
    apply negb_true_iff in Ha. rewrite Ha.
    destruct (IH Hn Hc) as [Ei Et]. rewrite Ei, Et.
    unfold len. destruct (Z.ltb_spec (Z.of_nat (String.length name)) 0); [lia|].
    split; [|reflexivity]. cbn [String.length]. lia.
Qed.

Lemma extractFunctionName_declaration (name : string) (c : ascii) (rest : string) :
  allBytes (fun c => negb (endsName c)) name = true ->
  endsName c = true ->
  extractFunctionName ("function " +:+ name +:+ String c rest) = name.
Proof.
  intros Hn Hc. unfold extractFunctionName.
  rewrite (Index_prefix _ _ (HasPrefix_app "function " _)).
  change (Z.to_nat (0 + len "function ")) with (String.length "function ").
  rewrite drop_app. cbv zeta.
  destruct (IndexAny_first "( " c rest name Hn Hc) as [Ei Et].
  rewrite Ei. unfold len.
  destruct (Z.ltb_spec (Z.of_nat (String.length name)) 0); [lia|].
  rewrite Nat2Z.id. exact Et.
Qed.

Lemma HasPrefix_length (p : string) : forall s,
  HasPrefix s p = true -> len p <= len s.
Proof.
  unfold len. induction p as [|c p IH]; intros s H; [cbn; lia|].
  destruct s as [|d s]; [discriminate H|]. cbn [HasPrefix] in H.
  destruct (Ascii.eqb c d); [|discriminate H].
  specialize (IH s H). cbn [String.length]. lia.
Qed.

Lemma Contains_Index (sub : string) : forall s,
  Contains s sub = true ->
  0 <= Index s sub /\ Index s sub + len sub <= len s.
Proof.
  induction s as [|c s IH]; intros H; cbn [Contains Index] in *.
  - rewrite orb_false_r in H. rewrite H.
    split; [lia|]. apply HasPrefix_length in H. lia.
  - destruct (HasPrefix (String c s) sub) eqn:E.
    + split; [lia|]. apply HasPrefix_length in E. lia.
    + cbn [orb] in H. destruct (IH H) as [I1 I2].
      destruct (Z.ltb_spec (Index s sub) 0); [lia|].
      unfold len in *. cbn [String.length]. lia.
Qed.

(** X21. For a line that holds ["function "], as both callers have
    checked, the slice [extractFunctionName] takes is within the line.  The
    name it returns never holds an opening parenthesis or a space: it is
    the text after the first ["function "] up to the first of these two
    bytes, or up to the end of the line when there is none.  For a line
    that starts with ["function "] followed by a name and a parenthesis or
    space, it is that name. *)
Theorem extractFunctionName_is_the_name (line : string) :
  Contains line "function " = true ->
  0 <= Index line "function " + len "function " <= len line
  /\ allBytes (fun c => negb (endsName c)) (extractFunctionName line) = true
  /\ (exists tail,
        drop (Z.to_nat (Index line "function " + len "function ")) line
        = extractFunctionName line +:+ tail
        /\ (tail = "" \/ exists c rest, tail = String c rest /\ endsName c = true))
  /\ (forall name c rest,
        allBytes (fun c => negb (endsName c)) name = true ->
        endsName c = true ->
        extractFunctionName ("function " +:+ name +:+ String c rest) = name).
Proof.
  intros Hc. split; [|split; [|split]].
  - destruct (Contains_Index _ _ Hc) as [I1 I2]. unfold len in *. lia.
  - unfold extractFunctionName. cbv zeta.
    set (rest := drop _ line).
    destruct (Z.ltb_spec (IndexAny rest "( ") 0) as [H|H].
    + exact (IndexAny_none _ _ H).
    + exact (proj1 (IndexAny_take _ _ H)).
  - unfold extractFunctionName. cbv zeta.
    set (rest := drop _ line).
    destruct (Z.ltb_spec (IndexAny rest "( ") 0) as [H|H].
    + exists "". rewrite append_empty_r. split; [reflexivity|left; reflexivity].
    + destruct (IndexAny_take _ _ H) as (_ & c & r & E & Hc').
      exists (String c r). split; [exact E|]. right. exists c, r. split; [reflexivity|exact Hc'].
  - intros name c rest. apply extractFunctionName_declaration.
Qed.

Lemma extractFunctionName_is_the_name_witness :
  extractFunctionName "function transfer(address to, uint256 amount)" = "transfer"
  /\ 0 <= Index "function transfer(address to, uint256 amount)" "function "
          + len "function "
       <= len "function transfer(address to, uint256 amount)"
  /\ allBytes (fun c => negb (endsName c))
       (extractFunctionName "function transfer(address to, uint256 amount)") = true
  /\ (exists tail,
        drop (Z.to_nat (Index "function transfer(address to, uint256 amount)" "function "
                        + len "function "))
          "function transfer(address to, uint256 amount)"
        = extractFunctionName "function transfer(address to, uint256 amount)" +:+ tail
        /\ (tail = "" \/ exists c rest, tail = String c rest /\ endsName c = true))
  /\ (forall name c rest,
        allBytes (fun c => negb (endsName c)) name = true ->
        endsName c = true ->
        extractFunctionName ("function " +:+ name +:+ String c rest) = name).
Proof.
  split; [reflexivity|].
  exact (extractFunctionName_is_the_name
           "function transfer(address to, uint256 amount)" eq_refl).
Defined.

Lemma In_lowerCaseCatalog (kw : string) (sev : Severity) (note : string) :
  (kw, sev, note) ∈ lowerCaseCatalog ->
  (kw, sev) ∈ [ ("mint", SeverityCritical); ("burn", SeverityHigh);
                ("pause", SeverityHigh); ("unpause", SeverityHigh);
                ("withdraw", SeverityHigh); ("selfdestruct", SeverityCritical) ].
Proof.
  intros H. apply (list_elem_of_fmap_2 (fun sp : string * Severity * string => fst sp)) in H.
  exact H.
Qed.

(** X22. A declaration of ASCII bytes that starts, after the indentation,
    with ["function "], a catalog keyword without capital letter and an opening
    parenthesis, and that has no access modifier and neither
    [" internal "] nor [" private "], gets a finding with the severity of
    the catalog entry, its line number, and the keyword in its title. *)
Theorem access_control_flags_plain_declaration (path : string)
    (pre : list string) (line : string) (post : list string)
    (kw : string) (sev : Severity) (note rest : string) :
  isASCII line = true ->
  (kw, sev, note) ∈ lowerCaseCatalog ->
  TrimSpace line = "function " +:+ kw +:+ String "(" rest ->
  AccessControl.hasAccessModifier (TrimSpace line) = false ->
  Contains (TrimSpace line) " internal " = false ->
  Contains (TrimSpace line) " private " = false ->
  exists f,
    f ∈ checkAccessControlInFile path (pre ++ line :: post)
    /\ Lines f = [Z.of_nat (length pre) + 1]
    /\ Sev f = sev
    /\ Title f = "Missing Access Control on " +:+ kw +:+ "()".
Proof.
  intros _ Hin Ht Hmod Hint Hpriv.
  assert (Hview : ([Z.of_nat (length pre) + 1], sev,
                   "Missing Access Control on " +:+ kw +:+ "()")
                  ∈ map accessView (checkAccessControlInFile path (pre ++ line :: post))).
  { unfold checkAccessControlInFile. rewrite access_scan_view. cbn [map app].
    rewrite accessFlags_lower_catalog, accessFlags_app. apply elem_of_app. right.
    cbn [accessFlags]. apply elem_of_app. left.
    assert (Hname : extractFunctionName (TrimSpace line) = kw).
    { rewrite Ht. apply extractFunctionName_declaration; [|reflexivity].
      apply In_lowerCaseCatalog in Hin.
      repeat (apply elem_of_cons in Hin as [Hin|Hin]; [inversion Hin; reflexivity|]).
      inversion Hin. }
    assert (Hlow : allBytes (fun c => negb (isUpper c)) kw = true).
    { apply In_lowerCaseCatalog in Hin.
      repeat (apply elem_of_cons in Hin as [Hin|Hin]; [inversion Hin; reflexivity|]).
      inversion Hin. }
    assert (Hcand : accessCandidate (TrimSpace line) = true).
    { unfold accessCandidate.
      rewrite (Contains_prefix _ _ (eq_ind_r (fun t => HasPrefix t "function " = true)
                                      (HasPrefix_app "function " _) Ht)).
      rewrite Ht, !append_String, append_empty_l. reflexivity. }
    assert (Hflag : accessFlagged (TrimSpace line) kw = true).
    { unfold accessFlagged. rewrite Hmod, Hint, Hpriv. cbn [negb orb andb].
      rewrite !andb_true_r. rewrite Ht.
      apply containsFunctionNamed_declaration, Hlow. }
    rewrite Hcand, Hname.
    apply (list_elem_of_fmap_2'
             (fun sp : string * Severity * string =>
                ([0 + Z.of_nat (length pre) + 1], snd (fst sp),
                 "Missing Access Control on " +:+ kw +:+ "()"))
             _ (kw, sev, note)).
    - apply list_elem_of_In, filter_In. split; [apply list_elem_of_In; exact Hin|].
      exact Hflag.
    - reflexivity. }
  apply (list_elem_of_fmap accessView) in Hview as (f & E & Hf).
  exists f. split; [exact Hf|]. unfold accessView in E. inversion E. auto.
Qed.

Lemma access_control_flags_plain_declaration_witness :
  exists f,
    f ∈ checkAccessControlInFile "vault.sol"
          (["contract Vault {"]
           ++ "    function withdraw(uint256 amount) public {" :: ["}"])
    /\ Lines f = [Z.of_nat (length ["contract Vault {"]) + 1]
    /\ Sev f = SeverityHigh
    /\ Title f = "Missing Access Control on " +:+ "withdraw" +:+ "()".
Proof.
  apply (access_control_flags_plain_declaration "vault.sol"
           ["contract Vault {"] "    function withdraw(uint256 amount) public {" ["}"]
           "withdraw" SeverityHigh
           "Unrestricted withdrawals allow draining of contract funds."
           "uint256 amount) public {").
  - reflexivity.
  - unfold lowerCaseCatalog. vm_compute. repeat constructor.
  - vm_compute. reflexivity.
  - vm_compute. reflexivity.
  - vm_compute. reflexivity.
  - vm_compute. reflexivity.
Defined.

(** ** The findings of the integer-overflow scanner *)

Module OverflowSteps.
Import IntegerOverflow.

Lemma step_overflowStep path st line : step path st line = overflowStep path st line.
Proof.
  unfold step, overflowStep, pragmaLine, uncheckedOpen, bareClose,
    flaggedBelowThreshold, arithmeticLine.
  destruct (if HasPrefix (TrimSpace line) "pragma solidity"
            then extractSolidityVersion (TrimSpace line)
            else (solidityMajor st, solidityMinor st)) as [M m].
  cbn [fst snd].
  destruct (String.eqb (TrimSpace line) "unchecked {" || String.eqb (TrimSpace line) "unchecked{"),
    (inUnchecked st), (String.eqb (TrimSpace line) "}"), (M =? 0);
    cbn [andb orb negb];
    destruct (Z.ltb_spec m 8), (Z.geb_spec m 8); try lia;
    cbn [andb orb negb];
    destruct (containsArithmetic (TrimSpace line)),
      (Contains (TrimSpace line) "SafeMath"), (isComment (TrimSpace line));
    cbn [andb orb negb]; rewrite ?app_nil_r; reflexivity.
Qed.

Lemma open_not_arithmetic line : uncheckedOpen line = true -> arithmeticLine line = false.
Proof.
  intros H. unfold arithmeticLine.
  destruct (OverflowFacts.uncheckedOpen_trimmed line H) as [-> | ->]; reflexivity.
Qed.

Lemma pragma_not_open line : pragmaLine line = true -> uncheckedOpen line = false.
Proof.
  unfold pragmaLine, uncheckedOpen. intros H.
  destruct (String.eqb_spec (TrimSpace line) "unchecked {") as [E|_];
    [rewrite E in H; discriminate H|].
  destruct (String.eqb_spec (TrimSpace line) "unchecked{") as [E|_];
    [rewrite E in H; discriminate H|].
  reflexivity.
Qed.

Lemma scan_snoc path st ls l : scan path st (ls ++ [l]) = step path (scan path st ls) l.
Proof. unfold scan. rewrite fold_left_app. reflexivity. Qed.

End OverflowSteps.

Lemma overflow_step_new path st line :
  exists new,
    IntegerOverflow.findings (IntegerOverflow.step path st line)
    = IntegerOverflow.findings st ++ new
    /\ (new = []
        \/ (exists M m, new = [IntegerOverflow.overflowFinding path
                                 (IntegerOverflow.lineNum st + 1) M m
                                 (IntegerOverflow.findings st)])
        \/ (new = [IntegerOverflow.uncheckedFinding path
                     (IntegerOverflow.lineNum st + 1)
                     (IntegerOverflow.uncheckedLine st)
                     (IntegerOverflow.findings st)]
            /\ IntegerOverflow.inUnchecked st = true
            /\ uncheckedOpen line = false /\ bareClose line = false)).
Proof.
  rewrite OverflowSteps.step_overflowStep. unfold overflowStep.
  cbn [IntegerOverflow.findings]. eexists. split; [reflexivity|].
  destruct ((fst _ =? 0) && (snd _ <? 8)).
  - destruct (flaggedBelowThreshold line); [|left; reflexivity].
    right; left. eexists _, _. reflexivity.
  - destruct (uncheckedOpen line) eqn:Eo.
    + rewrite (OverflowSteps.open_not_arithmetic line Eo).
      rewrite !andb_false_r. cbn [andb]. left. reflexivity.
    + destruct (IntegerOverflow.inUnchecked st), (bareClose line);
        cbn [orb andb negb]; rewrite ?andb_false_r; cbn [andb];
        try (left; reflexivity).
      destruct (_ && _); [|left; reflexivity].
      right; right. repeat split; reflexivity.
Qed.

Lemma overflow_step_state path st line :
  IntegerOverflow.lineNum (IntegerOverflow.step path st line)
  = IntegerOverflow.lineNum st + 1
  /\ IntegerOverflow.inUnchecked (IntegerOverflow.step path st line)
     = (uncheckedOpen line || IntegerOverflow.inUnchecked st) && negb (bareClose line)
  /\ IntegerOverflow.uncheckedLine (IntegerOverflow.step path st line)
     = (if uncheckedOpen line then IntegerOverflow.lineNum st + 1
        else IntegerOverflow.uncheckedLine st).
Proof.
  rewrite OverflowSteps.step_overflowStep. repeat split; reflexivity.
Qed.

Lemma overflow_scan_shape path ls : forall st,
  0 <= IntegerOverflow.lineNum st ->
  (IntegerOverflow.inUnchecked st = true ->
   1 <= IntegerOverflow.uncheckedLine st <= IntegerOverflow.lineNum st) ->
  Forall (overflowShaped path (IntegerOverflow.lineNum st)) (IntegerOverflow.findings st) ->
  Forall (fun f => reportedLine f <= IntegerOverflow.lineNum st)
    (IntegerOverflow.findings st) ->
  StronglySorted Z.lt (map reportedLine (IntegerOverflow.findings st)) ->
  (forall k f, IntegerOverflow.findings st !! k = Some f ->
     ID f = overflowPrefix f +:+ GoFmt.d (Z.of_nat k + 1)) ->
  let st' := IntegerOverflow.scan path st ls in
  Forall (overflowShaped path (IntegerOverflow.lineNum st + Z.of_nat (length ls)))
    (IntegerOverflow.findings st')
  /\ StronglySorted Z.lt (map reportedLine (IntegerOverflow.findings st'))
  /\ (forall k f, IntegerOverflow.findings st' !! k = Some f ->
        ID f = overflowPrefix f +:+ GoFmt.d (Z.of_nat k + 1))
  /\ (length (IntegerOverflow.findings st')
      <= length (IntegerOverflow.findings st) + length ls)%nat.
Proof.
  induction ls as [|l ls IH]; intros st H0 HU HF HR HS HI; cbn zeta.
  - simpl. rewrite Z.add_0_r. repeat split; try assumption. lia.
  - cbn [IntegerOverflow.scan fold_left].
    destruct (overflow_step_new path st l) as (new & EF & Hnew).
    destruct (overflow_step_state path st l) as (EN & EB & EU).
    specialize (IH (IntegerOverflow.step path st l)).
    rewrite EN, EF, EB, EU in IH.
    replace (IntegerOverflow.lineNum st + Z.of_nat (length (l :: ls)))
      with (IntegerOverflow.lineNum st + 1 + Z.of_nat (length ls))
      by (simpl length; lia).
    assert (Mono : forall f, overflowShaped path (IntegerOverflow.lineNum st) f ->
                     overflowShaped path (IntegerOverflow.lineNum st + 1) f).
    { intros f (A & B & C & [(D & E & k & G & R)|(D & E & u & k & G & R1 & R2)]).
      - repeat (split; [assumption|]). left. repeat (split; [assumption|]).
        exists k. split; [assumption|lia].
      - repeat (split; [assumption|]). right. repeat (split; [assumption|]).
        exists u, k. repeat split; try assumption; lia. }
    assert (Hshape : Forall (overflowShaped path (IntegerOverflow.lineNum st + 1)) new
                     /\ Forall (fun f => reportedLine f = IntegerOverflow.lineNum st + 1) new
                     /\ (length new <= 1)%nat
                     /\ (forall f, new = [f] ->
                           ID f = overflowPrefix f
                                  +:+ GoFmt.d (lenF (IntegerOverflow.findings st) + 1))).
    { destruct Hnew as [->|[(M & m & ->)|(-> & Hb & Ho & Hc)]].
      - split; [constructor|]. split; [constructor|]. split; [cbn [length]; lia|].
        intros f E. discriminate E.
      - split; [|split; [|split]].
        + constructor; [|constructor]. repeat (split; [reflexivity|]). left.
          repeat (split; [reflexivity|]). eexists. split; [reflexivity|lia].
        + repeat constructor.
        + cbn [length]. lia.
        + intros f E. inversion E; subst. reflexivity.
      - specialize (HU Hb). split; [|split; [|split]].
        + constructor; [|constructor]. repeat (split; [reflexivity|]). right.
          repeat (split; [reflexivity|]). eexists _, _. split; [reflexivity|lia].
        + repeat constructor.
        + cbn [length]. lia.
        + intros f E. inversion E; subst. reflexivity. }
    destruct Hshape as (S1 & S2 & S3 & S4).
    assert (IH' := IH). clear IH.
    destruct IH' as (R1 & R2 & R3 & R4).
    + lia.
    + intros Hb. destruct (uncheckedOpen l); [lia|].
      cbn [orb] in Hb. apply andb_true_iff in Hb as [Hb _].
      specialize (HU Hb). lia.
    + apply Forall_app. split; [|exact S1].
      eapply Forall_impl; [exact HF|]. exact Mono.
    + apply Forall_app. split.
      * eapply Forall_impl; [exact HR|]. intros f. cbv beta. lia.
      * eapply Forall_impl; [exact S2|]. intros f. cbv beta. lia.
    + rewrite map_app. apply StronglySorted_app_2.
      * intros x1 x2 Hx1 Hx2.
        apply (list_elem_of_fmap reportedLine) in Hx1 as (f1 & -> & Hf1).
        apply (list_elem_of_fmap reportedLine) in Hx2 as (f2 & -> & Hf2).
        rewrite Forall_forall in HR, S2.
        specialize (HR f1 Hf1). specialize (S2 f2 Hf2). lia.
      * exact HS.
      * destruct new as [|f [|g new]]; cbn [length] in S3; try lia; repeat constructor.
    + intros k f Hk. apply lookup_app_Some in Hk as [Hk|[Hlen Hk]].
      * exact (HI k f Hk).
      * destruct new as [|g [|g' new]]; cbn [length] in S3; try lia; [discriminate|].
        destruct (k - length (IntegerOverflow.findings st))%nat as [|k'] eqn:Ek;
          [|discriminate].
        inversion Hk; subst g. rewrite (S4 f eq_refl). unfold lenF. do 2 f_equal. lia.
    + unfold IntegerOverflow.scan in *. split; [exact R1|]. split; [exact R2|].
      split; [exact R3|].
      rewrite length_app in R4. cbn [length]. lia.
Qed.

(** X23. Every finding of the integer-overflow scanner names the scanned
    file and SWC-101 and is of one of two kinds: a High finding of the
    check for versions before 0.8, with the line of the arithmetic; or a
    Low finding of the check for unchecked blocks, with the line that
    opened the block and, after it, the line of the arithmetic.  All lines
    lie in the file; a line gets at most one finding, the findings are in
    the order of their lines, and there are at most as many as lines.  The
    identifier holds the position among the file's findings, counted from
    1, whatever the kind. *)
Theorem overflow_findings_are_well_formed (path : string) (ls : list string) :
  Forall (overflowShaped path (Z.of_nat (length ls))) (checkIntegerOverflowInFile path ls)
  /\ StronglySorted Z.lt (map reportedLine (checkIntegerOverflowInFile path ls))
  /\ (length (checkIntegerOverflowInFile path ls) <= length ls)%nat
  /\ (forall k f, checkIntegerOverflowInFile path ls !! k = Some f ->
        ID f = overflowPrefix f +:+ GoFmt.d (Z.of_nat k + 1)).
Proof.
  unfold checkIntegerOverflowInFile.
  destruct (overflow_scan_shape path ls IntegerOverflow.init) as (A & B & C & D).
  - cbn. lia.
  - cbn. discriminate.
  - constructor.
  - constructor.
  - constructor.
  - intros k f H. cbn in H. rewrite lookup_nil in H. discriminate H.
  - cbn in A, D. repeat split; assumption.
Qed.

(** *** The version read from the pragma line *)

Lemma versionOfParts_range (parts : list string) : forall major minor,
  exists m, IntegerOverflow.versionOfParts major minor parts = (0, m) /\ 0 < m.
Proof.
  induction parts as [|part parts IH]; intros major minor; cbn [IntegerOverflow.versionOfParts].
  - exists 8. split; [reflexivity|lia].
  - destruct (IntegerOverflow.versionOfPart major minor part) as [[M m] done] eqn:E.
    destruct done; [|apply IH].
    unfold IntegerOverflow.versionOfPart in E. cbv zeta in E.
    destruct (Split _ _) as [|p0 [|p1 ps]]; try (discriminate E).
    injection E as EM Em Ed. subst M m.
    apply andb_true_iff in Ed as [E0 Epos].
    apply Z.eqb_eq in E0. apply Z.gtb_lt in Epos.
    eexists. split; [rewrite E0; reflexivity|lia].
Qed.

(** X24. Whatever the pragma line, the version [extractSolidityVersion]
    reads has major number 0 and a minor number above 0: a major number
    other than 0 or a minor number 0 is passed over, and when no part of
    the line gives such a version the answer is 0.8.  So after a pragma
    line the scanner never works with version 0.0. *)
Theorem extractSolidityVersion_is_zero_dot_positive (pragma : string) :
  (exists minor,
     IntegerOverflow.extractSolidityVersion pragma = (0, minor) /\ 0 < minor)
  /\ (forall path st line,
        pragmaLine line = true ->
        IntegerOverflow.solidityMajor (IntegerOverflow.step path st line) = 0
        /\ 0 < IntegerOverflow.solidityMinor (IntegerOverflow.step path st line))
  /\ IntegerOverflow.extractSolidityVersion "pragma solidity ^0.7.6;" = (0, 7)
  /\ IntegerOverflow.extractSolidityVersion "pragma solidity >=0.6.0 <0.9.0;" = (0, 6)
  /\ IntegerOverflow.extractSolidityVersion "pragma solidity ^1.2.3;" = (0, 8)
  /\ IntegerOverflow.extractSolidityVersion "pragma solidity 0.0.1;" = (0, 8).
Proof.
  split; [apply versionOfParts_range|].
  split; [|repeat split; vm_compute; reflexivity].
  intros path st line Hp. rewrite OverflowSteps.step_overflowStep.
  unfold overflowStep. rewrite Hp. cbn [IntegerOverflow.solidityMajor IntegerOverflow.solidityMinor].
  destruct (versionOfParts_range (Fields (TrimSpace line)) 0 0) as (m & E & Hm).
  unfold IntegerOverflow.extractSolidityVersion. rewrite E. split; [reflexivity|exact Hm].
Qed.

(** *** The two version rules *)

Lemma overflow_scan_old path ls : forall found n m b u,
  m < 8 ->
  Forall (fun l => pragmaLine l = false) ls ->
  exists new b' u',
    IntegerOverflow.scan path (IntegerOverflow.mkState found n 0 m b u) ls
    = IntegerOverflow.mkState (found ++ new) (n + Z.of_nat (length ls)) 0 m b' u'
    /\ map Lines new = map (fun k => [k]) (flaggedLinesFrom n ls)
    /\ Forall (fun f => Sev f = SeverityHigh /\ Check f = "custom-integer-overflow") new
    /\ (b = false -> Forall (fun l => uncheckedOpen l = false) ls -> b' = false).
Proof.
  induction ls as [|l ls IH]; intros found n m b u Hm Hls.
  - exists [], b, u. cbn. rewrite Z.add_0_r, app_nil_r. repeat split; auto.
  - inversion Hls as [|? ? Hp Hls']; subst.
    cbn [IntegerOverflow.scan fold_left]. rewrite OverflowSteps.step_overflowStep.
    unfold overflowStep. rewrite Hp.
    cbn [IntegerOverflow.lineNum IntegerOverflow.solidityMajor IntegerOverflow.solidityMinor
         IntegerOverflow.findings IntegerOverflow.inUnchecked IntegerOverflow.uncheckedLine
         fst snd].
    destruct (Z.ltb_spec m 8); [|lia]. cbn [Z.eqb andb].
    destruct (IH (found ++ (if flaggedBelowThreshold l
                            then [IntegerOverflow.overflowFinding path (n + 1) 0 m found]
                            else []))
                (n + 1) m ((uncheckedOpen l || b) && negb (bareClose l))
                (if uncheckedOpen l then n + 1 else u) Hm Hls')
      as (new & b' & u' & E & HL & HS & HB).
    unfold IntegerOverflow.scan in E. rewrite E.
    eexists (_ ++ new), b', u'. rewrite <- app_assoc.
    split; [f_equal; simpl length; lia|].
    split; [|split].
    + cbn [flaggedLinesFrom]. rewrite !map_app, HL. f_equal.
      destruct (flaggedBelowThreshold l); reflexivity.
    + apply Forall_app. split; [|exact HS].
      destruct (flaggedBelowThreshold l); repeat constructor.
    + intros -> Ho. inversion Ho as [|? ? Hol Ho']; subst. apply HB; [|exact Ho'].
      rewrite Hol. reflexivity.
Qed.

Lemma overflow_scan_new_quiet path ls : forall found n m u,
  8 <= m ->
  Forall (fun l => pragmaLine l = false /\ uncheckedOpen l = false) ls ->
  exists u',
    IntegerOverflow.scan path (IntegerOverflow.mkState found n 0 m false u) ls
    = IntegerOverflow.mkState found (n + Z.of_nat (length ls)) 0 m false u'.
Proof.
  induction ls as [|l ls IH]; intros found n m u Hm Hls.
  - exists u. cbn. rewrite Z.add_0_r. reflexivity.
  - inversion Hls as [|? ? [Hp Ho] Hls']; subst.
    cbn [IntegerOverflow.scan fold_left]. rewrite OverflowSteps.step_overflowStep.
    unfold overflowStep. rewrite Hp, Ho.
    cbn [IntegerOverflow.lineNum IntegerOverflow.solidityMajor IntegerOverflow.solidityMinor
         IntegerOverflow.findings IntegerOverflow.inUnchecked IntegerOverflow.uncheckedLine
         fst snd orb andb].
    destruct (Z.ltb_spec m 8); [lia|]. cbn [Z.eqb andb]. rewrite app_nil_r.
    destruct (IH found (n + 1) m u Hm Hls') as (u' & E).
    unfold IntegerOverflow.scan in E. rewrite E. exists u'. f_equal. simpl length. lia.
Qed.

(** X25. In a file whose only pragma line reads a version 0.m with m
    below 8, the findings are exactly one High finding of the check for
    old versions per line that holds an arithmetic operator, does not
    mention SafeMath and is no comment, in the order of the lines; there is
    no finding about unchecked blocks. *)
Theorem overflow_rule_before_0_8 (path : string)
    (before : list string) (pragma : string) (rest : list string) (m : Z) :
  Forall (fun l => pragmaLine l = false) before ->
  pragmaLine pragma = true ->
  IntegerOverflow.extractSolidityVersion (TrimSpace pragma) = (0, m) ->
  m < 8 ->
  Forall (fun l => pragmaLine l = false) rest ->
  map Lines (checkIntegerOverflowInFile path (before ++ pragma :: rest))
  = map (fun k => [k]) (flaggedLinesFrom 0 (before ++ pragma :: rest))
  /\ Forall (fun f => Sev f = SeverityHigh /\ Check f = "custom-integer-overflow")
       (checkIntegerOverflowInFile path (before ++ pragma :: rest)).
Proof.
  intros Hb Hp Hv Hm Hr. unfold checkIntegerOverflowInFile.
  rewrite OverflowFacts.overflow_scan_app. unfold IntegerOverflow.init.
  destruct (overflow_scan_old path before [] 0 0 false 0 ltac:(lia) Hb)
    as (new1 & b1 & u1 & E1 & L1 & S1 & _).
  rewrite E1. cbn [app]. cbn [IntegerOverflow.scan fold_left].
  rewrite OverflowSteps.step_overflowStep. unfold overflowStep. rewrite Hp, Hv.
  cbn [IntegerOverflow.lineNum IntegerOverflow.solidityMajor IntegerOverflow.solidityMinor
       IntegerOverflow.findings IntegerOverflow.inUnchecked IntegerOverflow.uncheckedLine
       fst snd].
  destruct (Z.ltb_spec m 8); [|lia]. cbn [Z.eqb andb].
  destruct (overflow_scan_old path rest
              (new1 ++ (if flaggedBelowThreshold pragma
                        then [IntegerOverflow.overflowFinding path
                                (0 + Z.of_nat (length before) + 1) 0 m new1]
                        else []))
              (0 + Z.of_nat (length before) + 1) m
              ((uncheckedOpen pragma || b1) && negb (bareClose pragma))
              (if uncheckedOpen pragma then 0 + Z.of_nat (length before) + 1 else u1)
              Hm Hr)
    as (new2 & b2 & u2 & E2 & L2 & S2 & _).
  unfold IntegerOverflow.scan in E2. rewrite E2. cbn [IntegerOverflow.findings].
  split.
  - rewrite !map_app, L1, L2.
    assert (FA : forall l1 n l2, flaggedLinesFrom n (l1 ++ l2)
                 = flaggedLinesFrom n l1 ++ flaggedLinesFrom (n + Z.of_nat (length l1)) l2).
    { induction l1 as [|x l1 IH]; intros n l2.
      - cbn. rewrite Z.add_0_r. reflexivity.
      - cbn [app flaggedLinesFrom]. rewrite IH, <- app_assoc. do 3 f_equal.
        simpl length. lia. }
    rewrite FA. cbn [flaggedLinesFrom]. rewrite !map_app, <- app_assoc. f_equal. f_equal.
    destruct (flaggedBelowThreshold pragma); reflexivity.
  - apply Forall_app. split; [apply Forall_app; split|]; [exact S1| |exact S2].
    destruct (flaggedBelowThreshold pragma); repeat constructor.
Qed.

Lemma overflow_rule_before_0_8_witness :
  map Lines (checkIntegerOverflowInFile "old.sol"
               (["// SPDX-License-Identifier: MIT"]
                ++ "pragma solidity ^0.7.6;"
                   :: [ "contract Old {";
                        "    function add(uint256 a, uint256 b) public {";
                        "        uint256 c = a + b;";
                        "        total += c;";
                        "    }";
                        "}" ]))
  = map (fun k => [k])
      (flaggedLinesFrom 0
         (["// SPDX-License-Identifier: MIT"]
          ++ "pragma solidity ^0.7.6;"
             :: [ "contract Old {";
                  "    function add(uint256 a, uint256 b) public {";
                  "        uint256 c = a + b;";
                  "        total += c;";
                  "    }";
                  "}" ]))
  /\ Forall (fun f => Sev f = SeverityHigh /\ Check f = "custom-integer-overflow")
       (checkIntegerOverflowInFile "old.sol"
          (["// SPDX-License-Identifier: MIT"]
           ++ "pragma solidity ^0.7.6;"
              :: [ "contract Old {";
                   "    function add(uint256 a, uint256 b) public {";
                   "        uint256 c = a + b;";
                   "        total += c;";
                   "    }";
                   "}" ])).
Proof.
  apply (overflow_rule_before_0_8 "old.sol"
           ["// SPDX-License-Identifier: MIT"] "pragma solidity ^0.7.6;"
           [ "contract Old {";
             "    function add(uint256 a, uint256 b) public {";
             "        uint256 c = a + b;";
             "        total += c;";
             "    }";
             "}" ] 7).
  - repeat constructor.
  - reflexivity.
  - vm_compute. reflexivity.
  - lia.
  - repeat constructor.
Defined.

(** X26. In a file whose only pragma line reads a version 0.m with m at
    least 8 and that has no line opening an unchecked block, no line after
    the pragma line gets a finding, whatever arithmetic it holds; the lines
    before the pragma line are scanned as version 0.0, so the findings of
    the file are the High findings for the arithmetic lines among them. *)
Theorem overflow_rule_from_0_8 (path : string)
    (before : list string) (pragma : string) (rest : list string) (m : Z) :
  Forall (fun l => pragmaLine l = false /\ uncheckedOpen l = false) before ->
  pragmaLine pragma = true ->
  IntegerOverflow.extractSolidityVersion (TrimSpace pragma) = (0, m) ->
  8 <= m ->
  Forall (fun l => pragmaLine l = false /\ uncheckedOpen l = false) rest ->
  map Lines (checkIntegerOverflowInFile path (before ++ pragma :: rest))
  = map (fun k => [k]) (flaggedLinesFrom 0 before)
  /\ Forall (fun f => Sev f = SeverityHigh /\ Check f = "custom-integer-overflow")
       (checkIntegerOverflowInFile path (before ++ pragma :: rest))
  /\ (Forall (fun l => flaggedBelowThreshold l = false) before ->
      checkIntegerOverflowInFile path (before ++ pragma :: rest) = []).
Proof.
  intros Hb Hp Hv Hm Hr. unfold checkIntegerOverflowInFile.
  rewrite OverflowFacts.overflow_scan_app. unfold IntegerOverflow.init.
  assert (Hb1 : Forall (fun l => pragmaLine l = false) before)
    by (eapply Forall_impl; [exact Hb|]; intros l [H _]; exact H).
  assert (Hb2 : Forall (fun l => uncheckedOpen l = false) before)
    by (eapply Forall_impl; [exact Hb|]; intros l [_ H]; exact H).
  destruct (overflow_scan_old path before [] 0 0 false 0 ltac:(lia) Hb1)
    as (new1 & b1 & u1 & E1 & L1 & S1 & B1).
  specialize (B1 eq_refl Hb2). subst b1.
  rewrite E1. cbn [app]. cbn [IntegerOverflow.scan fold_left].
  rewrite OverflowSteps.step_overflowStep. unfold overflowStep.
  rewrite (OverflowSteps.pragma_not_open pragma Hp), Hp, Hv.
  cbn [IntegerOverflow.lineNum IntegerOverflow.solidityMajor IntegerOverflow.solidityMinor
       IntegerOverflow.findings IntegerOverflow.inUnchecked IntegerOverflow.uncheckedLine
       fst snd orb andb].
  destruct (Z.ltb_spec m 8); [lia|]. cbn [Z.eqb andb]. rewrite app_nil_r.
  destruct (overflow_scan_new_quiet path rest new1 (0 + Z.of_nat (length before) + 1) m u1
              Hm Hr) as (u2 & E2).
  unfold IntegerOverflow.scan in E2. rewrite E2. cbn [IntegerOverflow.findings].
  split; [exact L1|]. split; [exact S1|].
  intros Hnone.
  assert (F0 : forall n, flaggedLinesFrom n before = []).
  { clear -Hnone. induction Hnone as [|l ls Hl _ IH]; intros n; [reflexivity|].
    cbn [flaggedLinesFrom]. rewrite Hl, IH. reflexivity. }
  rewrite F0 in L1. destruct new1; [reflexivity|discriminate L1].
Qed.

Lemma overflow_rule_from_0_8_witness :
  map Lines (checkIntegerOverflowInFile "new.sol"
               (["// SPDX-License-Identifier: MIT"]
                ++ "pragma solidity ^0.8.20;"
                   :: [ "contract New {";
                        "    function add(uint256 a, uint256 b) public {";
                        "        uint256 c = a + b;";
                        "        total += c;";
                        "    }";
                        "}" ]))
  = map (fun k => [k]) (flaggedLinesFrom 0 ["// SPDX-License-Identifier: MIT"])
  /\ Forall (fun f => Sev f = SeverityHigh /\ Check f = "custom-integer-overflow")
       (checkIntegerOverflowInFile "new.sol"
          (["// SPDX-License-Identifier: MIT"]
           ++ "pragma solidity ^0.8.20;"
              :: [ "contract New {";
                   "    function add(uint256 a, uint256 b) public {";
                   "        uint256 c = a + b;";
                   "        total += c;";
                   "    }";
                   "}" ]))
  /\ (Forall (fun l => flaggedBelowThreshold l = false) ["// SPDX-License-Identifier: MIT"] ->
      checkIntegerOverflowInFile "new.sol"
        (["// SPDX-License-Identifier: MIT"]
         ++ "pragma solidity ^0.8.20;"
            :: [ "contract New {";
                 "    function add(uint256 a, uint256 b) public {";
                 "        uint256 c = a + b;";
                 "        total += c;";
                 "    }";
                 "}" ]) = []).
Proof.
  apply (overflow_rule_from_0_8 "new.sol"
           ["// SPDX-License-Identifier: MIT"] "pragma solidity ^0.8.20;"
           [ "contract New {";
             "    function add(uint256 a, uint256 b) public {";
             "        uint256 c = a + b;";
             "        total += c;";
             "    }";
             "}" ] 8).
  - repeat constructor.
  - reflexivity.
  - vm_compute. reflexivity.
  - lia.
  - repeat constructor.
Defined.

(** *** Where an unchecked block ends *)

Lemma overflow_scan_range path ls : forall st,
  exists new,
    IntegerOverflow.findings (IntegerOverflow.scan path st ls)
    = IntegerOverflow.findings st ++ new
    /\ Forall (fun f => IntegerOverflow.lineNum st < reportedLine f
                        <= IntegerOverflow.lineNum st + Z.of_nat (length ls)) new
    /\ IntegerOverflow.lineNum (IntegerOverflow.scan path st ls)
       = IntegerOverflow.lineNum st + Z.of_nat (length ls)
    /\ (IntegerOverflow.inUnchecked st = false ->
        Forall (fun l => uncheckedOpen l = false) ls ->
        Forall (fun f => Sev f = SeverityHigh) new
        /\ IntegerOverflow.inUnchecked (IntegerOverflow.scan path st ls) = false).
Proof.
  induction ls as [|l ls IH]; intros st.
  - exists []. cbn. rewrite app_nil_r, Z.add_0_r. repeat split; auto.
  - cbn [IntegerOverflow.scan fold_left].
    destruct (overflow_step_new path st l) as (new1 & EF & Hnew).
    destruct (overflow_step_state path st l) as (EN & EB & EU).
    destruct (IH (IntegerOverflow.step path st l)) as (new2 & E2 & R2 & N2 & Q2).
    unfold IntegerOverflow.scan in *.
    rewrite EN in R2, N2. rewrite EF in E2. rewrite EB in Q2.
    exists (new1 ++ new2). rewrite E2, app_assoc.
    split; [reflexivity|]. split; [|split].
    + apply Forall_app. split.
      * destruct Hnew as [->|[(M & m & ->)|(-> & _)]]; repeat constructor;
          unfold reportedLine; cbn; simpl length; lia.
      * eapply Forall_impl; [exact R2|]. intros f. cbv beta. simpl length. lia.
    + rewrite N2. simpl length. lia.
    + intros Hb Ho. inversion Ho as [|? ? Hol Ho']; subst.
      rewrite Hol, Hb in Q2. destruct (Q2 eq_refl Ho') as [S2 B2].
      split; [|exact B2].
      apply Forall_app. split; [|exact S2].
      destruct Hnew as [->|[(M & m & ->)|(_ & Hb' & _)]];
        [constructor | repeat constructor | congruence].
Qed.

(** X27. The scanner takes the first line that consists of a closing
    brace for the end of an unchecked block, also when that brace closes a
    block nested in it: from such a line up to the next line that opens an
    unchecked block no line gets a Low finding, whatever arithmetic it
    holds. *)
Theorem unchecked_block_ends_at_first_closing_brace (path : string)
    (pre : list string) (close : string) (mid post : list string) :
  bareClose close = true ->
  Forall (fun l => uncheckedOpen l = false) mid ->
  Forall (fun f => Sev f = SeverityLow ->
                   reportedLine f <= Z.of_nat (length pre)
                   \/ Z.of_nat (length pre) + 1 + Z.of_nat (length mid) < reportedLine f)
    (checkIntegerOverflowInFile path (pre ++ close :: mid ++ post)).
Proof.
  intros Hc Hmid. unfold checkIntegerOverflowInFile.
  change (pre ++ close :: mid ++ post) with (pre ++ (close :: mid) ++ post).
  rewrite !OverflowFacts.overflow_scan_app.
  set (st1 := IntegerOverflow.scan path IntegerOverflow.init pre).
  destruct (overflow_scan_range path pre IntegerOverflow.init) as (new1 & E1 & R1 & N1 & _).
  fold st1 in E1, N1. cbn in E1, R1, N1.
  cbn [IntegerOverflow.scan fold_left].
  set (st2 := IntegerOverflow.step path st1 close).
  destruct (overflow_step_new path st1 close) as (newc & EF & Hnew).
  destruct (overflow_step_state path st1 close) as (EN & EB & _).
  fold st2 in EF, EN, EB. rewrite Hc, andb_false_r in EB.
  destruct (overflow_scan_range path mid st2) as (new2 & E2 & R2 & N2 & Q2).
  destruct (Q2 EB Hmid) as [S2 _].
  destruct (overflow_scan_range path post (IntegerOverflow.scan path st2 mid))
    as (new3 & E3 & R3 & _).
  unfold IntegerOverflow.scan in *. rewrite E3, E2, EF, E1.
  rewrite N2, EN, N1 in R3. rewrite EN, N1 in R2.
  repeat (apply Forall_app; split).
  - eapply Forall_impl; [exact R1|]. intros f Hf _. cbv beta in Hf. lia.
  - destruct Hnew as [->|[(M & m & ->)|(_ & _ & _ & Hc')]];
      [constructor | repeat constructor; discriminate | congruence].
  - eapply Forall_impl; [exact S2|]. intros f Hf Hl. rewrite Hf in Hl. discriminate Hl.
  - eapply Forall_impl; [exact R3|]. intros f Hf _. cbv beta in Hf. lia.
Qed.

Lemma unchecked_block_ends_at_first_closing_brace_witness :
  Forall (fun f => Sev f = SeverityLow ->
                   reportedLine f <= Z.of_nat 6 \/ Z.of_nat 6 + 1 + Z.of_nat 4 < reportedLine f)
    (checkIntegerOverflowInFile "c.sol" nestedUnchecked)
  /\ map (fun f => (Sev f, Lines f)) (checkIntegerOverflowInFile "c.sol" nestedUnchecked)
     = [(SeverityLow, [4; 6])].
Proof.
  split.
  - exact (unchecked_block_ends_at_first_closing_brace "c.sol"
             [ "pragma solidity ^0.8.20;";
               "contract C {";
               "    function f(uint256 a, uint256 b) public {";
               "        unchecked {";
               "            if (a > b) {";
               "                c = a - b;" ]
             "            }"
             [ "            d = a - b;"; "        }"; "    }"; "}" ] []
             eq_refl ltac:(repeat constructor)).
  - vm_compute. reflexivity.
Defined.

(** ** The scanners' findings under deduplication *)

Lemma dedupKey_uniform (swc path : string) (f g : Finding) :
  SWCRef f = swc -> File f = path -> Lines f <> [] ->
  SWCRef g = swc -> File g = path -> Lines g <> [] ->
  (dedupKey f = dedupKey g <-> firstLine f = firstLine g).
Proof.
  intros Sf Ff Lf Sg Fg Lg. rewrite !dedupKey_unfold, Sf, Sg, Ff, Fg.
  unfold firstLine.
  destruct (Lines f) as [|n ls]; [contradiction|].
  destruct (Lines g) as [|n' ls']; [contradiction|].
  cbn [List.hd]. split.
  - intros E. apply append_inj_l in E. injection E as E.
    apply append_inj_l in E. injection E as E.
    unfold GoFmt.d in E. exact (inj pretty _ _ E).
  - intros ->. reflexivity.
Qed.

Lemma deduplicate_uniform (swc path : string) (fs : list Finding) :
  uniformFindings swc path fs -> deduplicate fs = keepFirst firstLine [] fs.
Proof.
  intros H. rewrite deduplicate_keepFirst. unfold uniformFindings in H.
  rewrite Forall_forall in H.
  apply keepFirst_same_collisions.
  - intros f g Hf Hg.
    destruct (H f Hf) as (A & B & C). destruct (H g Hg) as (A' & B' & C').
    exact (dedupKey_uniform swc path f g A B C A' B' C').
  - intros f _. split; intros Hin; inversion Hin.
Qed.

Lemma keepFirst_seen_irrelevant {K : Type} `{EqDecision K} (key : Finding -> K)
    (seen : list K) (fs : list Finding) :
  (forall f, f ∈ fs -> key f ∉ seen) ->
  keepFirst key seen fs = keepFirst key [] fs.
Proof.
  intros H. apply keepFirst_same_collisions.
  - intros f g _ _. reflexivity.
  - intros f Hf. split; intros Hin; [destruct (H f Hf Hin)|inversion Hin].
Qed.

Lemma dedupKey_other_swc (f g : Finding) :
  barFree (SWCRef f) = true -> barFree (SWCRef g) = true ->
  SWCRef f <> SWCRef g -> dedupKey f <> dedupKey g.
Proof.
  intros Bf Bg Hne E. rewrite !dedupKey_unfold in E.
  apply split_at_first_bar in E as [E _]; [contradiction|assumption|assumption].
Qed.

Lemma deduplicate_app_other_swc (swc1 : string) (xs ys : list Finding) :
  barFree swc1 = true ->
  Forall (fun f => SWCRef f = swc1) xs ->
  Forall (fun g => barFree (SWCRef g) = true /\ SWCRef g <> swc1) ys ->
  deduplicate (xs ++ ys) = deduplicate xs ++ deduplicate ys.
Proof.
  intros B1 Hx Hy. rewrite !deduplicate_keepFirst, keepFirst_app, app_nil_r.
  f_equal. apply keepFirst_seen_irrelevant.
  intros g Hg Hin. apply (list_elem_of_fmap dedupKey) in Hin as (f & E & Hf).
  rewrite Forall_forall in Hx, Hy.
  destruct (Hy g Hg) as [Bg Ng]. pose proof (Hx f Hf) as Sf.
  apply (dedupKey_other_swc f g); [rewrite Sf; exact B1|exact Bg|congruence|].
  symmetry. exact E.
Qed.

Lemma reentrancy_uniform path ls :
  uniformFindings "SWC-107" path (checkReentrancyInFile path ls).
Proof.
  unfold uniformFindings, checkReentrancyInFile.
  destruct (reentrancy_scan_shape path ls Reentrancy.init) as (H & _);
    cbn; try first [lia | discriminate | constructor | reflexivity].
  eapply Forall_impl; [exact H|].
  intros f (_ & _ & _ & _ & Ff & Sf & c & m & L & _).
  repeat split; try assumption. rewrite L. discriminate.
Qed.

Lemma access_uniform path ls :
  uniformFindings "SWC-105" path (checkAccessControlInFile path ls).
Proof.
  unfold uniformFindings, checkAccessControlInFile.
  apply access_scan_Forall; [|constructor].
  intros. repeat split; try reflexivity. discriminate.
Qed.

Lemma overflow_uniform path ls :
  uniformFindings "SWC-101" path (checkIntegerOverflowInFile path ls).
Proof.
  unfold uniformFindings, checkIntegerOverflowInFile.
  destruct (overflow_scan_shape path ls IntegerOverflow.init) as (H & _).
  - cbn. lia.
  - cbn. discriminate.
  - constructor.
  - constructor.
  - constructor.
  - intros k f Hk. cbn in Hk. rewrite lookup_nil in Hk. discriminate Hk.
  - eapply Forall_impl; [exact H|].
    intros f (_ & Ff & Sf & [(_ & _ & k & L & _)|(_ & _ & u & k & L & _)]);
      repeat split; try assumption; rewrite L; discriminate.
Qed.

(** X28. Of the findings of one scanner for one file, deduplication keeps
    the first finding for each first line and drops the others: the later
    state changes after the same call, the later arithmetic lines of the
    same unchecked block, the further catalog matches on the same
    declaration.  Findings of different scanners never displace each
    other.  For example, a call followed by two state changes gives two
    reentrancy findings, of which the report keeps the first. *)
Theorem scanners_findings_deduplicated_by_first_line (path : string) (ls : list string) :
  deduplicate (checkReentrancyInFile path ls)
  = keepFirst firstLine [] (checkReentrancyInFile path ls)
  /\ deduplicate (checkAccessControlInFile path ls)
     = keepFirst firstLine [] (checkAccessControlInFile path ls)
  /\ deduplicate (checkIntegerOverflowInFile path ls)
     = keepFirst firstLine [] (checkIntegerOverflowInFile path ls)
  /\ deduplicate (checkReentrancyInFile path ls ++ checkAccessControlInFile path ls
                  ++ checkIntegerOverflowInFile path ls)
     = deduplicate (checkReentrancyInFile path ls)
       ++ deduplicate (checkAccessControlInFile path ls)
       ++ deduplicate (checkIntegerOverflowInFile path ls)
  /\ map Lines (checkReentrancyInFile "w.sol" twoStateChanges) = [[2; 3]; [2; 4]]
  /\ map Lines (deduplicate (checkReentrancyInFile "w.sol" twoStateChanges)) = [[2; 3]].
Proof.
  pose proof (reentrancy_uniform path ls) as Hr.
  pose proof (access_uniform path ls) as Ha.
  pose proof (overflow_uniform path ls) as Ho.
  split; [exact (deduplicate_uniform _ _ _ Hr)|].
  split; [exact (deduplicate_uniform _ _ _ Ha)|].
  split; [exact (deduplicate_uniform _ _ _ Ho)|].
  split; [|split; vm_compute; reflexivity].
  unfold uniformFindings in *.
  rewrite (deduplicate_app_other_swc "SWC-107").
  - f_equal. apply (deduplicate_app_other_swc "SWC-105"); [reflexivity| |].
    + eapply Forall_impl; [exact Ha|]. intros f (A & _). exact A.
    + eapply Forall_impl; [exact Ho|]. intros f (A & _). rewrite A.
      split; [reflexivity|discriminate].
  - reflexivity.
  - eapply Forall_impl; [exact Hr|]. intros f (A & _). exact A.
  - apply Forall_app. split.
    + eapply Forall_impl; [exact Ha|]. intros f (A & _). rewrite A.
      split; [reflexivity|discriminate].
    + eapply Forall_impl; [exact Ho|]. intros f (A & _). rewrite A.
      split; [reflexivity|discriminate].
Qed.

(** ** Targets *)

Lemma rev_app_append (a b c : string) :
  String.rev_app (a +:+ b) c = String.rev_app b (String.rev_app a c).
Proof.
  revert c. induction a as [|x a IH]; intros c; [reflexivity|].
  rewrite append_String. cbn [String.rev_app]. apply IH.
Qed.

Lemma extGo_rev_app (e : string) : forall acc tail,
  allBytes (fun c => negb (dotOrSlash c)) e = true ->
  extGo acc (String.rev_app e tail) = extGo (e +:+ acc) tail.
Proof.
  induction e as [|x e IH]; intros acc tail H; [reflexivity|].
  simpl in H. apply andb_true_iff in H as [Hx He].
  cbn [String.rev_app]. rewrite (IH _ _ He). cbn [extGo].
  unfold dotOrSlash in Hx. apply negb_true_iff, orb_false_iff in Hx as [Hdot Hslash].
  rewrite Hslash, Hdot, append_String. reflexivity.
Qed.

Lemma Ext_with_extension (base e : string) :
  allBytes (fun c => negb (dotOrSlash c)) e = true ->
  Ext (base +:+ "." +:+ e) = "." +:+ e.
Proof.
  intros He. unfold Ext, String.rev.
  rewrite rev_app_append, rev_app_append, (extGo_rev_app e _ _ He).
  cbn [String.rev_app extGo Ascii.eqb]. 
  rewrite append_empty_r, append_String, append_empty_l. reflexivity.
Qed.

Lemma Ext_without_extension (dir name : string) :
  allBytes (fun c => negb (dotOrSlash c)) name = true ->
  Ext name = "" /\ Ext (dir +:+ "/" +:+ name) = "".
Proof.
  intros Hn. unfold Ext, String.rev. split.
  - rewrite (extGo_rev_app name _ _ Hn). reflexivity.
  - rewrite rev_app_append, rev_app_append, (extGo_rev_app name _ _ Hn). reflexivity.
Qed.

(** X29. [ValidateTarget] accepts exactly the directories and the
    non-directories whose extension is [.sol], in lower case; the
    extension is what follows the last dot of the last path element.  So
    every existing file named [something.sol] is accepted, while a file
    named [something.SOL] or a file without a dot in its name is rejected.
    For an accepted target the check functions find their files unless the
    directory walk fails, and a single file is the only file scanned. *)
Theorem ValidateTarget_accepts_sol_files_and_directories (fs : FileSystem)
    (target : string) :
  (ValidateTarget fs target = None
   <-> (exists walked, fs target = Directory walked)
       \/ (exists content, fs target = RegularFile content /\ Ext target = ".sol"))
  /\ (forall base e,
        allBytes (fun c => negb (dotOrSlash c)) e = true ->
        Ext (base +:+ "." +:+ e) = "." +:+ e)
  /\ (forall dir name,
        allBytes (fun c => negb (dotOrSlash c)) name = true ->
        Ext name = "" /\ Ext (dir +:+ "/" +:+ name) = "")
  /\ (forall base content,
        fs (base +:+ ".sol") = RegularFile content ->
        ValidateTarget fs (base +:+ ".sol") = None)
  /\ (forall base content,
        fs (base +:+ ".SOL") = RegularFile content ->
        ValidateTarget fs (base +:+ ".SOL")
        = Some ("target must be a .sol file or a directory, got: " +:+ base +:+ ".SOL"))
  /\ (ValidateTarget fs target = None ->
      fs target <> Directory None ->
      exists files, solidityFiles fs target = Ok files
                    /\ (forall content, fs target = RegularFile content -> files = [target])).
Proof.
  split; [|split; [|split; [|split; [|split]]]].
  - unfold ValidateTarget. destruct (fs target) as [| |c|w].
    + split; [discriminate|]. intros [[w H]|(c & H & _)]; discriminate H.
    + split; [discriminate|]. intros [[w H]|(c & H & _)]; discriminate H.
    + destruct (String.eqb_spec (Ext target) ".sol") as [E|E]; cbn [negb].
      * split; [|reflexivity]. intros _. right. exists c. split; [reflexivity|exact E].
      * split; [discriminate|]. intros [[w H]|(c' & _ & H)]; [discriminate H|contradiction].
    + split; [|reflexivity]. intros _. left. exists w. reflexivity.
  - apply Ext_with_extension.
  - apply Ext_without_extension.
  - intros base content H. unfold ValidateTarget. rewrite H.
    change (base +:+ ".sol") with (base +:+ "." +:+ "sol").
    rewrite (Ext_with_extension base "sol" eq_refl). reflexivity.
  - intros base content H. unfold ValidateTarget. rewrite H.
    change (base +:+ ".SOL") with (base +:+ "." +:+ "SOL") at 1.
    rewrite (Ext_with_extension base "SOL" eq_refl). reflexivity.
  - unfold ValidateTarget, solidityFiles. destruct (fs target) as [| |c|[w|]].
    + discriminate.
    + discriminate.
    + intros _ _. eexists. split; [reflexivity|]. intros; reflexivity.
    + intros _ _. eexists. split; [reflexivity|]. intros c H. discriminate H.
    + intros _ H. contradiction H. reflexivity.
Qed.
